(** * boom: the report of a load run ([commands/print.go])

    A shallow embedding of [commands/print.go]: the collector
    ([Report.finalize]) that folds the results of the requests into a
    [Report], and the reporter ([Report.print] and its helpers) that renders
    it.  Go's [float64] is Rocq's primitive binary64 [float]; Go's [int] (on
    a 64-bit platform) and [int64] are [Z] with the 64-bit wrap-around
    written out, an index below the length of a slice apart, which cannot
    overflow; maps are [gmap]s; the channel is the list of the results that
    wait in it when [finalize] is called; the text written to standard output
    is the list of the [fmt.Printf] calls made, each with its format string
    and its arguments. *)

From Stdlib Require Import ZArith Floats Uint63 Lia Sorting.Sorted.
From stdpp Require Import gmap strings list fin_maps.

Set Warnings "-inexact-float".
Local Open Scope Z_scope.

(** ** The parts of Go and of its standard library that the file uses *)

Module Go.

(** A 64-bit signed integer operation keeps the low 64 bits of its result. *)
Definition wrap64 (z : Z) : Z := (z + 2 ^ 63) mod 2 ^ 64 - 2 ^ 63.

(** The conversion [float64(n)] of an integer [n] of 64 bits: the nearest
    binary64 value, ties to even. *)
Definition float64_of_int (n : Z) : float :=
  if n =? - 2 ^ 63 then (- 0x1p63)%float
  else if n <? 0 then (- of_uint63 (Uint63.of_Z (- n)))%float
  else of_uint63 (Uint63.of_Z n).

(** [time.Duration] is an [int64] count of nanoseconds; [time.Second] is
    [1e9] of them.  [Duration.Seconds], as the standard library writes it:
    [sec := d / Second; nsec := d % Second;
     return float64(sec) + float64(nsec)/1e9]. *)
Definition Second : Z := 1000000000.

Definition Seconds (d : Z) : float :=
  let sec := Z.quot d Second in
  let nsec := Z.rem d Second in
  (float64_of_int sec + float64_of_int nsec / 1e9)%float.

(** [sort.Float64s] sorts in increasing order with the not-a-number values
    first: the order it sorts by is [Float64Slice.Less],
    [x < y || (isNaN(x) && !isNaN(y))]. *)
Definition float64_less (x y : float) : bool :=
  (x <? y)%float || (is_nan x && negb (is_nan y)).

(** What [sort.Float64s] leaves is a permutation of the slice in which no
    element is [Less] than one before it.  The library does not say which
    one where two different values are in neither order (the zeros of the
    two signs): its algorithm is not stable.  [sort_Float64s] is the sorted
    permutation that keeps such values in the order they had.  Where no two
    different values are in neither order, as among the latencies that
    [finalize] collects ([aggregate_tie_free] below), it is the only sorted
    permutation ([sorted_perm_unique]); a statement about every report
    takes of it no more than that it is a sorted permutation. *)
Fixpoint sort_insert (x : float) (l : list float) : list float :=
  match l with
  | [] => [x]
  | y :: l' => if float64_less y x then y :: sort_insert x l' else x :: l
  end.

Definition sort_Float64s (l : list float) : list float :=
  foldr sort_insert [] l.

(** An argument of a [fmt.Printf] call. *)
Inductive value : Type :=
| VInt (n : Z)
| VFloat (f : float)
| VString (s : string).

(** One call of [fmt.Printf]: the format string, kept as the source writes
    the literal (escape sequences are not expanded), and the arguments. *)
Record printf : Type := Printf { format : string; args : list value }.

(** [strings.Repeat(s, count)]; it panics on a negative count. *)
Fixpoint repeat_string (s : string) (n : nat) : string :=
  match n with
  | O => EmptyString
  | S n' => String.app s (repeat_string s n')
  end.

Definition strings_Repeat (s : string) (count : Z) : option string :=
  if count <? 0 then None else Some (repeat_string s (Z.to_nat count)).

(** How a call ends: it returns, it panics, or it never returns. *)
Inductive outcome (A : Type) : Type :=
| Returns (a : A)
| Panics
| Hangs.
Arguments Returns {A} a.
Arguments Panics {A}.
Arguments Hangs {A}.

Definition bind {A B : Type} (m : outcome A) (k : A -> outcome B) : outcome B :=
  match m with
  | Returns a => k a
  | Panics => Panics
  | Hangs => Hangs
  end.

(** The order in which [range] visits the entries of a map is not
    specified; a run fixes one for the status codes and one for the
    errors. *)
Record map_order : Type := MapOrder {
  range_codes : gmap Z Z -> list (Z * Z);
  range_errors : gmap string Z -> list (string * Z)
}.

(** Every entry of the map is visited exactly once. *)
Definition fair_order (ord : map_order) : Prop :=
  (forall m, range_codes ord m ≡ₚ map_to_list m) /\
  (forall m, range_errors ord m ≡ₚ map_to_list m).

(** The order of the keys, as one possible run. *)
Definition key_order : map_order :=
  {| range_codes := map_to_list; range_errors := map_to_list |}.

End Go.

Import Go.

#[global] Instance outcome_bind : MBind outcome := fun A B k m => bind m k.
#[global] Instance outcome_ret : MRet outcome := fun A a => Returns a.

(** ** The data *)

(** Modelled from the spec: the [result] of one request, whose declaration is
    in another file of the package.  [err] is the text of the error
    ([err.Error()]) when there is one; [duration] is a [time.Duration];
    [statusCode] is an [int] and [contentLength] an [int64]. *)
Record result : Type := Result {
  err : option string;
  statusCode : Z;
  duration : Z;
  contentLength : Z
}.

(** [type Report struct]; the channel [results] is the list of the results
    waiting in it, oldest first. *)
Record Report : Type := mkReport {
  AvgTotal : float;
  Fastest : float;
  Slowest : float;
  Average : float;
  RPS : float;
  SuccessRPS : float;
  results : list result;
  Total : Z;
  StatusCodeDist : gmap Z Z;
  Lats : list float;
  Errors : gmap string Z;
  SizeTotal : Z;
  output : string
}.

Definition barChar : string := "âˆŽ".

(** [newReport]: the fields it does not set have Go's zero values. *)
Definition newReport (size : Z) (results : list result) (output : string) : Report :=
  {| AvgTotal := 0; Fastest := 0; Slowest := 0; Average := 0; RPS := 0;
     SuccessRPS := 0; results := results; Total := 0;
     StatusCodeDist := ∅; Lats := []; Errors := ∅; SizeTotal := 0;
     output := output |}.

(** [m[k]++] on a map of counters: a missing key reads as zero. *)
Definition incr {K : Type} `{Countable K} (k : K) (m : gmap K Z) : gmap K Z :=
  <[k := wrap64 (default 0 (m !! k) + 1)]> m.

(** ** The collector: [Report.finalize] *)

(** One receive from the channel: the body of [case res := <-r.results]. *)
Definition collect (res : result) (st : Report * Z) : Report * Z :=
  let '(r, successCnt) := st in
  match err res with
  | Some e =>
      ({| AvgTotal := AvgTotal r; Fastest := Fastest r; Slowest := Slowest r;
          Average := Average r; RPS := RPS r; SuccessRPS := SuccessRPS r;
          results := results r; Total := Total r;
          StatusCodeDist := StatusCodeDist r; Lats := Lats r;
          Errors := incr e (Errors r); SizeTotal := SizeTotal r;
          output := output r |}, successCnt)
  | None =>
      ({| AvgTotal := (AvgTotal r + Seconds (duration res))%float;
          Fastest := Fastest r; Slowest := Slowest r;
          Average := Average r; RPS := RPS r; SuccessRPS := SuccessRPS r;
          results := results r; Total := Total r;
          StatusCodeDist := incr (statusCode res) (StatusCodeDist r);
          Lats := Lats r ++ [Seconds (duration res)];
          Errors := Errors r;
          SizeTotal := if 0 <? contentLength res
                       then wrap64 (SizeTotal r + contentLength res)
                       else SizeTotal r;
          output := output r |},
       if (200 <=? statusCode res) && (statusCode res <? 300)
       then wrap64 (successCnt + 1) else successCnt)
  end.

(** The [for { select { ... } }] loop up to its [default] case: it receives
    until the channel is empty. *)
Fixpoint drain (queue : list result) (st : Report * Z) : Report * Z :=
  match queue with
  | [] => st
  | res :: queue' => drain queue' (collect res st)
  end.

(** The [default] case, before it calls [print]. *)
Definition close (total : Z) (st : Report * Z) : Report :=
  let '(r, successCnt) := st in
  let lats := float64_of_int (Z.of_nat (length (Lats r))) in
  {| AvgTotal := AvgTotal r; Fastest := Fastest r; Slowest := Slowest r;
     Average := (AvgTotal r / lats)%float;
     RPS := (lats / Seconds total)%float;
     SuccessRPS := (float64_of_int successCnt / Seconds total)%float;
     results := []; Total := total;
     StatusCodeDist := StatusCodeDist r; Lats := Lats r;
     Errors := Errors r; SizeTotal := SizeTotal r;
     output := output r |}.

(** The report and [successCnt] when the channel is found empty. *)
Definition drained (r : Report) : Report * Z := drain (results r) (r, 0).

Definition aggregate (r : Report) (total : Z) : Report :=
  close total (drained r).

(** ** The reporter *)

(** [printCSV]: [i] is the index of the first sample of [lats]; it is below
    the length of the slice, so that [i+1] does not overflow. *)
Fixpoint printCSV_from (i : Z) (lats : list float) : list printf :=
  match lats with
  | [] => []
  | val :: lats' =>
      Printf "%v,%4.4f\n" [VInt (i + 1); VFloat val]
      :: printCSV_from (i + 1) lats'
  end.

Definition printCSV (r : Report) : list printf := printCSV_from 0 (Lats r).

(** [printLatencies] *)
Definition pctls : list Z := [10; 25; 50; 75; 90; 95; 99].

(** [current := i * 100 / len(r.Lats)], with [n] for [len(r.Lats)]. *)
Definition pctl_current (n i : Z) : Z := Z.quot (wrap64 (i * 100)) n.

(** The first loop of [printLatencies], from index [i] on: [rest] holds the
    samples [r.Lats[i:]] and [n] is [len(r.Lats)]. *)
Fixpoint pctl_loop (n : Z) (rest : list float) (i : Z) (j : nat)
    (data : list float) : list float :=
  match rest with
  | [] => data
  | x :: rest' =>
      match pctls !! j with
      | None => data
      | Some p =>
          let current := pctl_current n i in
          if p <=? current
          then pctl_loop n rest' (i + 1) (S j) (<[j := x]> data)
          else pctl_loop n rest' (i + 1) j data
      end
  end.

Definition pctl_data (lats : list float) : list float :=
  pctl_loop (Z.of_nat (length lats)) lats 0 0%nat
    (replicate (length pctls) 0%float).

(** The second loop of [printLatencies]. *)
Fixpoint pctl_lines (ps : list Z) (data : list float) : list printf :=
  match ps, data with
  | p :: ps', d :: data' =>
      if (0 <? d)%float
      then Printf "  %v%% in %4.4f secs.\n" [VInt p; VFloat d] :: pctl_lines ps' data'
      else pctl_lines ps' data'
  | _, _ => []
  end.

Definition printLatencies (r : Report) : list printf :=
  Printf "\nLatency distribution:\n" [] :: pctl_lines pctls (pctl_data (Lats r)).

(** [printHistogram] *)
Definition bc : Z := 10.

(** The bucket edges: [buckets[i] = r.Fastest + bs*float64(i)] for [i < bc],
    then [buckets[bc] = r.Slowest]. *)
Definition hist_buckets (r : Report) : list float :=
  let bs := ((Slowest r - Fastest r) / float64_of_int bc)%float in
  let buckets :=
    foldl (fun b i => <[i := (Fastest r + bs * float64_of_int (Z.of_nat i))%float]> b)
      (replicate (Z.to_nat (bc + 1)) 0%float) (seq 0 (Z.to_nat bc)) in
  <[Z.to_nat bc := Slowest r]> buckets.

(** The variables of the assignment loop: [i], [bi], [counts] and [max]. *)
Record hist_state : Type := HistState {
  h_i : nat;
  h_bi : nat;
  h_counts : list Z;
  h_max : Z
}.

(** What one evaluation of the loop [for i := 0; i < len(r.Lats); { ... }]
    does: it leaves the loop, it runs the body once, or it runs the body and
    the body changes nothing, after which every later iteration is the same
    one. *)
Inductive hist_move : Type :=
| HExit
| HNext (s : hist_state)
| HStuck
| HIndex.

Definition hist_step (lats buckets : list float) (s : hist_state) : hist_move :=
  match lats !! h_i s with
  | None => HExit
  | Some x =>
      match buckets !! h_bi s, h_counts s !! h_bi s with
      | Some b, Some c =>
          if (x <=? b)%float then
            let c' := wrap64 (c + 1) in
            HNext {| h_i := S (h_i s); h_bi := h_bi s;
                     h_counts := <[h_bi s := c']> (h_counts s);
                     h_max := if h_max s <? c' then c' else h_max s |}
          else if (h_bi s <? length buckets - 1)%nat then
            HNext {| h_i := h_i s; h_bi := S (h_bi s);
                     h_counts := h_counts s; h_max := h_max s |}
          else HStuck
      | _, _ => HIndex
      end
  end.

(** The loop, for at most [fuel] evaluations of its condition. *)
Fixpoint hist_loop (fuel : nat) (lats buckets : list float) (s : hist_state)
    : outcome hist_state :=
  match fuel with
  | O => Hangs
  | S fuel' =>
      match hist_step lats buckets s with
      | HExit => Returns s
      | HNext s' => hist_loop fuel' lats buckets s'
      | HStuck => Hangs
      | HIndex => Panics
      end
  end.

Definition hist_init : hist_state :=
  {| h_i := 0; h_bi := 0; h_counts := replicate (Z.to_nat (bc + 1)) 0; h_max := 0 |}.

(** What is left of the samples and of the edges, the last one apart. *)
Definition hist_left (lats buckets : list float) (s : hist_state) : nat :=
  ((length lats - h_i s) + (length buckets - 1 - h_bi s))%nat.

(** Every iteration with an effect adds one to [i] or to [bi], so that
    [len(r.Lats) + len(buckets)] evaluations of the condition are more than
    the loop can make before it is left or an iteration has no effect. *)
Definition hist_fuel (lats buckets : list float) : nat :=
  (length lats + length buckets)%nat.

(** The line of one bucket. *)
Definition hist_line (max : Z) (b : float) (c : Z) : outcome printf :=
  let barLen := if 0 <? max then Z.quot (wrap64 (c * 40)) max else 0 in
  match strings_Repeat barChar barLen with
  | Some bar => Returns (Printf "  %4.3f [%v]\t|%v\n" [VFloat b; VInt c; VString bar])
  | None => Panics
  end.

Fixpoint hist_lines (max : Z) (buckets : list float) (counts : list Z)
    : outcome (list printf) :=
  match buckets, counts with
  | [], _ => Returns []
  | b :: buckets', c :: counts' =>
      line ← hist_line max b c;
      rest ← hist_lines max buckets' counts';
      Returns (line :: rest)
  | _ :: _, [] => Panics
  end.

Definition printHistogram (r : Report) : outcome (list printf) :=
  let buckets := hist_buckets r in
  s ← hist_loop (hist_fuel (Lats r) buckets) (Lats r) buckets hist_init;
  lines ← hist_lines (h_max s) buckets (h_counts s);
  Returns (Printf "\nResponse time histogram:\n" [] :: lines).

(** [printStatusCodes] and [printErrors] *)
Definition printStatusCodes (ord : map_order) (r : Report) : list printf :=
  Printf "\nStatus code distribution:\n" []
  :: map (fun '(code, num) => Printf "  [%d]\t%d responses\n" [VInt code; VInt num])
       (range_codes ord (StatusCodeDist r)).

Definition printErrors (ord : map_order) (r : Report) : list printf :=
  Printf "\nError distribution:\n" []
  :: map (fun '(error, num) => Printf "  [%d]\t%s\n" [VInt num; VString error])
       (range_errors ord (Errors r)).

(** ** [Report.print] *)

Definition set_Lats (lats : list float) (r : Report) : Report :=
  {| AvgTotal := AvgTotal r; Fastest := Fastest r; Slowest := Slowest r;
     Average := Average r; RPS := RPS r; SuccessRPS := SuccessRPS r;
     results := results r; Total := Total r;
     StatusCodeDist := StatusCodeDist r; Lats := lats;
     Errors := Errors r; SizeTotal := SizeTotal r; output := output r |}.

Definition set_extremes (fastest slowest : float) (r : Report) : Report :=
  {| AvgTotal := AvgTotal r; Fastest := fastest; Slowest := slowest;
     Average := Average r; RPS := RPS r; SuccessRPS := SuccessRPS r;
     results := results r; Total := Total r;
     StatusCodeDist := StatusCodeDist r; Lats := Lats r;
     Errors := Errors r; SizeTotal := SizeTotal r; output := output r |}.

(** The lines of the summary, from [Summary:] to the size of the responses. *)
Definition printSummary (r : Report) : list printf :=
  [ Printf "\nSummary:\n" [];
    Printf "  Total:\t%4.4f secs.\n" [VFloat (Seconds (Total r))];
    Printf "  Slowest:\t%4.4f secs.\n" [VFloat (Slowest r)];
    Printf "  Fastest:\t%4.4f secs.\n" [VFloat (Fastest r)];
    Printf "  Average:\t%4.4f secs.\n" [VFloat (Average r)];
    Printf "  Requests/sec:\t%4.4f\n" [VFloat (RPS r)] ]
  ++ (if 0 <? SizeTotal r then
        [ Printf "  Total Data Recieved:\t%d bytes.\n" [VInt (SizeTotal r)];
          Printf "  Response Size per Request:\t%d bytes.\n"
            [VInt (Z.quot (SizeTotal r) (Z.of_nat (length (Lats r))))] ]
      else []).

(** The block under [if len(r.Lats) > 0]. *)
Definition printDetails (ord : map_order) (r : Report)
    : outcome (Report * list printf) :=
  match head (Lats r), last (Lats r) with
  | Some fastest, Some slowest =>
      let r := set_extremes fastest slowest r in
      if decide (output r = "quiet") then Returns (r, [])
      else
        hist ← printHistogram r;
        Returns (r, printSummary r ++ printStatusCodes ord r ++ hist
                    ++ printLatencies r)
  | _, _ => Returns (r, [])
  end.

(** [print] returns the report as it leaves it and what it wrote. *)
Definition print (ord : map_order) (r : Report) : outcome (Report * list printf) :=
  let r := set_Lats (sort_Float64s (Lats r)) r in
  if decide (output r = "csv") then Returns (r, printCSV r)
  else
    '(r, out) ← printDetails ord r;
    if (0 <? size (Errors r))%nat
    then Returns (r, out ++ printErrors ord r)
    else Returns (r, out).

(** [finalize]: the drain of the channel, then the [default] case. *)
Definition finalize (ord : map_order) (r : Report) (total : Z)
    : outcome (Report * list printf) :=
  print ord (aggregate r total).

(** A run of the package: [newReport] then [finalize]. *)
Definition report_of (ord : map_order) (queue : list result) (output : string)
    (total : Z) : outcome (Report * list printf) :=
  finalize ord (newReport (Z.of_nat (length queue)) queue output) total.

(** ** The quantities the statements are about *)

(** The sum of a list of counters, and of the counters of a map. *)
Definition sumZ (l : list Z) : Z := foldr Z.add 0 l.

Definition sum_counts {K : Type} `{Countable K} (m : gmap K Z) : Z :=
  map_fold (fun _ v acc => v + acc) 0 m.

(** Every counter of the map is at least zero. *)
Definition counters {K : Type} `{Countable K} (m : gmap K Z) : Prop :=
  map_Forall (fun _ v => 0 <= v) m.

(** [x] is not after [y] in the order of [sort.Float64s]. *)
Definition float64_le (x y : float) : Prop := float64_less y x = false.

(** A binary64 value that is a zero, or a number or an infinity of the sign
    [s] ([true] for the negative ones). *)
Definition of_sign (s : bool) (f : spec_float) : Prop :=
  match f with
  | S754_zero _ => True
  | S754_infinity s' => s' = s
  | S754_finite s' _ _ => s' = s
  | S754_nan => False
  end.

(** No sample is a not-a-number. *)
Definition numbers (l : list float) : Prop := Forall (fun x => is_nan x = false) l.

(** The report as [print] hands it to [printHistogram]: the latencies are
    numbers in increasing order, [Fastest] is the first and [Slowest] the
    last. *)
Definition ready (r : Report) : Prop :=
  numbers (Lats r) /\
  StronglySorted float64_le (Lats r) /\
  head (Lats r) = Some (Fastest r) /\
  last (Lats r) = Some (Slowest r).

(** What holds of the variables of the assignment loop each time its
    condition is evaluated: the samples before [i] are counted, each once. *)
Definition hist_inv (lats buckets : list float) (s : hist_state) : Prop :=
  (h_i s <= length lats)%nat /\
  (h_bi s < length buckets)%nat /\
  length (h_counts s) = length buckets /\
  Forall (fun c => 0 <= c) (h_counts s) /\
  sumZ (h_counts s) = Z.of_nat (h_i s).

(** The count that a line of the histogram shows. *)
Definition printed_count (p : printf) : Z :=
  match args p with
  | [_; VInt c; _] => c
  | _ => 0
  end.

(** The line of the latency distribution for the percentile [p]. *)
Definition pctl_line (p : Z) (d : float) : printf :=
  Printf "  %v%% in %4.4f secs.\n" [VInt p; VFloat d].

(** The line of [printCSV] for the sample of index [i]. *)
Definition csv_line (i : nat) (val : float) : printf :=
  Printf "%v,%4.4f\n" [VInt (Z.of_nat i + 1); VFloat val].

(** The line of [printErrors] for one entry of the map. *)
Definition error_line (entry : string * Z) : printf :=
  Printf "  [%d]\t%s\n" [VInt entry.2; VString entry.1].

(** The results that carry no error, and those among them that are not
    counted as successes. *)
Definition no_error (res : result) : bool :=
  match err res with None => true | Some _ => false end.

Definition has_error (res : result) : bool := negb (no_error res).

Definition is_success (res : result) : bool :=
  no_error res && (200 <=? statusCode res) && (statusCode res <? 300).

Definition is_other_status (res : result) : bool :=
  no_error res && negb ((200 <=? statusCode res) && (statusCode res <? 300)).

Definition count (p : result -> bool) (l : list result) : nat :=
  length (filter (fun res => p res = true) l).

(** The scenario of five requests answered in 0.1 to 0.5 seconds. *)
Definition scenario_lats : list float := [0.1; 0.2; 0.3; 0.4; 0.5]%float.

Definition scenario_queue : list result :=
  map (fun d => Result None 200 d 0)
    [100000000; 200000000; 300000000; 400000000; 500000000].

(** The results that carry the error [e], and those without an error that
    carry the status [code]. *)
Definition with_error (e : string) (res : result) : bool :=
  bool_decide (err res = Some e).

Definition with_status (code : Z) (res : result) : bool :=
  no_error res && (statusCode res =? code).

(** The bytes of the responses: the positive lengths of the results without
    an error. *)
Definition received (queue : list result) : Z :=
  sumZ (map (fun res => if no_error res && (0 <? contentLength res)
                        then contentLength res else 0) queue).

(** The value that a line of the latency distribution shows. *)
Definition line_value (p : printf) : float :=
  match args p with
  | [_; VFloat d] => d
  | _ => 0%float
  end.

(** The samples of [lats] at the indices [idxs]. *)
Definition samples_at (lats : list float) (idxs : list nat) : list float :=
  map (fun x => default 0%float (lats !! x)) idxs.

(** The line of the histogram for the edge [b] and the count [c], with a
    bar of [n] glyphs. *)
Definition hist_bar (b : float) (c : Z) (n : nat) : printf :=
  Printf "  %4.3f [%v]\t|%v\n" [VFloat b; VInt c; VString (repeat_string barChar n)].

(** [max] is the largest of the counts. *)
Definition hist_max_inv (s : hist_state) : Prop :=
  h_max s ∈ h_counts s /\ Forall (fun c => c <= h_max s) (h_counts s).

(** The format strings of the block under [if len(r.Lats) > 0], and those
    of the error distribution. *)
Definition summary_formats : list string :=
  [ "\nSummary:\n"; "  Total:\t%4.4f secs.\n"; "  Slowest:\t%4.4f secs.\n";
    "  Fastest:\t%4.4f secs.\n"; "  Average:\t%4.4f secs.\n";
    "  Requests/sec:\t%4.4f\n"; "  Total Data Recieved:\t%d bytes.\n";
    "  Response Size per Request:\t%d bytes.\n" ].

Definition status_formats : list string :=
  [ "\nStatus code distribution:\n"; "  [%d]\t%d responses\n" ].

Definition section_formats : list string :=
  [ "\nResponse time histogram:\n"; "  %4.3f [%v]\t|%v\n";
    "\nLatency distribution:\n"; "  %v%% in %4.4f secs.\n" ].

Definition error_formats : list string :=
  [ "\nError distribution:\n"; "  [%d]\t%s\n" ].

(** The line of [printStatusCodes] for one entry of the map. *)
Definition status_line (entry : Z * Z) : printf :=
  Printf "  [%d]\t%d responses\n" [VInt entry.1; VInt entry.2].

(** The bucket of a sample: the index of the first edge that the sample
    does not exceed. *)
Definition bucket_of (buckets : list float) (x : float) : option nat :=
  fst <$> list_find (fun b => (x <=? b)%float = true) buckets.

(** The number of the samples of [lats] whose bucket is [k]. *)
Definition bucket_count (buckets lats : list float) (k : nat) : Z :=
  Z.of_nat (length (filter (fun x => bucket_of buckets x = Some k) lats)).

(** What the loop of the histogram has counted when its condition is
    evaluated: each count is the number of the samples before [i] of that
    bucket, and no sample from [i] on is within an edge before [bi]. *)
Definition hist_tally (lats buckets : list float) (s : hist_state) : Prop :=
  (forall (k : nat) c, h_counts s !! k = Some c ->
                       c = bucket_count buckets (take (h_i s) lats) k) /\
  (forall (k : nat) b x, (k < h_bi s)%nat -> buckets !! k = Some b ->
                         x ∈ drop (h_i s) lats -> (x <=? b)%float = false).

(** A call that prints a heading: it has no argument. *)
Definition is_heading (p : printf) : bool :=
  match args p with
  | [] => true
  | _ => false
  end.

Definition headings (out : list printf) : list string :=
  map format (filter (fun p => is_heading p = true) out).

(** No two different samples are in neither order of [sort.Float64s]: the
    list has one sorted permutation only. *)
Definition tie_free (l : list float) : Prop :=
  Forall (fun x => Forall (fun y => float64_less x y = false ->
                                    float64_less y x = false -> x = y) l) l.

(** A call that prints an entry of one of the two maps. *)
Definition is_entry (p : printf) : bool :=
  String.eqb (format p) "  [%d]\t%d responses\n"
  || String.eqb (format p) "  [%d]\t%s\n".

(** The order of the keys backwards, as another possible run. *)
Definition backward_order : map_order :=
  {| range_codes := fun m => reverse (map_to_list m);
     range_errors := fun m => reverse (map_to_list m) |}.

(** ** The order of [float64] *)

Ltac cmp_cases :=
  repeat match goal with
  | H : context [Z.compare ?a ?b] |- _ =>
      destruct (Z.compare_spec a b); simpl in H
  | H : context [Pos.compare_cont Eq ?a ?b] |- _ =>
      change (Pos.compare_cont Eq a b) with (Pos.compare a b) in H;
      destruct (Pos.compare_spec a b); simpl in H
  | |- context [Z.compare ?a ?b] => destruct (Z.compare_spec a b); simpl
  | |- context [Pos.compare_cont Eq ?a ?b] =>
      change (Pos.compare_cont Eq a b) with (Pos.compare a b);
      destruct (Pos.compare_spec a b); simpl
  end.

Ltac by_cases_of x y :=
  destruct (Prim2SF x) as [[]|[]| |[] ? ?], (Prim2SF y) as [[]|[]| |[] ? ?];
  simpl; intros; try congruence; auto; cmp_cases; auto; try lia; try congruence.

Lemma SFleb_trans a b c :
  SFleb a b = true -> SFleb b c = true -> SFleb a c = true.
Proof.
  unfold SFleb.
  destruct a as [[]|[]| |[] ma ea], b as [[]|[]| |[] mb eb],
           c as [[]|[]| |[] mc ec];
    simpl; intros Hab Hbc; try reflexivity; try discriminate;
    cmp_cases; try reflexivity; try discriminate; try lia.
Qed.

Lemma SFleb_refl a : a <> S754_nan -> SFleb a a = true.
Proof.
  unfold SFleb.
  destruct a as [[]|[]| |[] ma ea]; simpl; intros Hn;
    try reflexivity; try congruence;
    rewrite Z.compare_refl, Pos.compare_cont_refl; reflexivity.
Qed.

Lemma is_nan_spec x : is_nan x = true <-> Prim2SF x = S754_nan.
Proof.
  unfold is_nan. rewrite FloatAxioms.eqb_spec. unfold SFeqb. split.
  - destruct (Prim2SF x) as [[]|[]| |[] ma ea]; simpl;
      try discriminate; try reflexivity;
      rewrite Z.compare_refl, Pos.compare_cont_refl; discriminate.
  - intros ->. reflexivity.
Qed.

Lemma is_nan_false x : is_nan x = false <-> Prim2SF x <> S754_nan.
Proof. rewrite <- is_nan_spec. destruct (is_nan x); split; congruence. Qed.

Lemma leb_refl x : is_nan x = false -> (x <=? x)%float = true.
Proof. rewrite is_nan_false, FloatAxioms.leb_spec. apply SFleb_refl. Qed.

Lemma leb_trans x y z :
  (x <=? y)%float = true -> (y <=? z)%float = true -> (x <=? z)%float = true.
Proof. rewrite !FloatAxioms.leb_spec. apply SFleb_trans. Qed.

Lemma leb_not_nan x y :
  (x <=? y)%float = true -> is_nan x = false /\ is_nan y = false.
Proof.
  rewrite !is_nan_false, FloatAxioms.leb_spec. unfold SFleb.
  destruct (Prim2SF x), (Prim2SF y); simpl; intros; split; congruence.
Qed.

Lemma ltb_false_leb x y :
  is_nan x = false -> is_nan y = false ->
  (x <? y)%float = false -> (y <=? x)%float = true.
Proof.
  rewrite !is_nan_false, FloatAxioms.ltb_spec, FloatAxioms.leb_spec.
  unfold SFltb, SFleb. by_cases_of x y.
Qed.

Lemma leb_ltb_false x y : (x <=? y)%float = true -> (y <? x)%float = false.
Proof.
  rewrite FloatAxioms.ltb_spec, FloatAxioms.leb_spec.
  unfold SFltb, SFleb. by_cases_of x y.
Qed.

Lemma ltb_asym x y : (x <? y)%float = true -> (y <? x)%float = false.
Proof. rewrite !FloatAxioms.ltb_spec. unfold SFltb. by_cases_of x y. Qed.

Lemma ltb_not_nan x y :
  (x <? y)%float = true -> is_nan x = false /\ is_nan y = false.
Proof.
  rewrite !is_nan_false, FloatAxioms.ltb_spec. unfold SFltb.
  destruct (Prim2SF x), (Prim2SF y); simpl; intros; split; congruence.
Qed.

(** [float64_le] on numbers is [<=]; a not-a-number is before everything. *)
Lemma float64_le_numbers x y :
  is_nan x = false -> (float64_le x y <-> (x <=? y)%float = true).
Proof.
  intros Hx. unfold float64_le, float64_less. rewrite Hx. simpl.
  rewrite andb_true_r, orb_false_iff. split.
  - intros [Hlt Hy]. apply ltb_false_leb; assumption.
  - intros Hle. split; [ apply leb_ltb_false; assumption | ].
    apply leb_not_nan in Hle. tauto.
Qed.

Lemma float64_le_nan x y : is_nan x = true -> float64_le x y.
Proof.
  intros Hx. unfold float64_le, float64_less. rewrite Hx, andb_false_r, orb_false_r.
  destruct (y <? x)%float eqn:E; [ | reflexivity ].
  apply ltb_not_nan in E. destruct E; congruence.
Qed.

Lemma float64_le_trans x y z :
  float64_le x y -> float64_le y z -> float64_le x z.
Proof.
  intros Hxy Hyz. destruct (is_nan x) eqn:Hx; [ apply float64_le_nan; assumption | ].
  apply float64_le_numbers in Hxy; [ | assumption ].
  destruct (leb_not_nan _ _ Hxy) as [_ Hy].
  apply float64_le_numbers in Hyz; [ | assumption ].
  apply float64_le_numbers; [ assumption | ]. eapply leb_trans; eassumption.
Qed.

(** The order is total: of two values, one is not after the other. *)
Lemma float64_less_asym x y : float64_less x y = true -> float64_less y x = false.
Proof.
  unfold float64_less. rewrite orb_true_iff, andb_true_iff, negb_true_iff.
  intros [Hlt | [Hx Hy]].
  - destruct (ltb_not_nan _ _ Hlt) as [Hx Hy].
    rewrite (ltb_asym _ _ Hlt), Hy. reflexivity.
  - rewrite Hy. simpl. rewrite orb_false_r.
    destruct (y <? x)%float eqn:E; [ | reflexivity ].
    apply ltb_not_nan in E. destruct E; congruence.
Qed.

(** ** [Duration.Seconds] is a number

    The rounding of a mantissa that is not negative gives a zero, a number or
    an infinity of the sign asked for; so the conversion of an integer has
    the sign of the integer, its quotient by [1e9] too, and the sum of the
    two parts of a duration, which have the same sign, is not a
    not-a-number. *)

Lemma shr_1_nonneg mrs : 0 <= shr_m mrs -> 0 <= shr_m (shr_1 mrs).
Proof.
  destruct mrs as [m r s]. simpl.
  destruct m as [|[p|p|]|[p|p|]]; simpl; lia.
Qed.

Lemma iter_pos_shr_1_nonneg p mrs :
  0 <= shr_m mrs -> 0 <= shr_m (SpecFloat.iter_pos shr_1 p mrs).
Proof.
  revert mrs. induction p as [p IH|p IH|]; intros mrs H; simpl.
  - apply IH, IH, shr_1_nonneg, H.
  - apply IH, IH, H.
  - apply shr_1_nonneg, H.
Qed.

Lemma shr_fexp_nonneg prec emax m e l :
  0 <= m -> 0 <= shr_m (fst (shr_fexp prec emax m e l)).
Proof.
  intros Hm. unfold shr_fexp, shr.
  assert (H0 : 0 <= shr_m (shr_record_of_loc m l)).
  { destruct l as [|[]]; simpl; exact Hm. }
  destruct (_ - e); simpl; try exact H0.
  apply iter_pos_shr_1_nonneg, H0.
Qed.

Lemma round_nearest_even_nonneg m l : 0 <= m -> 0 <= round_nearest_even m l.
Proof.
  intros Hm. unfold round_nearest_even.
  destruct l as [|[]]; try lia. destruct (Z.even m); lia.
Qed.

Lemma binary_round_aux_sign prec emax sx mx ex lx :
  0 <= mx -> of_sign sx (binary_round_aux prec emax sx mx ex lx).
Proof.
  intros Hm. unfold binary_round_aux.
  assert (H1 := shr_fexp_nonneg prec emax mx ex lx Hm).
  destruct (shr_fexp prec emax mx ex lx) as [mrs' e']. simpl in H1.
  assert (H2 := shr_fexp_nonneg prec emax _ e' loc_Exact
                  (round_nearest_even_nonneg _ (loc_of_shr_record mrs') H1)).
  destruct (shr_fexp prec emax _ e' loc_Exact) as [mrs'' e'']. simpl in H2.
  destruct (shr_m mrs'') as [|p|p]; simpl; try exact I; try lia.
  destruct (e'' <=? _); reflexivity.
Qed.

Lemma binary_round_sign prec emax sx mx ex :
  of_sign sx (binary_round prec emax sx mx ex).
Proof.
  unfold binary_round. destruct (shl_align _ _ _) as [mz ez].
  apply binary_round_aux_sign. lia.
Qed.

Lemma binary_normalize_sign prec emax m e szero :
  (0 <= m -> of_sign false (binary_normalize prec emax m e szero)) /\
  (m <= 0 -> of_sign true (binary_normalize prec emax m e szero)).
Proof.
  destruct m as [|p|p]; simpl; split; intros H; try exact I; try lia;
    apply binary_round_sign.
Qed.

Lemma of_sign_not_nan s f : of_sign s f -> f <> S754_nan.
Proof. destruct f; simpl; congruence. Qed.

Lemma binary_normalize_not_nan prec emax m e szero :
  binary_normalize prec emax m e szero <> S754_nan.
Proof.
  destruct (binary_normalize_sign prec emax m e szero) as [H1 H2].
  destruct (Z.le_ge_cases 0 m) as [H|H];
    [ eapply of_sign_not_nan, H1, H | eapply of_sign_not_nan, H2, H ].
Qed.

Lemma of_uint63_sign i : of_sign false (Prim2SF (of_uint63 i)).
Proof.
  rewrite of_uint63_spec. apply binary_normalize_sign.
  apply Uint63.to_Z_bounded.
Qed.

Lemma SFopp_sign s f : of_sign s f -> of_sign (negb s) (SFopp f).
Proof. destruct f; simpl; intros; subst; auto. Qed.

Lemma float64_of_int_sign n :
  (0 <= n -> of_sign false (Prim2SF (float64_of_int n))) /\
  (n <= 0 -> of_sign true (Prim2SF (float64_of_int n))).
Proof.
  unfold float64_of_int.
  destruct (n =? - 2 ^ 63) eqn:E1.
  { apply Z.eqb_eq in E1. split; intros H; [ lia | ]. vm_compute. reflexivity. }
  destruct (n <? 0) eqn:E2.
  - apply Z.ltb_lt in E2. split; intros H; [ lia | ].
    rewrite FloatAxioms.opp_spec. apply (SFopp_sign false), of_uint63_sign.
  - apply Z.ltb_ge in E2. split; intros H; [ apply of_uint63_sign | ].
    assert (n = 0) as -> by lia. vm_compute. exact I.
Qed.

Lemma SFdiv_sign s x m e :
  of_sign s x -> of_sign s (SFdiv prec emax x (S754_finite false m e)).
Proof.
  destruct x as [sx|sx| |sx mx ex]; simpl; intros H; try exact I; try contradiction.
  - subst. destruct s; reflexivity.
  - subst sx.
    destruct (SFdiv_core_binary prec emax (Z.pos mx) ex (Z.pos m) e) as [[mz ez] lz] eqn:E.
    replace (xorb s false) with s by (destruct s; reflexivity).
    apply binary_round_aux_sign.
    unfold SFdiv_core_binary in E.
    match type of E with
    | (let '(q, r) := Z.div_eucl ?a ?b in _) = _ =>
        assert (Hq : 0 <= a / b);
        [ | unfold Z.div in Hq; destruct (Z.div_eucl a b) as [q r'];
            injection E as <- _ _; exact Hq ]
    end.
    apply Z.div_pos; [ | lia ].
    destruct (_ - _ - _) as [|p|p]; try lia.
    apply Z.shiftl_nonneg. lia.
Qed.

Lemma SFadd_same_sign s x y :
  of_sign s x -> of_sign s y -> SFadd prec emax x y <> S754_nan.
Proof.
  destruct x as [sx|sx| |sx mx ex], y as [sy|sy| |sy my ey]; simpl;
    intros Hx Hy; try contradiction; subst; try congruence.
  - destruct sx, sy; congruence.
  - destruct s; congruence.
  - apply binary_normalize_not_nan.
Qed.

Lemma Seconds_number d : is_nan (Seconds d) = false.
Proof.
  destruct (is_nan (Seconds d)) eqn:E; [ exfalso | reflexivity ].
  revert E. unfold is_nan. rewrite Bool.negb_true_iff.
  rewrite FloatAxioms.eqb_spec. unfold Seconds.
  rewrite FloatAxioms.add_spec, FloatAxioms.div_spec.
  assert (H9 : exists m e, Prim2SF 1e9 = S754_finite false m e)
    by (vm_compute; eauto).
  destruct H9 as (m9 & e9 & ->).
  assert (Hs : exists s, of_sign s (Prim2SF (float64_of_int (d ÷ Second))) /\
                         of_sign s (Prim2SF (float64_of_int (Z.rem d Second)))).
  { destruct (Z.le_ge_cases 0 d) as [H|H].
    - exists false. split; apply float64_of_int_sign.
      + apply Z.quot_pos; unfold Second; lia.
      + apply Z.rem_nonneg; unfold Second; lia.
    - exists true. split; apply float64_of_int_sign.
      + assert (0 <= (- d) ÷ Second) by (apply Z.quot_pos; unfold Second; lia).
        rewrite Z.quot_opp_l in H0 by (unfold Second; lia). lia.
      + assert (0 <= Z.rem (- d) Second) by (apply Z.rem_nonneg; unfold Second; lia).
        rewrite Z.rem_opp_l in H0 by (unfold Second; lia). lia. }
  destruct Hs as (s & H1 & H2).
  apply (SFdiv_sign s _ m9 e9) in H2.
  assert (Hn := SFadd_same_sign s _ _ H1 H2).
  unfold SF64add, SF64div.
  destruct (SFadd prec emax _ _) as [[]|[]| |[] m e]; simpl; try congruence;
    unfold SFeqb; simpl; rewrite ?Z.compare_refl, ?Pos.compare_cont_refl; discriminate.
Qed.

(** ** [Duration.Seconds] is not the negative zero

    The rounding of a mantissa that is not zero keeps a bit of it as long as
    the exponent is not below the least one; so the conversion of an integer
    is a zero for the integer zero only, and that zero is the positive one;
    and a sum of two values is the negative zero only when both are. *)

Lemma digits2_pos_le p : 2 ^ (Z.pos (digits2_pos p) - 1) <= Z.pos p.
Proof.
  induction p as [p IH|p IH|]; cbn [digits2_pos]; rewrite ?Pos2Z.inj_succ.
  - replace (Z.succ (Z.pos (digits2_pos p)) - 1) with (Z.succ (Z.pos (digits2_pos p) - 1)) by lia.
    rewrite Z.pow_succ_r by lia. lia.
  - replace (Z.succ (Z.pos (digits2_pos p)) - 1) with (Z.succ (Z.pos (digits2_pos p) - 1)) by lia.
    rewrite Z.pow_succ_r by lia. lia.
  - simpl. lia.
Qed.

Lemma shr_1_pow k mrs :
  1 <= k -> 2 ^ k <= shr_m mrs -> 2 ^ (k - 1) <= shr_m (shr_1 mrs).
Proof.
  intros Hk Hm.
  replace k with (Z.succ (k - 1)) in Hm by lia.
  rewrite Z.pow_succ_r in Hm by lia.
  assert (0 < 2 ^ (k - 1)) by (apply Z.pow_pos_nonneg; lia).
  destruct mrs as [m r s]. cbn [shr_m] in Hm. simpl.
  destruct m as [|[p|p|]|[p|p|]]; cbn [shr_m]; lia.
Qed.

Lemma iter_pos_shr_1_pow p k mrs :
  Z.pos p <= k -> 2 ^ k <= shr_m mrs ->
  2 ^ (k - Z.pos p) <= shr_m (SpecFloat.iter_pos shr_1 p mrs).
Proof.
  revert k mrs. induction p as [p IH|p IH|]; intros k mrs Hk Hm; cbn [SpecFloat.iter_pos].
  - replace (k - Z.pos p~1) with (k - 1 - Z.pos p - Z.pos p) by lia.
    apply IH; [ lia | ]. apply IH; [ lia | ]. apply shr_1_pow; [ lia | exact Hm ].
  - replace (k - Z.pos p~0) with (k - Z.pos p - Z.pos p) by lia.
    apply IH; [ lia | ]. apply IH; [ lia | exact Hm ].
  - apply shr_1_pow; [ lia | exact Hm ].
Qed.

Lemma shr_fexp_pos prec emax m e l :
  1 <= prec -> 1 <= m -> SpecFloat.emin prec emax <= e ->
  1 <= shr_m (fst (shr_fexp prec emax m e l)) /\
  SpecFloat.emin prec emax <= snd (shr_fexp prec emax m e l).
Proof.
  intros Hprec Hm He. unfold shr_fexp, shr.
  assert (H0 : shr_m (shr_record_of_loc m l) = m) by (destruct l as [|[]]; reflexivity).
  destruct m as [|p|p]; try lia. cbn [Zdigits2].
  assert (Hd := digits2_pos_le p).
  set (D := Z.pos (digits2_pos p)) in *.
  destruct (SpecFloat.fexp prec emax (D + e) - e) as [|q|q] eqn:En; cbn [fst snd];
    try (rewrite H0; lia).
  assert (Hq : Z.pos q <= D - 1) by (unfold SpecFloat.fexp, SpecFloat.emin in *; lia).
  split; [ | lia ].
  assert (Hp := iter_pos_shr_1_pow q (D - 1) (shr_record_of_loc (Z.pos p) l) Hq
                  ltac:(rewrite H0; exact Hd)).
  assert (0 < 2 ^ (D - 1 - Z.pos q)) by (apply Z.pow_pos_nonneg; lia).
  lia.
Qed.

Lemma round_nearest_even_le m l : m <= round_nearest_even m l.
Proof.
  unfold round_nearest_even. destruct l as [|[]]; try lia. destruct (Z.even m); lia.
Qed.

(** The rounding of a mantissa that is not zero, at an exponent that is
    not below the least one, is not a zero. *)
Lemma binary_round_aux_nonzero prec emax sx mx ex lx :
  1 <= prec -> 1 <= mx -> SpecFloat.emin prec emax <= ex ->
  forall s, binary_round_aux prec emax sx mx ex lx <> S754_zero s.
Proof.
  intros Hprec Hm He s. unfold binary_round_aux.
  destruct (shr_fexp_pos prec emax mx ex lx Hprec Hm He) as [H1 H1'].
  destruct (shr_fexp prec emax mx ex lx) as [mrs' e']. cbn [fst snd] in H1, H1'.
  assert (Hr := round_nearest_even_le (shr_m mrs') (loc_of_shr_record mrs')).
  destruct (shr_fexp_pos prec emax _ e' loc_Exact Hprec
              ltac:(etransitivity; [ exact H1 | exact Hr ]) H1') as [H2 _].
  destruct (shr_fexp prec emax _ e' loc_Exact) as [mrs'' e'']. cbn [fst] in H2.
  destruct (shr_m mrs'') as [|p|p]; try lia.
  destruct (e'' <=? _); discriminate.
Qed.

Lemma binary_round_nonzero prec emax sx mx ex :
  1 <= prec -> SpecFloat.emin prec emax <= ex ->
  forall s, binary_round prec emax sx mx ex <> S754_zero s.
Proof.
  intros Hprec He s. unfold binary_round.
  destruct (shl_align mx ex _) as [mz ez] eqn:Ea.
  apply binary_round_aux_nonzero; [ exact Hprec | lia | ].
  unfold shl_align in Ea.
  destruct (SpecFloat.fexp prec emax (Z.pos (digits2_pos mx) + ex) - ex) as [|d|d] eqn:Ed;
    injection Ea as <- <-; try exact He.
  unfold SpecFloat.fexp, SpecFloat.emin. lia.
Qed.

Lemma emin_binary64 : SpecFloat.emin prec emax <= 0.
Proof. vm_compute. discriminate. Qed.

Lemma valid_binary_emin s m e :
  valid_binary (S754_finite s m e) = true -> SpecFloat.emin prec emax <= e.
Proof.
  unfold valid_binary, SpecFloat.valid_binary, bounded, canonical_mantissa.
  rewrite andb_true_iff, Z.eqb_eq. intros [Hc _].
  unfold SpecFloat.fexp in Hc. lia.
Qed.

Lemma of_uint63_nonzero n :
  0 < n < 2 ^ 63 -> forall s, Prim2SF (of_uint63 (Uint63.of_Z n)) <> S754_zero s.
Proof.
  intros Hn s. rewrite of_uint63_spec, Uint63.of_Z_spec.
  change wB with (2 ^ 63). rewrite Z.mod_small by lia.
  destruct n as [|p|p]; try lia. cbn [binary_normalize].
  apply binary_round_nonzero; [ vm_compute; discriminate | apply emin_binary64 ].
Qed.

(** The conversion of an integer of 64 bits is not the negative zero, and
    is a zero for the integer zero only. *)
Lemma float64_of_int_not_neg_zero n :
  - 2 ^ 63 <= n < 2 ^ 63 -> Prim2SF (float64_of_int n) <> S754_zero true.
Proof.
  intros Hn. unfold float64_of_int.
  destruct (n =? - 2 ^ 63) eqn:E1; [ vm_compute; discriminate | ].
  apply Z.eqb_neq in E1.
  destruct (n <? 0) eqn:E2.
  - apply Z.ltb_lt in E2. rewrite FloatAxioms.opp_spec.
    assert (H := of_uint63_nonzero (- n) ltac:(lia) false).
    destruct (Prim2SF (of_uint63 (Uint63.of_Z (- n)))) as [[]| | |]; simpl;
      congruence.
  - apply Z.ltb_ge in E2. destruct (Z.eq_dec n 0) as [->|Hz].
    + vm_compute. discriminate.
    + apply of_uint63_nonzero. lia.
Qed.

(** A sum is the negative zero only when both terms are. *)
Lemma SFadd_not_neg_zero x y :
  x <> S754_zero true -> valid_binary x = true -> valid_binary y = true ->
  SFadd prec emax x y <> S754_zero true.
Proof.
  intros Hx Vx Vy.
  destruct x as [[]|sx| |sx mx ex], y as [[]|sy| |sy my ey]; cbn [SFadd];
    try congruence; try (destruct sx; congruence); try (destruct sx, sy; congruence).
  apply valid_binary_emin in Vx, Vy.
  destruct (_ + _) as [|p|p]; cbn [binary_normalize]; try discriminate;
    apply binary_round_nonzero; try (vm_compute; discriminate); lia.
Qed.

Lemma Seconds_not_neg_zero d :
  - 2 ^ 63 <= d < 2 ^ 63 -> Prim2SF (Seconds d) <> S754_zero true.
Proof.
  intros Hd. unfold Seconds. rewrite FloatAxioms.add_spec.
  apply SFadd_not_neg_zero; try apply FloatAxioms.Prim2SF_valid.
  apply float64_of_int_not_neg_zero.
  assert (Hq := Z.quot_rem' d Second).
  destruct (Z.le_ge_cases 0 d) as [H|H].
  - assert (0 <= d ÷ Second) by (apply Z.quot_pos; unfold Second; lia).
    assert (0 <= Z.rem d Second < Second)
      by (apply Z.rem_bound_pos; unfold Second; lia).
    unfold Second in *. lia.
  - assert (0 <= (- d) ÷ Second) by (apply Z.quot_pos; unfold Second; lia).
    rewrite Z.quot_opp_l in H0 by (unfold Second; lia).
    assert (- Second < Z.rem d Second <= 0)
      by (apply Z.rem_bound_pos_neg; unfold Second; lia).
    unfold Second in *. lia.
Qed.

(** ** [sort.Float64s] *)

Lemma sort_insert_perm x l : sort_insert x l ≡ₚ x :: l.
Proof.
  induction l as [|y l IH]; simpl; [ reflexivity | ].
  destruct (float64_less y x); [ | reflexivity ].
  rewrite IH. apply Permutation_swap.
Qed.

Lemma sort_Float64s_perm l : sort_Float64s l ≡ₚ l.
Proof.
  induction l as [|x l IH]; simpl; [ reflexivity | ].
  rewrite sort_insert_perm, IH. reflexivity.
Qed.

Lemma sort_Float64s_length l : length (sort_Float64s l) = length l.
Proof. apply Permutation_length, sort_Float64s_perm. Qed.

Lemma sort_insert_sorted x l :
  StronglySorted float64_le l -> StronglySorted float64_le (sort_insert x l).
Proof.
  induction 1 as [|y l Hs IH Hy]; simpl.
  - constructor; constructor.
  - destruct (float64_less y x) eqn:E.
    + constructor; [ exact IH | ].
      rewrite sort_insert_perm. constructor; [ | exact Hy ].
      apply float64_less_asym, E.
    + constructor; [ constructor; assumption | ].
      constructor; [ exact E | ].
      eapply Forall_impl; [ exact Hy | ].
      intros z Hz. eapply float64_le_trans; [ exact E | exact Hz ].
Qed.

Lemma sort_Float64s_sorted l : StronglySorted float64_le (sort_Float64s l).
Proof.
  induction l as [|x l IH]; simpl; [ constructor | ].
  apply sort_insert_sorted, IH.
Qed.

(** Two sorted permutations of a list without ties are the same list: on
    such a list every sort gives what [sort_Float64s] gives. *)
Lemma sorted_perm_unique l l1 l2 :
  tie_free l -> l1 ≡ₚ l -> l2 ≡ₚ l ->
  StronglySorted float64_le l1 -> StronglySorted float64_le l2 -> l1 = l2.
Proof.
  intros Ht H1 H2 Hs1. revert l l2 Ht H1 H2.
  induction Hs1 as [|x l1 Hs1 IH Hx]; intros l l2 Ht H1 H2 Hs2.
  - rewrite <- H1 in H2. apply Permutation_nil_r in H2. congruence.
  - destruct Hs2 as [|y l2 Hs2 Hy].
    { rewrite <- H1 in H2. apply Permutation_nil_cons in H2.
      contradiction. }
    assert (Hperm : x :: l1 ≡ₚ y :: l2) by (rewrite H1, H2; reflexivity).
    assert (Hxy : x = y).
    { assert (Hxin : x ∈ y :: l2) by (rewrite <- Hperm; left).
      assert (Hyin : y ∈ x :: l1) by (rewrite Hperm; left).
      apply elem_of_cons in Hxin as [Hxin|Hxin]; [ exact Hxin | ].
      apply elem_of_cons in Hyin as [Hyin|Hyin]; [ symmetry; exact Hyin | ].
      rewrite Forall_forall in Hx, Hy.
      assert (Hxl : x ∈ l) by (rewrite <- H1; left).
      assert (Hyl : y ∈ l) by (rewrite <- H2; left).
      unfold tie_free in Ht. rewrite Forall_forall in Ht.
      assert (Htx := Ht x Hxl). rewrite Forall_forall in Htx.
      apply (Htx y Hyl); [ apply (Hy x Hxin) | apply (Hx y Hyin) ]. }
    subst y. f_equal. apply Permutation_cons_inv in Hperm.
    apply (IH l1 l2); [ | reflexivity | symmetry; exact Hperm | exact Hs2 ].
    unfold tie_free in *. rewrite Forall_forall in Ht |- *.
    intros a Ha. assert (Ha' : a ∈ l) by (rewrite <- H1; right; exact Ha).
    specialize (Ht a Ha'). rewrite Forall_forall in Ht |- *.
    intros b Hb. apply Ht. rewrite <- H1. right. exact Hb.
Qed.

Lemma sort_Float64s_unique l l' :
  tie_free l -> l' ≡ₚ l -> StronglySorted float64_le l' -> l' = sort_Float64s l.
Proof.
  intros Ht Hp Hs.
  apply (sorted_perm_unique l); auto using sort_Float64s_perm, sort_Float64s_sorted.
Qed.

(** Numbers none of which is the negative zero are in neither order only
    when they are the same. *)
Lemma numbers_tie_free l :
  numbers l -> Forall (fun x => Prim2SF x <> S754_zero true) l -> tie_free l.
Proof.
  intros Hn Hz. unfold tie_free, numbers in *. rewrite Forall_forall in Hn, Hz |- *.
  intros x Hx. rewrite Forall_forall. intros y Hy.
  assert (Hnx := Hn x Hx). assert (Hny := Hn y Hy).
  assert (Hzx := Hz x Hx). assert (Hzy := Hz y Hy).
  unfold float64_less. rewrite Hnx, Hny. cbn [andb negb]. rewrite !orb_false_r.
  apply is_nan_false in Hnx, Hny.
  rewrite !FloatAxioms.ltb_spec. unfold SFltb. intros H1 H2.
  apply FloatAxioms.Prim2SF_inj. revert Hnx Hny Hzx Hzy H1 H2.
  destruct (Prim2SF x) as [[]|[]| |[] m1 e1], (Prim2SF y) as [[]|[]| |[] m2 e2];
    cbn [SFcompare]; intros; try congruence; cmp_cases; try congruence; try lia.
Qed.

Lemma sort_Float64s_numbers l : numbers l -> numbers (sort_Float64s l).
Proof. unfold numbers. rewrite sort_Float64s_perm. trivial. Qed.

(** Among numbers the sorted list is increasing for [<=]. *)
Lemma sorted_numbers_leb l :
  numbers l -> StronglySorted float64_le l ->
  StronglySorted (fun x y => (x <=? y)%float = true) l.
Proof.
  intros Hn Hs. induction Hs as [|x l Hs IH Hx]; [ constructor | ].
  apply Forall_cons in Hn as [Hnx Hn].
  constructor; [ apply IH, Hn | ].
  eapply Forall_impl; [ exact Hx | ].
  intros y Hy. apply float64_le_numbers; assumption.
Qed.

(** Every sample of an increasing list of numbers is at most the last one. *)
Lemma sorted_le_last l slowest :
  numbers l -> StronglySorted (fun x y => (x <=? y)%float = true) l ->
  last l = Some slowest ->
  Forall (fun x => (x <=? slowest)%float = true) l.
Proof.
  intros Hn Hs. revert slowest.
  induction Hs as [|x l Hs IH Hx]; intros slowest Hlast; [ constructor | ].
  apply Forall_cons in Hn as [Hnx Hn].
  destruct l as [|y l'].
  - simpl in Hlast. injection Hlast as <-.
    constructor; [ apply leb_refl, Hnx | constructor ].
  - rewrite last_cons_cons in Hlast.
    assert (Hall := IH Hn _ Hlast).
    constructor; [ | exact Hall ].
    apply Forall_cons in Hx as [Hxy _].
    apply Forall_cons in Hall as [Hys _].
    eapply leb_trans; eassumption.
Qed.

(** ** The percentiles: [printLatencies] *)

Lemma wrap64_small z : - 2 ^ 63 <= z < 2 ^ 63 -> wrap64 z = z.
Proof. intros Hz. unfold wrap64. rewrite Z.mod_small; lia. Qed.

Lemma NoDup_pctls : NoDup pctls.
Proof. apply (bool_decide_unpack (NoDup pctls)). vm_compute. exact I. Qed.

(** The lines printed are those of the targets whose value is positive. *)
Lemma pctl_lines_elem ps data p d :
  pctl_line p d ∈ pctl_lines ps data <->
  exists k : nat, ps !! k = Some p /\ data !! k = Some d /\ (0 <? d)%float = true.
Proof.
  revert data. induction ps as [|q ps IH]; intros data; simpl.
  - split; [ intros H; inversion H | intros (k & Hk & _); discriminate ].
  - destruct data as [|e data].
    + split; [ intros H; inversion H | ].
      intros (k & _ & Hk & _). discriminate.
    + destruct (0 <? e)%float eqn:He.
      * rewrite elem_of_cons, IH. split.
        -- intros [Heq | (k & Hp & Hd & Hpos)].
           ++ injection Heq as -> ->. exists 0%nat. auto.
           ++ exists (S k). auto.
        -- intros ([|k] & Hp & Hd & Hpos); simplify_eq/=.
           ++ left. reflexivity.
           ++ right. exists k. auto.
      * rewrite IH. split.
        -- intros (k & Hp & Hd & Hpos). exists (S k). auto.
        -- intros ([|k] & Hp & Hd & Hpos); simplify_eq/=; [ congruence | eauto ].
Qed.

Lemma printLatencies_elem r p d :
  pctl_line p d ∈ printLatencies r <->
  exists k : nat, pctls !! k = Some p /\ pctl_data (Lats r) !! k = Some d
                  /\ (0 <? d)%float = true.
Proof.
  unfold printLatencies. rewrite elem_of_cons, pctl_lines_elem.
  split; [ intros [Heq | H]; [ discriminate Heq | exact H ] | auto ].
Qed.

(** Below a hundred samples the rank [current] stays under 99. *)
Lemma pctl_current_small n i : 0 <= i < n -> n < 100 -> pctl_current n i <= 98.
Proof.
  intros Hi Hn. unfold pctl_current.
  rewrite wrap64_small by lia.
  rewrite Z.quot_div_nonneg by lia.
  assert (i * 100 / n < 99); [ | lia ].
  apply Z.div_lt_upper_bound; lia.
Qed.

Lemma pctl_loop_length n rest i j data :
  length (pctl_loop n rest i j data) = length data.
Proof.
  revert i j data. induction rest as [|x rest IH]; intros i j data; simpl; [ reflexivity | ].
  destruct (pctls !! j); [ | reflexivity ].
  destruct (_ <=? _); rewrite IH; [ apply length_insert | reflexivity ].
Qed.

Lemma pctl_loop_last n rest i (j : nat) data :
  0 <= i -> i + Z.of_nat (length rest) <= n -> n < 100 ->
  (j <= 6)%nat -> data !! 6%nat = Some 0%float ->
  pctl_loop n rest i j data !! 6%nat = Some 0%float.
Proof.
  revert i j data. induction rest as [|x rest IH]; intros i j data Hi Hn Hlt Hj Hd;
    simpl; [ exact Hd | ].
  simpl in Hn.
  destruct (pctls !! j) as [p|] eqn:Hp; [ | exact Hd ].
  assert (Hc := pctl_current_small n i ltac:(lia) Hlt).
  destruct (p <=? pctl_current n i) eqn:Hle.
  - apply Z.leb_le in Hle.
    assert (j <> 6%nat).
    { intros ->. injection Hp as <-. lia. }
    apply IH; try lia.
    rewrite list_lookup_insert_ne by assumption. exact Hd.
  - apply IH; try lia. exact Hd.
Qed.

(** C1, as stated: on the latencies 0.1 to 0.5 the value recorded for the
    50th percentile (the target of index 2) would be 0.3.  It is not. *)
Lemma C1_fiftieth_is_not_0_3 :
  pctls !! 2%nat = Some 50 /\
  pctl_data scenario_lats !! 2%nat <> Some 0.3%float.
Proof.
  split; [ reflexivity | ]. intros H.
  apply (f_equal (fun o => match o with
                           | Some x => (x =? 0.3)%float
                           | None => false
                           end)) in H.
  vm_compute in H. discriminate H.
Qed.

(** C1, amended: on the latencies 0.1 to 0.5 (N = 5) the pass records, for
    the 50th percentile, the sample of index 3, which is 0.4: the ranks
    [current] are 0, 20, 40, 60 and 80, and 60 is the first to reach 50 once
    10 and 25 have taken the indices 1 and 2.  The five requests of the
    scenario give these latencies, and the line printed for 50% shows 0.4. *)
Theorem C1_fiftieth_is_0_4 :
  let r := aggregate (newReport 5 scenario_queue "") Second in
  Lats r = scenario_lats /\
  map (pctl_current 5) [0; 1; 2; 3; 4] = [0; 20; 40; 60; 80] /\
  pctls !! 2%nat = Some 50 /\
  scenario_lats !! 3%nat = Some 0.4%float /\
  pctl_data scenario_lats !! 2%nat = Some 0.4%float /\
  printLatencies r =
    [ Printf "\nLatency distribution:\n" [];
      pctl_line 10 0.2; pctl_line 25 0.3; pctl_line 50 0.4; pctl_line 75 0.5 ].
Proof. vm_compute. repeat split; reflexivity. Qed.

(** C8: a target whose recorded value is exactly 0 has no line in the latency
    distribution, as a target that was never recorded (whose value is the 0
    the array starts with): the line of a target is printed exactly when its
    value is strictly positive. *)
Theorem C8_zero_percentile_omitted (r : Report) (k : nat) (p : Z) (d : float) :
  pctls !! k = Some p ->
  pctl_data (Lats r) !! k = Some d ->
  (pctl_line p d ∈ printLatencies r <-> (0 <? d)%float = true) /\
  (d = 0%float -> forall d', pctl_line p d' ∉ printLatencies r) /\
  ((0 <? d)%float = false -> forall d', pctl_line p d' ∉ printLatencies r).
Proof.
  intros Hp Hd.
  assert (Hno : (0 <? d)%float = false ->
                forall d', pctl_line p d' ∉ printLatencies r).
  { intros Hz d' Hin. apply printLatencies_elem in Hin as (k' & Hp' & Hd' & Hpos).
    assert (k' = k) as -> by (eapply NoDup_lookup; eauto using NoDup_pctls).
    congruence. }
  split; [ | split ].
  - rewrite printLatencies_elem. split.
    + intros (k' & Hp' & Hd' & Hpos). exact Hpos.
    + intros Hpos. exists k. auto.
  - intros ->. apply Hno. reflexivity.
  - exact Hno.
Qed.

(** Two samples of zero seconds: 0 is recorded for the 10th percentile, and
    what is printed is what is printed for no sample at all. *)
Lemma C8_zero_percentile_omitted_witness :
  let r := set_Lats [0; 0]%float (newReport 0 [] "") in
  (forall d', pctl_line 10 d' ∉ printLatencies r) /\
  printLatencies r = printLatencies (newReport 0 [] "").
Proof.
  split; [ | reflexivity ].
  apply (C8_zero_percentile_omitted
           (set_Lats [0; 0]%float (newReport 0 [] "")) 0%nat 10 0%float);
    reflexivity.
Defined.

(** C9: with fewer than 100 samples (1 <= N < 100) the rank [current] never
    exceeds 98, so that nothing is recorded for the 99th percentile and the
    latency distribution has no line for 99%. *)
Theorem C9_no_99th_below_100 (r : Report) :
  (1 <= length (Lats r) < 100)%nat ->
  (forall i, 0 <= i < Z.of_nat (length (Lats r)) ->
             pctl_current (Z.of_nat (length (Lats r))) i <= 98) /\
  pctls !! 6%nat = Some 99 /\
  pctl_data (Lats r) !! 6%nat = Some 0%float /\
  forall d, pctl_line 99 d ∉ printLatencies r.
Proof.
  intros Hn.
  assert (Hd : pctl_data (Lats r) !! 6%nat = Some 0%float).
  { unfold pctl_data. apply pctl_loop_last; try lia; reflexivity. }
  split; [ | split; [ reflexivity | split; [ exact Hd | ] ] ].
  - intros i Hi. apply pctl_current_small; lia.
  - intros d Hin. apply printLatencies_elem in Hin as (k & Hp & Hd' & Hpos).
    assert (k = 6%nat) as ->
      by (eapply NoDup_lookup; [ apply NoDup_pctls | exact Hp | reflexivity ]).
    rewrite Hd in Hd'. injection Hd' as <-. discriminate Hpos.
Qed.

Lemma C9_no_99th_below_100_witness :
  pctl_data scenario_lats !! 6%nat = Some 0%float /\
  pctl_line 99 0.5 ∉ printLatencies (set_Lats scenario_lats (newReport 5 [] "")).
Proof.
  destruct (C9_no_99th_below_100 (set_Lats scenario_lats (newReport 5 [] "")))
    as (_ & _ & Hd & Hno).
  - simpl. lia.
  - split; [ exact Hd | apply Hno ].
Defined.

(** ** The collector *)

Lemma sum_counts_empty {K : Type} `{Countable K} :
  sum_counts (∅ : gmap K Z) = 0.
Proof. unfold sum_counts. apply map_fold_empty. Qed.

Lemma sum_counts_insert {K : Type} `{Countable K} (m : gmap K Z) k v :
  m !! k = None -> sum_counts (<[k := v]> m) = v + sum_counts m.
Proof.
  intros Hk. unfold sum_counts.
  rewrite map_fold_insert_L; [ reflexivity | intros; lia | exact Hk ].
Qed.

Lemma sum_counts_delete {K : Type} `{Countable K} (m : gmap K Z) k v :
  m !! k = Some v -> sum_counts m = v + sum_counts (delete k m).
Proof.
  intros Hk. unfold sum_counts.
  rewrite (map_fold_delete_L _ _ k v m); [ reflexivity | intros; lia | exact Hk ].
Qed.

Lemma sum_counts_nonneg {K : Type} `{Countable K} (m : gmap K Z) :
  counters m -> 0 <= sum_counts m.
Proof.
  unfold counters. induction m as [|k v m Hk IH] using map_ind.
  - intros _. unfold sum_counts. rewrite map_fold_empty. lia.
  - intros Hall. apply map_Forall_insert in Hall as [Hv Hall]; [ | exact Hk ].
    rewrite sum_counts_insert by exact Hk. specialize (IH Hall). lia.
Qed.

Lemma counters_incr {K : Type} `{Countable K} (m : gmap K Z) k :
  counters m -> sum_counts m + 1 < 2 ^ 63 ->
  counters (incr k m) /\ sum_counts (incr k m) = sum_counts m + 1.
Proof.
  intros Hall Hlt. assert (Hs := sum_counts_nonneg m Hall).
  unfold incr. destruct (m !! k) as [v|] eqn:Hk; simpl.
  - assert (Hv : 0 <= v) by exact (Hall k v Hk).
    assert (Hd : 0 <= sum_counts (delete k m)).
    { apply sum_counts_nonneg. intros j w Hj.
      apply lookup_delete_Some in Hj as [_ Hj]. exact (Hall j w Hj). }
    assert (Hsum := sum_counts_delete m k v Hk).
    rewrite wrap64_small by lia. split.
    + apply map_Forall_insert_2; [ lia | exact Hall ].
    + rewrite <- insert_delete_eq.
      rewrite sum_counts_insert by apply lookup_delete_eq. lia.
  - rewrite wrap64_small by lia. split.
    + apply map_Forall_insert_2; [ lia | exact Hall ].
    + rewrite sum_counts_insert by exact Hk. lia.
Qed.

Lemma count_cons p res l :
  count p (res :: l) = ((if p res then 1 else 0) + count p l)%nat.
Proof.
  unfold count. rewrite filter_cons.
  destruct (p res); destruct (decide _); simpl; congruence.
Qed.

(** A result is a success, a result of another status, or an error. *)
Lemma count_partition l :
  length l = (count is_success l + count is_other_status l + count has_error l)%nat.
Proof.
  induction l as [|res l IH]; [ reflexivity | ].
  rewrite !count_cons. simpl. rewrite IH.
  unfold is_success, is_other_status, has_error.
  destruct (no_error res); simpl;
    destruct ((200 <=? statusCode res) && (statusCode res <? 300)); simpl; lia.
Qed.

Lemma count_no_error l :
  count no_error l = (count is_success l + count is_other_status l)%nat.
Proof.
  induction l as [|res l IH]; [ reflexivity | ].
  rewrite !count_cons, IH. unfold is_success, is_other_status.
  destruct (no_error res); simpl;
    destruct ((200 <=? statusCode res) && (statusCode res <? 300)); simpl; lia.
Qed.

(** The latencies after the drain: those there were, then the durations of
    the results without an error, in the order of their arrival. *)
Lemma drain_Lats queue r c :
  Lats (drain queue (r, c)).1 =
  Lats r ++ map (fun res => Seconds (duration res))
                (filter (fun res => no_error res = true) queue).
Proof.
  revert r c. induction queue as [|res queue IH]; intros r c; simpl.
  - rewrite app_nil_r. reflexivity.
  - rewrite filter_cons. destruct res as [[e|] sc d cl];
      destruct (decide _) as [Hd|Hd]; try discriminate Hd;
      try (exfalso; apply Hd; reflexivity);
      unfold collect; cbn [err]; rewrite IH; cbn [Lats duration map].
    + reflexivity.
    + rewrite <- app_assoc. reflexivity.
Qed.

(** One receive, as long as no counter can overflow. *)
Lemma collect_counts res r c :
  counters (Errors r) -> sum_counts (Errors r) + 1 < 2 ^ 63 ->
  0 <= c -> c + 1 < 2 ^ 63 ->
  counters (Errors (collect res (r, c)).1) /\
  sum_counts (Errors (collect res (r, c)).1) =
    sum_counts (Errors r) + (if has_error res then 1 else 0) /\
  (collect res (r, c)).2 = c + (if is_success res then 1 else 0).
Proof.
  intros Hall Hsum Hc Hlt.
  destruct res as [[e|] sc d cl]; unfold collect, has_error, is_success, no_error;
    cbn [err statusCode fst snd Errors negb andb].
  - destruct (counters_incr (Errors r) e Hall Hsum) as [Hall' Hsum'].
    repeat split; [ exact Hall' | exact Hsum' | lia ].
  - repeat split; [ exact Hall | lia | ].
    destruct ((200 <=? sc) && (sc <? 300)); [ apply wrap64_small | ]; lia.
Qed.

(** The counters after the drain, as long as no counter can overflow. *)
Lemma drain_counts queue r c :
  counters (Errors r) ->
  sum_counts (Errors r) + Z.of_nat (length queue) < 2 ^ 63 ->
  0 <= c -> c + Z.of_nat (length queue) < 2 ^ 63 ->
  counters (Errors (drain queue (r, c)).1) /\
  sum_counts (Errors (drain queue (r, c)).1) =
    sum_counts (Errors r) + Z.of_nat (count has_error queue) /\
  (drain queue (r, c)).2 = c + Z.of_nat (count is_success queue).
Proof.
  revert r c. induction queue as [|res queue IH]; intros r c Hall Hsum Hc Hlt.
  - simpl. unfold count. simpl. repeat split; [ exact Hall | lia | lia ].
  - cbn [drain]. rewrite !count_cons. cbn [length] in Hsum, Hlt.
    destruct (collect_counts res r c Hall ltac:(lia) Hc ltac:(lia))
      as (Hall1 & Hsum1 & Hc1).
    destruct (collect res (r, c)) as [r1 c1]. cbn [fst snd] in *.
    assert (Hb1 : (if has_error res then 1 else 0) <= 1) by (destruct (has_error res); lia).
    assert (Hb2 : 0 <= (if is_success res then 1 else 0) <= 1)
      by (destruct (is_success res); lia).
    destruct (IH r1 c1 Hall1 ltac:(lia) ltac:(lia) ltac:(lia)) as (H1 & H2 & H3).
    split; [ exact H1 | ]. rewrite H2, H3, Hsum1, Hc1.
    destruct (has_error res), (is_success res); lia.
Qed.

Lemma newReport_counters size queue output :
  counters (Errors (newReport size queue output)) /\
  sum_counts (Errors (newReport size queue output)) = 0.
Proof.
  split; [ apply map_Forall_empty | apply map_fold_empty ].
Qed.

(** C2, as stated: [successCnt] plus the sum of the error counts would be the
    number of results.  One result without an error and with the status 404
    is counted in neither. *)
Lemma C2_status_404_is_in_no_count :
  let st := drained (newReport 1 [Result None 404 0 0] "") in
  st.2 + sum_counts (Errors st.1) <> Z.of_nat (length [Result None 404 0 0]).
Proof. vm_compute. discriminate. Qed.

(** C2, amended: [successCnt] (the results without an error whose status is
    in [200,300)) plus the sum of the error counts plus the number of results
    without an error whose status is outside [200,300) is the number of
    results processed; the sum of the error counts is the number of results
    with an error.  The queue holds fewer than [2^63] results, as every Go
    channel does. *)
Theorem C2_counts_add_up (queue : list result) (output : string) :
  Z.of_nat (length queue) < 2 ^ 63 ->
  let st := drained (newReport (Z.of_nat (length queue)) queue output) in
  st.2 = Z.of_nat (count is_success queue) /\
  sum_counts (Errors st.1) = Z.of_nat (count has_error queue) /\
  st.2 + sum_counts (Errors st.1) + Z.of_nat (count is_other_status queue)
    = Z.of_nat (length queue).
Proof.
  intros Hlen st.
  destruct (newReport_counters (Z.of_nat (length queue)) queue output) as [Hall Hsum].
  destruct (drain_counts queue _ 0 Hall ltac:(rewrite Hsum; lia) ltac:(lia) ltac:(lia))
    as (_ & H2 & H3).
  rewrite Hsum in H2. subst st. unfold drained. cbn [results newReport].
  rewrite H2, H3, (count_partition queue). split; [ | split ]; lia.
Qed.

Lemma C2_counts_add_up_witness :
  let queue := [Result None 200 50000000 100; Result None 404 0 0;
                Result (Some "timeout") 0 0 0] in
  let st := drained (newReport 3 queue "") in
  st.2 + sum_counts (Errors st.1) + Z.of_nat (count is_other_status queue) = 3.
Proof.
  apply (C2_counts_add_up
           [Result None 200 50000000 100; Result None 404 0 0;
            Result (Some "timeout") 0 0 0] "").
  vm_compute. reflexivity.
Defined.

(** ** [print] and the latencies *)

Lemma printDetails_Lats ord r r' out :
  printDetails ord r = Returns (r', out) -> Lats r' = Lats r.
Proof.
  unfold printDetails.
  destruct (head (Lats r)) as [fastest|]; [ | intros [= <- _]; reflexivity ].
  destruct (last (Lats r)) as [slowest|]; [ | intros [= <- _]; reflexivity ].
  destruct (decide _); [ intros [= <- _]; reflexivity | ].
  destruct (printHistogram _); simpl; [ | discriminate | discriminate ].
  intros [= <- _]. reflexivity.
Qed.

(** When [print] returns, the latencies of the report are the sorted ones. *)
Lemma print_Lats ord r r' out :
  print ord r = Returns (r', out) -> Lats r' = sort_Float64s (Lats r).
Proof.
  unfold print. destruct (decide _); [ intros [= <- _]; reflexivity | ].
  destruct (printDetails _ _) as [[r1 out1]| |] eqn:E; simpl;
    [ | discriminate | discriminate ].
  apply printDetails_Lats in E.
  destruct (0 <? size (Errors r1))%nat; intros [= <- _]; exact E.
Qed.

Lemma aggregate_Lats r total :
  Lats (aggregate r total) = Lats (drained r).1.
Proof. unfold aggregate, close. destruct (drained r). reflexivity. Qed.

(** C7: after the drain the latencies are as many as the results that carry
    no error, whatever the order of arrival: a queue and any permutation of
    it give that same length, and the sort of [print] keeps it. *)
Theorem C7_latencies_length (queue queue' : list result) (output : string)
    (total : Z) :
  queue ≡ₚ queue' ->
  let r := aggregate (newReport (Z.of_nat (length queue)) queue output) total in
  let r' := aggregate (newReport (Z.of_nat (length queue')) queue' output) total in
  length (Lats r) = count no_error queue /\
  length (Lats r') = count no_error queue /\
  forall ord r'' out, print ord r = Returns (r'', out) ->
                      length (Lats r'') = count no_error queue.
Proof.
  intros Hperm r r'.
  assert (Hlen : forall q size,
            length (Lats (aggregate (newReport size q output) total))
            = count no_error q).
  { intros q size. rewrite aggregate_Lats. unfold drained. cbn [results newReport].
    rewrite drain_Lats. cbn [Lats]. rewrite app_nil_l, length_map. reflexivity. }
  split; [ apply Hlen | split ].
  - subst r'. rewrite Hlen. unfold count. rewrite Hperm. reflexivity.
  - intros ord r'' out Hp. apply print_Lats in Hp.
    rewrite Hp, sort_Float64s_length. apply Hlen.
Qed.

Lemma C7_latencies_length_witness :
  let queue := [Result None 200 50000000 100; Result (Some "timeout") 0 0 0;
                Result None 404 0 0] in
  let queue' := [Result (Some "timeout") 0 0 0; Result None 404 0 0;
                 Result None 200 50000000 100] in
  length (Lats (aggregate (newReport 3 queue "") Second)) = 2%nat /\
  length (Lats (aggregate (newReport 3 queue' "") Second)) = 2%nat.
Proof.
  destruct (C7_latencies_length
              [Result None 200 50000000 100; Result (Some "timeout") 0 0 0;
               Result None 404 0 0]
              [Result (Some "timeout") 0 0 0; Result None 404 0 0;
               Result None 200 50000000 100] "" Second) as (H1 & H2 & _).
  - apply Permutation_cons_append.
  - split; [ exact H1 | exact H2 ].
Defined.

(** ** The CSV output *)

Lemma printCSV_from_imap k lats :
  printCSV_from k lats =
  imap (fun i val => Printf "%v,%4.4f\n" [VInt (k + Z.of_nat i + 1); VFloat val]) lats.
Proof.
  revert k. induction lats as [|x lats IH]; intros k; [ reflexivity | ].
  cbn [printCSV_from]. rewrite imap_cons, IH. f_equal.
  - rewrite Z.add_0_r. reflexivity.
  - apply imap_ext. intros i y _. simpl. do 3 f_equal. lia.
Qed.

Lemma printCSV_imap r : printCSV r = imap csv_line (Lats r).
Proof. unfold printCSV. rewrite printCSV_from_imap. reflexivity. Qed.

(** C4: in CSV mode [print] writes one line per latency sample and nothing
    else (no header): the line of rank [i+1] is the index [i+1] and, under the
    format [%4.4f], the sample of rank [i+1] in increasing order, that is the
    element of index [i] of the sorted permutation of the samples that
    [sort.Float64s] has left.  Where two different samples are in neither
    order the sort may leave them either way; where there are none the sorted
    permutation is the only one. *)
Theorem C4_csv_lines (ord : map_order) (r : Report) :
  output r = "csv" ->
  exists sorted,
    sorted ≡ₚ Lats r /\
    StronglySorted float64_le sorted /\
    print ord r = Returns (set_Lats sorted r, imap csv_line sorted) /\
    length (imap csv_line sorted) = length (Lats r) /\
    (forall (i : nat) (x : float),
       sorted !! i = Some x ->
       imap csv_line sorted !! i
       = Some (Printf "%v,%4.4f\n" [VInt (Z.of_nat i + 1); VFloat x])) /\
    (tie_free (Lats r) ->
     forall l, l ≡ₚ Lats r -> StronglySorted float64_le l -> l = sorted).
Proof.
  intros Hcsv. exists (sort_Float64s (Lats r)).
  split; [ | split; [ | split; [ | split; [ | split ] ] ] ].
  - apply sort_Float64s_perm.
  - apply sort_Float64s_sorted.
  - unfold print. cbn [output set_Lats].
    destruct (decide _) as [_|Hn]; [ | contradiction ].
    rewrite printCSV_imap. reflexivity.
  - rewrite length_imap. apply sort_Float64s_length.
  - intros i x Hx. rewrite list_lookup_imap, Hx. reflexivity.
  - intros Ht l Hl Hs. apply sort_Float64s_unique; assumption.
Qed.

Lemma C4_csv_lines_witness :
  exists sorted,
    sorted ≡ₚ [0.3; 0; 0.1; -0; 0.2]%float /\
    print key_order (set_Lats [0.3; 0; 0.1; -0; 0.2]%float (newReport 5 [] "csv"))
    = Returns (set_Lats sorted (newReport 5 [] "csv"), imap csv_line sorted).
Proof.
  destruct (C4_csv_lines key_order
              (set_Lats [0.3; 0; 0.1; -0; 0.2]%float (newReport 5 [] "csv")) eq_refl)
    as (sorted & Hperm & _ & Hprint & _).
  exists sorted. split; [ exact Hperm | exact Hprint ].
Defined.

(** ** The error distribution *)

Lemma printErrors_lines ord r :
  printErrors ord r =
  Printf "\nError distribution:\n" [] :: map error_line (range_errors ord (Errors r)).
Proof.
  unfold printErrors. f_equal. apply map_ext. intros [e n]. reflexivity.
Qed.

Lemma set_Lats_same r : set_Lats (Lats r) r = r.
Proof. destruct r. reflexivity. Qed.

Lemma error_line_inj : Inj (=) (=) error_line.
Proof. intros [e n] [e' n']. unfold error_line. simpl. congruence. Qed.

(** C6: in the default mode, with no latency sample and at least one error,
    [print] writes the error distribution and nothing else (no summary, no
    status codes, no histogram, no percentiles): its header, then one line
    [[count] description] for each description of the map, each once. *)
Theorem C6_only_errors (ord : map_order) (r : Report) :
  fair_order ord ->
  output r = "" -> Lats r = [] -> Errors r <> ∅ ->
  let lines := map error_line (range_errors ord (Errors r)) in
  print ord r = Returns (r, Printf "\nError distribution:\n" [] :: lines) /\
  length lines = size (Errors r) /\
  NoDup (map fst (range_errors ord (Errors r))) /\
  forall e n,
    Printf "  [%d]\t%s\n" [VInt n; VString e] ∈ lines <-> Errors r !! e = Some n.
Proof.
  intros [_ Hfair] Hout Hlats Hne lines.
  split; [ | split; [ | split ] ].
  - unfold print. rewrite Hlats. cbn [sort_Float64s foldr].
    rewrite <- Hlats, set_Lats_same, Hout.
    destruct (decide _) as [Hd|_]; [ discriminate Hd | ].
    unfold printDetails. rewrite Hlats. cbn [head mbind outcome_bind bind].
    apply map_size_non_empty_iff in Hne.
    destruct (0 <? size (Errors r))%nat eqn:E;
      [ | apply Nat.ltb_ge in E; lia ].
    rewrite printErrors_lines. reflexivity.
  - subst lines. rewrite length_map, (Hfair (Errors r)).
    apply length_map_to_list.
  - rewrite (Hfair (Errors r)). apply NoDup_fst_map_to_list.
  - intros e n. subst lines.
    change (Printf "  [%d]\t%s\n" [VInt n; VString e]) with (error_line (e, n)).
    change (map error_line ?l) with (error_line <$> l).
    rewrite (list_elem_of_fmap_inj error_line (Inj0 := error_line_inj)).
    rewrite (Hfair (Errors r)). apply elem_of_map_to_list.
Qed.

Lemma C6_only_errors_witness :
  let r := aggregate (newReport 3 [Result (Some "timeout") 0 0 0;
                                   Result (Some "refused") 0 0 0;
                                   Result (Some "timeout") 0 0 0] "") Second in
  print key_order r
  = Returns (r, [ Printf "\nError distribution:\n" [];
                  Printf "  [%d]\t%s\n" [VInt 1; VString "refused"];
                  Printf "  [%d]\t%s\n" [VInt 2; VString "timeout"] ]).
Proof.
  apply (C6_only_errors key_order
           (aggregate (newReport 3 [Result (Some "timeout") 0 0 0;
                                    Result (Some "refused") 0 0 0;
                                    Result (Some "timeout") 0 0 0] "") Second)).
  - split; intros m; reflexivity.
  - reflexivity.
  - reflexivity.
  - intros H. apply (f_equal size) in H. vm_compute in H. discriminate H.
Defined.

(** ** A run of zero duration *)

Lemma Seconds_zero : Seconds 0 = 0%float.
Proof. reflexivity. Qed.

(** A quotient by [0.0] is an infinity or a not-a-number. *)
Lemma div_zero_degenerate x :
  is_nan (x / 0)%float = true \/ is_infinity (x / 0)%float = true.
Proof.
  unfold is_infinity. rewrite is_nan_spec, FloatAxioms.eqb_spec, FloatAxioms.abs_spec,
    FloatAxioms.div_spec.
  change (Prim2SF 0) with (S754_zero false).
  change (Prim2SF infinity) with (S754_infinity false).
  destruct (Prim2SF x) as [[]|[]| |[] m e]; simpl; auto.
Qed.

Lemma aggregate_rates r total :
  RPS (aggregate r total)
  = (float64_of_int (Z.of_nat (length (Lats (aggregate r total)))) / Seconds total)%float /\
  SuccessRPS (aggregate r total)
  = (float64_of_int (drained r).2 / Seconds total)%float.
Proof. unfold aggregate, close. destruct (drained r). split; reflexivity. Qed.

(** The block under [if len(r.Lats) > 0], when there is a latency. *)
Lemma printDetails_cons ord r x l :
  Lats r = x :: l ->
  exists slowest,
    last (Lats r) = Some slowest /\
    printDetails ord r =
      let r1 := set_extremes x slowest r in
      if decide (output r1 = "quiet") then Returns (r1, [])
      else hist ← printHistogram r1;
           Returns (r1, printSummary r1 ++ printStatusCodes ord r1 ++ hist
                        ++ printLatencies r1).
Proof.
  intros Hl. destruct (last (Lats r)) as [slowest|] eqn:El.
  - exists slowest. split; [ reflexivity | ].
    unfold printDetails. rewrite El, Hl. reflexivity.
  - apply last_None in El. congruence.
Qed.

Lemma sort_Float64s_nil l : sort_Float64s l = [] -> l = [].
Proof.
  intros H. apply (f_equal length) in H. rewrite sort_Float64s_length in H.
  destruct l; [ reflexivity | discriminate H ].
Qed.

(** The summary is written whenever there is a latency and the mode is
    neither [csv] nor [quiet]. *)
Lemma print_summary ord r r' out :
  print ord r = Returns (r', out) ->
  output r <> "csv" -> output r <> "quiet" -> Lats r <> [] ->
  Printf "  Requests/sec:\t%4.4f\n" [VFloat (RPS r)] ∈ out.
Proof.
  unfold print. cbn [output set_Lats]. intros Hp Hcsv Hquiet Hl.
  destruct (decide _) as [Hd|_]; [ contradiction | ].
  destruct (sort_Float64s (Lats r)) as [|x l] eqn:Es;
    [ apply sort_Float64s_nil in Es; contradiction | ].
  destruct (printDetails_cons ord (set_Lats (x :: l) r) x l eq_refl)
    as (slowest & _ & Hd).
  rewrite Hd in Hp. cbv zeta in Hp. cbn [output set_extremes set_Lats] in Hp.
  destruct (decide _) as [Hq|_]; [ contradiction | ].
  destruct (printHistogram _) as [hist| |]; cbn [mbind outcome_bind bind] in Hp;
    try discriminate Hp.
  assert (Hin : forall tl, Printf "  Requests/sec:\t%4.4f\n" [VFloat (RPS r)]
                ∈ printSummary (set_extremes x slowest (set_Lats (x :: l) r)) ++ tl).
  { intros tl. apply elem_of_app. left. unfold printSummary. cbn [RPS set_extremes set_Lats].
    apply elem_of_app. left. do 5 apply list_elem_of_further. apply list_elem_of_here. }
  destruct (0 <? size _)%nat;
    match type of Hp with
    | Returns (_, ?o) = _ =>
        assert (Ho : o = out) by (injection Hp; intros H _; exact H);
        rewrite <- Ho
    end.
  - apply elem_of_app. left. apply Hin.
  - apply Hin.
Qed.

(** C5, as stated: with a total duration of zero the rates would be reported
    as zero or left out.  For one request answered in 0.05 seconds, [RPS] and
    [SuccessRPS] are both the infinity, and the line of the requests per
    second is written with it. *)
Lemma C5_zero_total_gives_infinity :
  let r := aggregate (newReport 1 [Result None 200 50000000 100] "") 0 in
  RPS r = infinity /\ SuccessRPS r = infinity /\
  exists r' out, print key_order r = Returns (r', out) /\
    nth 5 out (Printf "" []) = Printf "  Requests/sec:\t%4.4f\n" [VFloat infinity].
Proof.
  vm_compute. split; [ reflexivity | split; [ reflexivity | ] ].
  eexists _, _. split; reflexivity.
Qed.

(** C5, amended: with a total duration of zero, [RPS] and [SuccessRPS] are
    the quotients by [0.0] of the number of latencies and of [successCnt],
    with no guard: each is an infinity or a not-a-number, never zero; and in
    a mode that writes the summary, with at least one latency, the line of
    the requests per second is written with that value. *)
Theorem C5_zero_total_is_degenerate (r : Report) :
  let r0 := aggregate r 0 in
  RPS r0 = (float64_of_int (Z.of_nat (length (Lats r0))) / 0)%float /\
  SuccessRPS r0 = (float64_of_int (drained r).2 / 0)%float /\
  (is_nan (RPS r0) = true \/ is_infinity (RPS r0) = true) /\
  (is_nan (SuccessRPS r0) = true \/ is_infinity (SuccessRPS r0) = true) /\
  forall ord r' out,
    print ord r0 = Returns (r', out) ->
    output r0 <> "csv" -> output r0 <> "quiet" -> Lats r0 <> [] ->
    Printf "  Requests/sec:\t%4.4f\n" [VFloat (RPS r0)] ∈ out.
Proof.
  intros r0. destruct (aggregate_rates r 0) as [H1 H2]. fold r0 in H1, H2.
  rewrite Seconds_zero in H1, H2.
  split; [ exact H1 | split; [ exact H2 | ] ].
  split; [ rewrite H1; apply div_zero_degenerate | ].
  split; [ rewrite H2; apply div_zero_degenerate | ].
  intros ord r' out Hp Hcsv Hquiet Hl.
  eapply print_summary; eassumption.
Qed.

(** ** The histogram *)

Lemma sumZ_replicate n : sumZ (replicate n 0) = 0.
Proof. induction n as [|n IH]; [ reflexivity | exact IH ]. Qed.

Lemma sumZ_cons x l : sumZ (x :: l) = x + sumZ l.
Proof. reflexivity. Qed.

Lemma sumZ_insert l (k : nat) c v :
  l !! k = Some c -> sumZ (<[k := v]> l) = sumZ l - c + v.
Proof.
  revert k. induction l as [|x l IH]; intros [|k] Hk; try discriminate Hk.
  - injection Hk as ->.
    change (sumZ (<[0%nat := v]> (c :: l))) with (v + sumZ l).
    rewrite sumZ_cons. lia.
  - change (sumZ (<[S k := v]> (x :: l))) with (x + sumZ (<[k := v]> l)).
    rewrite sumZ_cons, (IH k Hk). lia.
Qed.

Lemma sumZ_nonneg l : Forall (fun c => 0 <= c) l -> 0 <= sumZ l.
Proof. induction 1; [ simpl | rewrite sumZ_cons ]; lia. Qed.

Lemma sumZ_lookup_le l (k : nat) c :
  Forall (fun c => 0 <= c) l -> l !! k = Some c -> 0 <= c <= sumZ l.
Proof.
  intros Hall. revert k. induction Hall as [|x l Hx Hall IH]; intros [|k] Hk;
    try discriminate Hk; rewrite sumZ_cons.
  - injection Hk as ->. apply sumZ_nonneg in Hall. lia.
  - specialize (IH k Hk). lia.
Qed.

Lemma foldl_insert_length {A : Type} (f : nat -> A) (idxs : list nat) (l : list A) :
  length (foldl (fun b i => <[i := f i]> b) l idxs) = length l.
Proof.
  revert l. induction idxs as [|i idxs IH]; intros l; simpl; [ reflexivity | ].
  rewrite IH. apply length_insert.
Qed.

(** There are eleven bucket edges and the last one is [Slowest]. *)
Lemma hist_buckets_length r : length (hist_buckets r) = 11%nat.
Proof.
  unfold hist_buckets. cbv zeta.
  rewrite length_insert, foldl_insert_length. reflexivity.
Qed.

Lemma hist_buckets_last r : hist_buckets r !! 10%nat = Some (Slowest r).
Proof.
  unfold hist_buckets. cbv zeta.
  apply list_lookup_insert_eq.
  rewrite foldl_insert_length, length_replicate. unfold bc. lia.
Qed.

Lemma hist_init_inv lats r : hist_inv lats (hist_buckets r) hist_init.
Proof.
  unfold hist_inv, hist_init. rewrite hist_buckets_length. cbn [h_i h_bi h_counts].
  split; [ lia | split; [ lia | split; [ reflexivity | split ] ] ].
  - apply Forall_replicate. lia.
  - apply sumZ_replicate.
Qed.

(** One evaluation of the loop keeps what holds of its variables, and adds
    one to [i] or to [bi]. *)
Lemma hist_step_next lats buckets s s' :
  Z.of_nat (length lats) < 2 ^ 63 ->
  hist_inv lats buckets s ->
  hist_step lats buckets s = HNext s' ->
  hist_inv lats buckets s' /\
  ((h_i s' = S (h_i s) /\ h_bi s' = h_bi s) \/
   (h_i s' = h_i s /\ h_bi s' = S (h_bi s))).
Proof.
  intros Hlen (Hi & Hbi & Hc & Hall & Hsum). unfold hist_step.
  destruct (lats !! h_i s) as [x|] eqn:Hx; [ | discriminate ].
  assert (Hlt := lookup_lt_Some _ _ _ Hx).
  destruct (buckets !! h_bi s) as [b|]; [ | discriminate ].
  destruct (h_counts s !! h_bi s) as [c|] eqn:Hcb; [ | discriminate ].
  destruct (sumZ_lookup_le _ _ _ Hall Hcb) as [Hc0 Hcs].
  destruct (x <=? b)%float.
  - intros [= <-]. cbn [h_i h_bi h_counts h_max]. split; [ | left; auto ].
    rewrite wrap64_small by lia.
    unfold hist_inv. cbn [h_i h_bi h_counts h_max].
    rewrite length_insert, (sumZ_insert _ _ c) by exact Hcb.
    repeat split; try assumption; try lia.
    apply Forall_insert; [ exact Hall | lia ].
  - destruct (h_bi s <? length buckets - 1)%nat eqn:Hb; [ | discriminate ].
    apply Nat.ltb_lt in Hb.
    intros [= <-]. cbn [h_i h_bi h_counts h_max]. split; [ | right; auto ].
    unfold hist_inv. cbn [h_i h_bi h_counts h_max].
    repeat split; try assumption; lia.
Qed.

(** When no sample exceeds the last edge, an evaluation of the loop leaves
    it or runs the body with an effect. *)
Lemma hist_step_progress lats buckets slowest s :
  buckets !! (length buckets - 1)%nat = Some slowest ->
  Forall (fun x => (x <=? slowest)%float = true) lats ->
  hist_inv lats buckets s ->
  (hist_step lats buckets s = HExit /\ h_i s = length lats) \/
  exists s', hist_step lats buckets s = HNext s'.
Proof.
  intros Hlast Hle (Hi & Hbi & Hc & Hall & Hsum). unfold hist_step.
  destruct (lats !! h_i s) as [x|] eqn:Hx.
  - right.
    destruct (lookup_lt_is_Some_2 buckets (h_bi s) Hbi) as [b Hb].
    destruct (lookup_lt_is_Some_2 (h_counts s) (h_bi s) ltac:(lia)) as [c Hcb].
    rewrite Hb, Hcb.
    destruct (x <=? b)%float eqn:Hxb; [ eauto | ].
    destruct (h_bi s <? length buckets - 1)%nat eqn:Hlt; [ eauto | ].
    apply Nat.ltb_ge in Hlt.
    assert (h_bi s = (length buckets - 1)%nat) as Heq by lia.
    rewrite Heq, Hlast in Hb. injection Hb as <-.
    rewrite Forall_lookup in Hle. rewrite (Hle _ _ Hx) in Hxb. discriminate Hxb.
  - left. apply lookup_ge_None in Hx. split; [ reflexivity | lia ].
Qed.

(** The loop returns once the fuel exceeds what is left of the samples and
    of the edges. *)
Lemma hist_loop_returns lats buckets slowest fuel s :
  Z.of_nat (length lats) < 2 ^ 63 ->
  buckets !! (length buckets - 1)%nat = Some slowest ->
  Forall (fun x => (x <=? slowest)%float = true) lats ->
  hist_inv lats buckets s ->
  ((length lats - h_i s) + (length buckets - 1 - h_bi s) < fuel)%nat ->
  exists s', hist_loop fuel lats buckets s = Returns s' /\
             hist_inv lats buckets s' /\ h_i s' = length lats.
Proof.
  intros Hlen Hlast Hle. revert s.
  induction fuel as [|fuel IH]; intros s Hinv Hfuel; [ lia | ].
  cbn [hist_loop].
  destruct (hist_step_progress _ _ _ _ Hlast Hle Hinv) as [[-> Hi] | [s' Hs']].
  - exists s. auto.
  - rewrite Hs'.
    destruct (hist_step_next _ _ _ _ Hlen Hinv Hs') as [Hinv' Hmove].
    apply IH; [ exact Hinv' | ].
    destruct Hinv as (Hi & Hbi & _), Hinv' as (Hi' & Hbi' & _).
    destruct Hmove as [[E1 E2] | [E1 E2]]; lia.
Qed.

(** An iteration with an effect leaves less. *)
Lemma hist_step_left lats buckets s s' :
  hist_step lats buckets s = HNext s' ->
  (hist_left lats buckets s' < hist_left lats buckets s)%nat.
Proof.
  unfold hist_step, hist_left.
  destruct (lats !! h_i s) as [x|] eqn:Hx; [ | discriminate ].
  assert (Hlt := lookup_lt_Some _ _ _ Hx).
  destruct (buckets !! h_bi s) as [b|]; [ | discriminate ].
  destruct (h_counts s !! h_bi s) as [c|]; [ | discriminate ].
  destruct (x <=? b)%float.
  - intros [= <-]. cbn [h_i h_bi]. lia.
  - destruct (h_bi s <? length buckets - 1)%nat eqn:Hb; [ | discriminate ].
    apply Nat.ltb_lt in Hb. intros [= <-]. cbn [h_i h_bi]. lia.
Qed.

(** With more fuel than is left, the fuel does not matter: the loop is left,
    or panics, or reaches an iteration without effect, before the fuel runs
    out. *)
Lemma hist_loop_fuel_exact lats buckets fuel fuel' s :
  (hist_left lats buckets s < fuel)%nat -> (fuel <= fuel')%nat ->
  hist_loop fuel' lats buckets s = hist_loop fuel lats buckets s.
Proof.
  revert fuel' s. induction fuel as [|fuel IH]; intros fuel' s Hleft Hle; [ lia | ].
  destruct fuel' as [|fuel']; [ lia | ].
  cbn [hist_loop].
  destruct (hist_step lats buckets s) as [|s'| |] eqn:Hs; try reflexivity.
  apply hist_step_left in Hs. apply IH; lia.
Qed.

(** The lines of the buckets, when forty times a count does not overflow. *)
Lemma hist_lines_returns max buckets counts :
  length counts = length buckets ->
  Forall (fun c => 0 <= c /\ c * 40 < 2 ^ 63) counts ->
  exists lines, hist_lines max buckets counts = Returns lines /\
                map printed_count lines = counts.
Proof.
  revert counts. induction buckets as [|b buckets IH]; intros [|c counts] Hlen Hall;
    try discriminate Hlen.
  - exists []. split; reflexivity.
  - apply Forall_cons in Hall as [[Hc0 Hc40] Hall].
    destruct (IH counts ltac:(simpl in Hlen; lia) Hall) as (lines & Hl & Hm).
    cbn [hist_lines]. unfold hist_line, strings_Repeat.
    assert (Hbar : ((if 0 <? max then Z.quot (wrap64 (c * 40)) max else 0) <? 0)
                   = false).
    { apply Z.ltb_ge. destruct (0 <? max) eqn:Hmax; [ | lia ].
      apply Z.ltb_lt in Hmax. rewrite wrap64_small by lia.
      apply Z.quot_pos; lia. }
    rewrite Hbar. cbn [mbind outcome_bind bind]. rewrite Hl.
    eexists. split; [ reflexivity | ]. simpl. rewrite Hm. reflexivity.
Qed.

(** In a report that is ready no sample exceeds [Slowest], the last edge. *)
Lemma ready_le_slowest r :
  ready r -> Forall (fun x => (x <=? Slowest r)%float = true) (Lats r).
Proof.
  intros (Hn & Hs & _ & Hlast).
  apply sorted_le_last; [ exact Hn | apply sorted_numbers_leb; assumption | exact Hlast ].
Qed.

Lemma hist_buckets_last' r :
  hist_buckets r !! (length (hist_buckets r) - 1)%nat = Some (Slowest r).
Proof. rewrite hist_buckets_length. apply hist_buckets_last. Qed.

(** The loop of [printHistogram] on a report that is ready. *)
Lemma hist_loop_ready r :
  ready r -> Z.of_nat (length (Lats r)) < 2 ^ 63 ->
  exists s, hist_loop (hist_fuel (Lats r) (hist_buckets r)) (Lats r)
              (hist_buckets r) hist_init = Returns s /\
            hist_inv (Lats r) (hist_buckets r) s /\ h_i s = length (Lats r).
Proof.
  intros Hr Hlen.
  apply (hist_loop_returns _ _ (Slowest r)); try assumption.
  - apply hist_buckets_last'.
  - apply ready_le_slowest, Hr.
  - apply hist_init_inv.
  - unfold hist_fuel. rewrite hist_buckets_length. cbn [h_i h_bi hist_init]. lia.
Qed.

(** [printHistogram] on a report that is ready: the lines show the counts
    of the loop. *)
Lemma printHistogram_ready r :
  ready r -> 40 * Z.of_nat (length (Lats r)) < 2 ^ 63 ->
  exists s lines,
    hist_loop (hist_fuel (Lats r) (hist_buckets r)) (Lats r) (hist_buckets r)
      hist_init = Returns s /\
    printHistogram r = Returns (Printf "\nResponse time histogram:\n" [] :: lines) /\
    map printed_count lines = h_counts s.
Proof.
  intros Hr Hlen.
  destruct (hist_loop_ready r Hr ltac:(lia)) as (s & Hs & Hinv & Hi).
  destruct Hinv as (_ & _ & Hc & Hall & Hsum).
  destruct (hist_lines_returns (h_max s) (hist_buckets r) (h_counts s) Hc)
    as (lines & Hl & Hm).
  { rewrite Forall_lookup. intros k c Hk.
    destruct (sumZ_lookup_le _ _ _ Hall Hk). lia. }
  exists s, lines. split; [ exact Hs | split; [ | exact Hm ] ].
  unfold printHistogram. cbv zeta.
  rewrite Hs. cbn [mbind outcome_bind bind]. rewrite Hl. reflexivity.
Qed.

(** C3: on a report that is ready (a non-empty list of latencies in
    increasing order, [Fastest] the first and [Slowest] the last; a Go slice
    has fewer than [2^63] elements), the edges are the ten values
    [Fastest + bs*i] and then [Slowest] itself, and the assignment loop
    returns eleven counts that add up to the number of latencies.  When
    forty times that number fits an [int], [printHistogram] returns, and its
    eleven lines show these counts. *)
Theorem C3_histogram_counts_sum (r : Report) :
  ready r -> Z.of_nat (length (Lats r)) < 2 ^ 63 ->
  hist_buckets r =
    map (fun i => (Fastest r + (Slowest r - Fastest r) / 10
                                * float64_of_int (Z.of_nat i))%float) (seq 0 10)
    ++ [Slowest r] /\
  exists s,
    hist_loop (hist_fuel (Lats r) (hist_buckets r)) (Lats r) (hist_buckets r)
      hist_init = Returns s /\
    length (h_counts s) = 11%nat /\
    sumZ (h_counts s) = Z.of_nat (length (Lats r)) /\
    (40 * Z.of_nat (length (Lats r)) < 2 ^ 63 ->
     exists lines,
       printHistogram r
       = Returns (Printf "\nResponse time histogram:\n" [] :: lines) /\
       map printed_count lines = h_counts s /\
       sumZ (map printed_count lines) = Z.of_nat (length (Lats r))).
Proof.
  intros Hr Hlen. split; [ reflexivity | ].
  destruct (hist_loop_ready r Hr Hlen) as (s & Hs & Hinv & Hi).
  destruct Hinv as (_ & _ & Hc & _ & Hsum).
  assert (Hsum' : sumZ (h_counts s) = Z.of_nat (length (Lats r)))
    by (rewrite Hsum, Hi; reflexivity).
  exists s. split; [ exact Hs | split; [ | split; [ exact Hsum' | ] ] ].
  - rewrite Hc. apply hist_buckets_length.
  - intros H40.
    destruct (printHistogram_ready r Hr H40) as (s' & lines & Hs' & Hp & Hm).
    rewrite Hs in Hs'. injection Hs' as <-.
    exists lines. split; [ exact Hp | split; [ exact Hm | ] ].
    rewrite Hm. exact Hsum'.
Qed.

Lemma C3_histogram_counts_sum_witness :
  let r := set_extremes 0.1 0.5 (set_Lats scenario_lats (newReport 5 [] "")) in
  exists s,
    hist_loop (hist_fuel (Lats r) (hist_buckets r)) (Lats r) (hist_buckets r)
      hist_init = Returns s /\
    length (h_counts s) = 11%nat /\
    sumZ (h_counts s) = 5.
Proof.
  destruct (C3_histogram_counts_sum
              (set_extremes 0.1 0.5 (set_Lats scenario_lats (newReport 5 [] ""))))
    as (_ & s & Hs & Hc & Hsum & _).
  - split; [ | split; [ | split ] ]; try reflexivity.
    + repeat constructor.
    + repeat constructor.
  - simpl. lia.
  - exists s. split; [ exact Hs | split; [ exact Hc | exact Hsum ] ].
Defined.

(** C10: on a report that is ready (a non-empty list of latencies in
    increasing order, [Fastest] the first and [Slowest] the last) the
    assignment loop terminates.  No sample exceeds the last edge, which is
    [Slowest]; so every evaluation of the loop either leaves it or adds one
    to [i] with [bi] unchanged (a sample is counted) or adds one to [bi] with
    [i] unchanged, and is never without effect; the loop returns within
    [len(r.Lats) + len(buckets)] evaluations, and with any more fuel returns
    the same, with every sample counted once. *)
Theorem C10_histogram_loop_terminates (r : Report) :
  ready r -> Z.of_nat (length (Lats r)) < 2 ^ 63 ->
  let lats := Lats r in
  let buckets := hist_buckets r in
  Lats r <> [] /\
  buckets !! 10%nat = Some (Slowest r) /\
  Forall (fun x => (x <=? Slowest r)%float = true) lats /\
  (forall s, hist_inv lats buckets s ->
     (hist_step lats buckets s = HExit /\ h_i s = length lats) \/
     exists s', hist_step lats buckets s = HNext s' /\
                hist_inv lats buckets s' /\
                ((h_i s' = S (h_i s) /\ h_bi s' = h_bi s) \/
                 (h_i s' = h_i s /\ h_bi s' = S (h_bi s)))) /\
  exists s,
    (forall fuel, (length lats + length buckets <= fuel)%nat ->
                  hist_loop fuel lats buckets hist_init = Returns s) /\
    h_i s = length lats /\
    sumZ (h_counts s) = Z.of_nat (length lats).
Proof.
  intros Hr Hlen lats buckets.
  assert (Hle := ready_le_slowest r Hr).
  split; [ | split; [ apply hist_buckets_last | split; [ exact Hle | split ] ] ].
  - destruct Hr as (_ & _ & Hh & _). intros E. rewrite E in Hh. discriminate Hh.
  - intros s Hinv.
    destruct (hist_step_progress lats buckets (Slowest r) s
                (hist_buckets_last' r) Hle Hinv) as [H | [s' Hs']];
      [ left; exact H | right ].
    exists s'. split; [ exact Hs' | ].
    apply (hist_step_next lats buckets s s' Hlen Hinv Hs').
  - destruct (hist_loop_ready r Hr Hlen) as (s & Hs & Hinv & Hi).
    exists s. split; [ | split; [ exact Hi | ] ].
    + intros fuel Hfuel. rewrite <- Hs. apply hist_loop_fuel_exact; [ | exact Hfuel ].
      unfold hist_left, hist_fuel. fold buckets. cbn [h_i h_bi hist_init].
      subst buckets. rewrite hist_buckets_length. lia.
    + destruct Hinv as (_ & _ & _ & _ & Hsum). rewrite Hsum, Hi. reflexivity.
Qed.

Lemma C10_histogram_loop_terminates_witness :
  let r := set_extremes 0.1 0.5 (set_Lats scenario_lats (newReport 5 [] "")) in
  exists s,
    (forall fuel, (length (Lats r) + length (hist_buckets r) <= fuel)%nat ->
                  hist_loop fuel (Lats r) (hist_buckets r) hist_init = Returns s) /\
    h_i s = 5%nat /\
    sumZ (h_counts s) = 5.
Proof.
  apply (C10_histogram_loop_terminates
           (set_extremes 0.1 0.5 (set_Lats scenario_lats (newReport 5 [] "")))).
  - split; [ | split; [ | split ] ]; try reflexivity.
    + repeat constructor.
    + repeat constructor.
  - simpl. lia.
Defined.

(** ** Every run returns *)

(** The latencies that the collector adds are numbers. *)
Lemma aggregate_numbers r total :
  numbers (Lats r) -> numbers (Lats (aggregate r total)).
Proof.
  intros Hn. rewrite aggregate_Lats. unfold drained. rewrite drain_Lats.
  apply Forall_app. split; [ exact Hn | ]. apply Forall_map, Forall_forall.
  intros res _. apply Seconds_number.
Qed.

Lemma aggregate_length r total :
  (length (Lats (aggregate r total)) <= length (Lats r) + length (results r))%nat.
Proof.
  rewrite aggregate_Lats. unfold drained. rewrite drain_Lats.
  rewrite length_app, length_map. apply Nat.add_le_mono_l, length_filter.
Qed.

(** [print] hands to [printHistogram] a report that is ready. *)
Lemma print_ready r x l slowest :
  numbers (Lats r) -> sort_Float64s (Lats r) = x :: l ->
  last (x :: l) = Some slowest ->
  ready (set_extremes x slowest (set_Lats (x :: l) r)).
Proof.
  intros Hn Hs Hl. unfold ready. cbn [Lats Fastest Slowest set_extremes set_Lats].
  rewrite <- Hs. split; [ | split; [ | split ] ].
  - apply sort_Float64s_numbers, Hn.
  - apply sort_Float64s_sorted.
  - rewrite Hs. reflexivity.
  - rewrite Hs. exact Hl.
Qed.

(** [print] returns on every report whose latencies are numbers. *)
Lemma print_returns ord r :
  numbers (Lats r) -> 40 * Z.of_nat (length (Lats r)) < 2 ^ 63 ->
  exists r' out, print ord r = Returns (r', out).
Proof.
  intros Hn Hlen. unfold print. destruct (decide _); [ eauto | ].
  assert (Hd : exists r1 out1,
             printDetails ord (set_Lats (sort_Float64s (Lats r)) r) = Returns (r1, out1)).
  { destruct (sort_Float64s (Lats r)) as [|x l] eqn:Es.
    - unfold printDetails. cbn [Lats set_Lats head]. eauto.
    - destruct (printDetails_cons ord (set_Lats (x :: l) r) x l eq_refl)
        as (slowest & Hl & ->).
      cbv zeta. destruct (decide _); [ eauto | ].
      destruct (printHistogram_ready (set_extremes x slowest (set_Lats (x :: l) r)))
        as (s & lines & _ & -> & _).
      + apply print_ready; assumption.
      + cbn [Lats set_extremes set_Lats]. rewrite <- Es, sort_Float64s_length. exact Hlen.
      + cbn [mbind outcome_bind bind]. eauto. }
  destruct Hd as (r1 & out1 & ->). cbn [mbind outcome_bind bind].
  destruct (0 <? size (Errors r1))%nat; eauto.
Qed.

(** A run of the package returns: the histogram loop is left, and
    [strings.Repeat] gets no negative count. *)
Lemma report_of_returns ord queue output total :
  40 * Z.of_nat (length queue) < 2 ^ 63 ->
  exists r out, report_of ord queue output total = Returns (r, out).
Proof.
  intros Hlen. unfold report_of, finalize. apply print_returns.
  - apply aggregate_numbers. constructor.
  - assert (H := aggregate_length (newReport (Z.of_nat (length queue)) queue output) total).
    cbn [Lats results newReport length] in H. lia.
Qed.

(** On a not-a-number, which no duration gives, the loop of [printHistogram]
    is not left: no edge is at least the sample and the last iteration
    changes nothing. *)
Remark printHistogram_nan_hangs :
  printHistogram (set_extremes nan nan (set_Lats [nan] (newReport 1 [] ""))) = Hangs.
Proof. vm_compute. reflexivity. Qed.

(** ** The tallies of the collector *)

Lemma incr_lookup {K : Type} `{Countable K} (k k' : K) (m : gmap K Z) :
  incr k m !! k' =
  if decide (k = k') then Some (wrap64 (default 0 (m !! k) + 1)) else m !! k'.
Proof. unfold incr. apply lookup_insert. Qed.

(** One more for the key [k], the other keys untouched. *)
Lemma incr_tally {K : Type} `{Countable K} (k k' : K) (m : gmap K Z) :
  0 <= default 0 (m !! k') -> default 0 (m !! k') + 1 < 2 ^ 63 ->
  default 0 (incr k m !! k')
  = default 0 (m !! k') + (if decide (k = k') then 1 else 0) /\
  (is_Some (incr k m !! k') <-> is_Some (m !! k') \/ k = k').
Proof.
  intros H0 Hlt. rewrite incr_lookup. destruct (decide (k = k')) as [->|Hne].
  - cbn [default]. rewrite wrap64_small by lia. split; [ reflexivity | ].
    split; [ auto | intros _; eauto ].
  - split; [ lia | ]. split; [ auto | intros [Hs | Heq]; [ exact Hs | contradiction ] ].
Qed.

(** What one receive adds to the tally of one error and of one status
    code. *)
Lemma collect_tally res r c e code :
  0 <= default 0 (Errors r !! e) ->
  default 0 (Errors r !! e) + 1 < 2 ^ 63 ->
  0 <= default 0 (StatusCodeDist r !! code) ->
  default 0 (StatusCodeDist r !! code) + 1 < 2 ^ 63 ->
  let r' := (collect res (r, c)).1 in
  (default 0 (Errors r' !! e)
   = default 0 (Errors r !! e) + (if with_error e res then 1 else 0) /\
   (is_Some (Errors r' !! e)
    <-> is_Some (Errors r !! e) \/ with_error e res = true)) /\
  (default 0 (StatusCodeDist r' !! code)
   = default 0 (StatusCodeDist r !! code) + (if with_status code res then 1 else 0) /\
   (is_Some (StatusCodeDist r' !! code)
    <-> is_Some (StatusCodeDist r !! code) \/ with_status code res = true)).
Proof.
  intros He0 He Hc0 Hc.
  destruct res as [[e'|] sc d cl]; unfold collect, with_error, with_status, no_error;
    cbn [err statusCode andb fst Errors StatusCodeDist].
  - destruct (incr_tally e' e (Errors r) He0 He) as [Hv Hs].
    rewrite Hv, Hs. split; split.
    + case_decide; case_bool_decide; congruence.
    + rewrite bool_decide_eq_true. split; (intros [?|?]; [ auto | right; congruence ]).
    + lia.
    + split; [ auto | intros [?|?]; [ assumption | discriminate ] ].
  - destruct (incr_tally sc code (StatusCodeDist r) Hc0 Hc) as [Hv Hs].
    rewrite Hv, Hs. split; split.
    + rewrite bool_decide_eq_false_2 by discriminate. lia.
    + rewrite bool_decide_eq_true.
      split; [ auto | intros [?|?]; [ assumption | discriminate ] ].
    + case_decide; destruct (sc =? code) eqn:E; try reflexivity;
        [ apply Z.eqb_neq in E; contradiction | apply Z.eqb_eq in E; contradiction ].
    + rewrite Z.eqb_eq. reflexivity.
Qed.

(** What the drain adds to the tally of one error and of one status code. *)
Lemma drain_tally queue r c e code :
  0 <= default 0 (Errors r !! e) ->
  default 0 (Errors r !! e) + Z.of_nat (length queue) < 2 ^ 63 ->
  0 <= default 0 (StatusCodeDist r !! code) ->
  default 0 (StatusCodeDist r !! code) + Z.of_nat (length queue) < 2 ^ 63 ->
  let r' := (drain queue (r, c)).1 in
  (default 0 (Errors r' !! e)
   = default 0 (Errors r !! e) + Z.of_nat (count (with_error e) queue) /\
   (is_Some (Errors r' !! e)
    <-> is_Some (Errors r !! e) \/ (0 < count (with_error e) queue)%nat)) /\
  (default 0 (StatusCodeDist r' !! code)
   = default 0 (StatusCodeDist r !! code)
     + Z.of_nat (count (with_status code) queue) /\
   (is_Some (StatusCodeDist r' !! code)
    <-> is_Some (StatusCodeDist r !! code)
        \/ (0 < count (with_status code) queue)%nat)).
Proof.
  revert r c. induction queue as [|res queue IH]; intros r c He0 He Hc0 Hc.
  - cbn [drain fst]. unfold count. cbn [filter list_filter length].
    split; (split; [ lia | ]); (split; [ auto | intros [Hs | Hn]; [ exact Hs | lia ] ]).
  - cbn [drain]. rewrite !count_cons. cbn [length] in He, Hc.
    destruct (collect_tally res r c e code He0 ltac:(lia) Hc0 ltac:(lia))
      as [[Hv1 Hs1] [Hv2 Hs2]].
    destruct (collect res (r, c)) as [r1 c1]. cbn [fst] in Hv1, Hs1, Hv2, Hs2.
    assert (Hb1 : 0 <= (if with_error e res then 1 else 0) <= 1)
      by (destruct (with_error e res); lia).
    assert (Hb2 : 0 <= (if with_status code res then 1 else 0) <= 1)
      by (destruct (with_status code res); lia).
    destruct (IH r1 c1 ltac:(lia) ltac:(lia) ltac:(lia) ltac:(lia))
      as [[H1 H2] [H3 H4]].
    split; split.
    + rewrite H1, Hv1. destruct (with_error e res); lia.
    + rewrite H2, Hs1. destruct (with_error e res);
        (split; [ intros [[?|?]|?]; auto; try discriminate; right; lia
                | intros [?|?]; auto; try (right; lia); left; right; reflexivity ]).
    + rewrite H3, Hv2. destruct (with_status code res); lia.
    + rewrite H4, Hs2. destruct (with_status code res);
        (split; [ intros [[?|?]|?]; auto; try discriminate; right; lia
                | intros [?|?]; auto; try (right; lia); left; right; reflexivity ]).
Qed.

(** The entries of the map of the errors after the drain of a new report. *)
Lemma drained_error_tally (queue : list result) (output : string) (e : string) (n : Z) :
  Z.of_nat (length queue) < 2 ^ 63 ->
  Errors (drained (newReport (Z.of_nat (length queue)) queue output)).1 !! e = Some n
  <-> n = Z.of_nat (count (with_error e) queue) /\ 0 < n.
Proof.
  intros Hlen. unfold drained. cbn [results newReport].
  destruct (drain_tally queue (newReport (Z.of_nat (length queue)) queue output) 0 e 0)
    as [[Hv Hs] _]; cbn [Errors StatusCodeDist newReport];
    rewrite ?lookup_empty; simpl; try lia.
  cbn [Errors newReport] in Hv, Hs. rewrite lookup_empty in Hv, Hs. simpl in Hv.
  split.
  - intros Hn. rewrite Hn in Hv, Hs. simpl in Hv.
    destruct Hs as [Hs _]. destruct (Hs ltac:(eauto)) as [[x Hx] | Hpos];
      [ discriminate Hx | lia ].
  - intros [-> Hpos]. destruct Hs as [_ Hs].
    destruct (Hs ltac:(right; lia)) as [v Hv']. rewrite Hv' in Hv |- *.
    simpl in Hv. f_equal. lia.
Qed.

(** X1: after the drain of a new report, the map of the errors holds, for
    each description, the number of results that carry it, and holds no
    entry for a description that no result carries. *)
Theorem X1_error_tally (queue : list result) (output : string) (e : string) (n : Z) :
  Z.of_nat (length queue) < 2 ^ 63 ->
  Errors (drained (newReport (Z.of_nat (length queue)) queue output)).1 !! e = Some n
  <-> n = Z.of_nat (count (with_error e) queue) /\ 0 < n.
Proof. exact (drained_error_tally queue output e n). Qed.

Lemma X1_error_tally_witness :
  Errors (drained (newReport 3 [Result (Some "timeout") 0 0 0;
                                Result None 200 50000000 100;
                                Result (Some "timeout") 0 0 0] "")).1 !! "timeout"
  = Some 2.
Proof.
  apply (X1_error_tally [Result (Some "timeout") 0 0 0;
                         Result None 200 50000000 100;
                         Result (Some "timeout") 0 0 0] "" "timeout" 2).
  - vm_compute. reflexivity.
  - split; [ reflexivity | lia ].
Defined.

(** The entries of the map of the status codes after the drain of a new
    report. *)
Lemma drained_status_tally (queue : list result) (output : string) (code n : Z) :
  Z.of_nat (length queue) < 2 ^ 63 ->
  StatusCodeDist (drained (newReport (Z.of_nat (length queue)) queue output)).1 !! code
    = Some n
  <-> n = Z.of_nat (count (with_status code) queue) /\ 0 < n.
Proof.
  intros Hlen. unfold drained. cbn [results newReport].
  destruct (drain_tally queue (newReport (Z.of_nat (length queue)) queue output) 0 "" code)
    as [_ [Hv Hs]]; cbn [Errors StatusCodeDist newReport];
    rewrite ?lookup_empty; simpl; try lia.
  cbn [StatusCodeDist newReport] in Hv, Hs. rewrite lookup_empty in Hv, Hs.
  simpl in Hv.
  split.
  - intros Hn. rewrite Hn in Hv, Hs. simpl in Hv.
    destruct Hs as [Hs _]. destruct (Hs ltac:(eauto)) as [[x Hx] | Hpos];
      [ discriminate Hx | lia ].
  - intros [-> Hpos]. destruct Hs as [_ Hs].
    destruct (Hs ltac:(right; lia)) as [v Hv']. rewrite Hv' in Hv |- *.
    simpl in Hv. f_equal. lia.
Qed.

(** X2: after the drain of a new report, the map of the status codes holds,
    for each code, the number of results without an error that carry it, and
    holds no entry for a code that none carries; a result with an error adds
    to no code, whatever its status. *)
Theorem X2_status_tally (queue : list result) (output : string) (code n : Z) :
  Z.of_nat (length queue) < 2 ^ 63 ->
  StatusCodeDist (drained (newReport (Z.of_nat (length queue)) queue output)).1 !! code
    = Some n
  <-> n = Z.of_nat (count (with_status code) queue) /\ 0 < n.
Proof. exact (drained_status_tally queue output code n). Qed.

Lemma X2_status_tally_witness :
  StatusCodeDist (drained (newReport 3 [Result None 200 50000000 100;
                                        Result (Some "timeout") 200 0 0;
                                        Result None 404 0 0] "")).1 !! 200
  = Some 1.
Proof.
  apply (X2_status_tally [Result None 200 50000000 100;
                          Result (Some "timeout") 200 0 0;
                          Result None 404 0 0] "" 200 1).
  - vm_compute. reflexivity.
  - split; [ reflexivity | lia ].
Defined.

Lemma drain_status_sum queue r c :
  counters (StatusCodeDist r) ->
  sum_counts (StatusCodeDist r) + Z.of_nat (length queue) < 2 ^ 63 ->
  counters (StatusCodeDist (drain queue (r, c)).1) /\
  sum_counts (StatusCodeDist (drain queue (r, c)).1)
  = sum_counts (StatusCodeDist r) + Z.of_nat (count no_error queue).
Proof.
  revert r c. induction queue as [|res queue IH]; intros r c Hall Hsum.
  - cbn [drain fst]. unfold count. cbn [filter list_filter length]. split; [ exact Hall | lia ].
  - cbn [drain]. rewrite count_cons. cbn [length] in Hsum.
    assert (Hs := sum_counts_nonneg _ Hall).
    destruct res as [[e|] sc d cl]; unfold collect; cbn [err statusCode no_error].
    + destruct (IH (mkReport (AvgTotal r) (Fastest r) (Slowest r) (Average r) (RPS r)
                      (SuccessRPS r) (results r) (Total r) (StatusCodeDist r) (Lats r)
                      (incr e (Errors r)) (SizeTotal r) (output r)) c Hall ltac:(cbn; lia))
        as [H1 H2].
      split; [ exact H1 | rewrite H2; cbn [StatusCodeDist]; lia ].
    + destruct (counters_incr (StatusCodeDist r) sc Hall ltac:(lia)) as [Hall' Hsum'].
      match goal with
      | |- context [drain queue (?r1, ?c1)] =>
          destruct (IH r1 c1 Hall' ltac:(cbn [StatusCodeDist]; lia)) as [H1 H2]
      end.
      split; [ exact H1 | rewrite H2; cbn [StatusCodeDist]; lia ].
Qed.

(** X3: after the drain of a new report the counts of the status codes add
    up to the number of latencies: every result without an error adds one
    latency and one to the count of its code. *)
Theorem X3_status_counts_sum (queue : list result) (output : string) :
  Z.of_nat (length queue) < 2 ^ 63 ->
  let r := (drained (newReport (Z.of_nat (length queue)) queue output)).1 in
  sum_counts (StatusCodeDist r) = Z.of_nat (length (Lats r)).
Proof.
  intros Hlen r. subst r. unfold drained. cbn [results newReport].
  destruct (drain_status_sum queue (newReport (Z.of_nat (length queue)) queue output) 0)
    as [_ Hs].
  - apply map_Forall_empty.
  - cbn [StatusCodeDist newReport]. unfold sum_counts. rewrite map_fold_empty.
    assert (H := length_filter (fun res => no_error res = true) queue). lia.
  - rewrite Hs, drain_Lats. cbn [StatusCodeDist Lats newReport].
    unfold sum_counts at 1. rewrite map_fold_empty, app_nil_l, length_map.
    reflexivity.
Qed.

Lemma X3_status_counts_sum_witness :
  sum_counts (StatusCodeDist (drained (newReport 3 [Result None 200 50000000 100;
                                                    Result (Some "timeout") 0 0 0;
                                                    Result None 404 0 0] "")).1)
  = 2.
Proof.
  apply (X3_status_counts_sum [Result None 200 50000000 100;
                               Result (Some "timeout") 0 0 0;
                               Result None 404 0 0] "").
  vm_compute. reflexivity.
Defined.

Lemma received_cons res queue :
  received (res :: queue)
  = (if no_error res && (0 <? contentLength res) then contentLength res else 0)
    + received queue.
Proof. reflexivity. Qed.

Lemma received_nonneg queue : 0 <= received queue.
Proof.
  induction queue as [|res queue IH]; [ unfold received; simpl; lia | ].
  rewrite received_cons.
  destruct (no_error res && (0 <? contentLength res)) eqn:E; [ | lia ].
  apply andb_true_iff in E as [_ E]. apply Z.ltb_lt in E. lia.
Qed.

Lemma drain_SizeTotal queue r c :
  0 <= SizeTotal r -> SizeTotal r + received queue < 2 ^ 63 ->
  SizeTotal (drain queue (r, c)).1 = SizeTotal r + received queue.
Proof.
  revert r c. induction queue as [|res queue IH]; intros r c H0 Hlt.
  - cbn [drain fst]. unfold received. simpl. lia.
  - cbn [drain]. rewrite received_cons in Hlt |- *.
    assert (Hq := received_nonneg queue).
    destruct res as [[e|] sc d cl]; unfold collect, no_error in *;
      cbn [err contentLength andb] in *.
    + rewrite IH; cbn [SizeTotal]; lia.
    + destruct (0 <? cl) eqn:E.
      * apply Z.ltb_lt in E. rewrite IH; cbn [SizeTotal];
          rewrite wrap64_small by lia; lia.
      * rewrite IH; cbn [SizeTotal]; lia.
Qed.

(** X4: [SizeTotal] after the drain of a new report is the sum of the
    positive content lengths of the results without an error, as long as
    that sum fits an [int64]; a length that is zero or negative, and the
    length of a result with an error, add nothing. *)
Theorem X4_size_total (queue : list result) (output : string) (total : Z) :
  received queue < 2 ^ 63 ->
  SizeTotal (aggregate (newReport (Z.of_nat (length queue)) queue output) total)
  = received queue.
Proof.
  intros Hlt. unfold aggregate, close, drained. cbn [results newReport].
  pose proof (drain_SizeTotal queue (newReport (Z.of_nat (length queue)) queue output) 0
                ltac:(cbn; lia) ltac:(cbn; lia)) as H.
  destruct (drain queue _) as [r1 c1]. cbn [fst SizeTotal newReport] in *. lia.
Qed.

Lemma X4_size_total_witness :
  SizeTotal (aggregate (newReport 4 [Result None 200 50000000 100;
                                     Result (Some "timeout") 0 0 700;
                                     Result None 404 0 (-1);
                                     Result None 200 0 20] "") Second)
  = 120.
Proof.
  apply (X4_size_total [Result None 200 50000000 100;
                        Result (Some "timeout") 0 0 700;
                        Result None 404 0 (-1);
                        Result None 200 0 20] "" Second).
  vm_compute. reflexivity.
Defined.

(** ** What [print] writes, mode by mode *)

(** The block under [if len(r.Lats) > 0], case by case. *)
Lemma printDetails_shape ord r r' details :
  printDetails ord r = Returns (r', details) ->
  (Lats r = [] /\ r' = r /\ details = []) \/
  (exists x l slowest,
     Lats r = x :: l /\ last (Lats r) = Some slowest /\
     r' = set_extremes x slowest r /\
     ((output r = "quiet" /\ details = []) \/
      (output r <> "quiet" /\
       exists hist,
         printHistogram r' = Returns hist /\
         details = printSummary r' ++ printStatusCodes ord r' ++ hist
                   ++ printLatencies r'))).
Proof.
  destruct (Lats r) as [|x l] eqn:El.
  - unfold printDetails. rewrite El. cbn [head]. intros [= <- <-]. left. auto.
  - destruct (printDetails_cons ord r x l El) as (slowest & Hlast & ->).
    rewrite <- El. cbv zeta. cbn [output set_extremes].
    intros Hp. right. exists x, l, slowest. rewrite El. split; [ reflexivity | ].
    rewrite <- El. split; [ exact Hlast | ].
    destruct (decide (output r = "quiet")) as [Hq|Hq].
    + injection Hp as <- <-. split; [ reflexivity | left; auto ].
    + destruct (printHistogram _) as [hist| |] eqn:Eh;
        cbn [mbind outcome_bind bind] in Hp; try discriminate Hp.
      assert (Hr : set_extremes x slowest r = r')
        by (injection Hp; intros _ H; exact H).
      assert (Hd : printSummary (set_extremes x slowest r)
                   ++ printStatusCodes ord (set_extremes x slowest r) ++ hist
                   ++ printLatencies (set_extremes x slowest r) = details)
        by (injection Hp; intros H _; exact H).
      rewrite Hr in Hd, Eh. split; [ symmetry; exact Hr | right ].
      split; [ exact Hq | ]. exists hist. split; [ exact Eh | symmetry; exact Hd ].
Qed.

(** [print], case by case. *)
Lemma print_shape ord r r' out :
  print ord r = Returns (r', out) ->
  (output r = "csv" /\ r' = set_Lats (sort_Float64s (Lats r)) r /\ out = printCSV r') \/
  (output r <> "csv" /\
   exists details,
     printDetails ord (set_Lats (sort_Float64s (Lats r)) r) = Returns (r', details) /\
     out = details ++ (if (0 <? size (Errors r'))%nat then printErrors ord r' else [])).
Proof.
  unfold print. cbn [output set_Lats].
  destruct (decide (output r = "csv")) as [Hc|Hc].
  - intros [= <- <-]. left. auto.
  - destruct (printDetails _ _) as [[r1 details]| |] eqn:Ed;
      cbn [mbind outcome_bind bind]; try discriminate.
    intros Hp. right. split; [ exact Hc | ]. exists details.
    destruct (0 <? size (Errors r1))%nat eqn:Es.
    + assert (r1 = r') as -> by (injection Hp; intros _ H; exact H).
      rewrite Es. split; [ reflexivity | congruence ].
    + assert (r1 = r') as -> by (injection Hp; intros _ H; exact H).
      rewrite Es, app_nil_r. split; [ reflexivity | congruence ].
Qed.

(** [print] changes the latencies, [Fastest] and [Slowest] only. *)
Lemma printDetails_fields ord r r' details :
  printDetails ord r = Returns (r', details) ->
  exists fastest slowest, r' = set_extremes fastest slowest r.
Proof.
  intros Hp. apply printDetails_shape in Hp as [(_ & -> & _) | (x & l & s & _ & _ & -> & _)].
  - exists (Fastest r), (Slowest r). destruct r. reflexivity.
  - eauto.
Qed.

Lemma print_fields ord r r' out :
  print ord r = Returns (r', out) ->
  exists fastest slowest,
    r' = set_extremes fastest slowest (set_Lats (sort_Float64s (Lats r)) r).
Proof.
  intros Hp. apply print_shape in Hp as [(_ & -> & _) | (_ & details & Hd & _)].
  - exists (Fastest r), (Slowest r). destruct r. reflexivity.
  - apply printDetails_fields in Hd. exact Hd.
Qed.

(** X5: [print] changes nothing of the report but the order of the
    latencies, [Fastest] and [Slowest]: the tallies, the sizes and the rates
    are as [finalize] left them, the latencies are the same samples in
    increasing order (the only such order when no two different samples are
    in neither order), and in the [csv] mode [Fastest] and [Slowest] are not
    set either. *)
Theorem X5_print_frame (ord : map_order) (r r' : Report) (out : list printf) :
  print ord r = Returns (r', out) ->
  Lats r' ≡ₚ Lats r /\ StronglySorted float64_le (Lats r') /\
  (tie_free (Lats r) ->
   forall l, l ≡ₚ Lats r -> StronglySorted float64_le l -> l = Lats r') /\
  Errors r' = Errors r /\ StatusCodeDist r' = StatusCodeDist r /\
  SizeTotal r' = SizeTotal r /\ Total r' = Total r /\ output r' = output r /\
  AvgTotal r' = AvgTotal r /\ Average r' = Average r /\
  RPS r' = RPS r /\ SuccessRPS r' = SuccessRPS r /\
  (output r = "csv" -> Fastest r' = Fastest r /\ Slowest r' = Slowest r).
Proof.
  intros Hp. destruct (print_fields _ _ _ _ Hp) as (f & s & Hr).
  assert (Hl : Lats r' = sort_Float64s (Lats r)) by (rewrite Hr; reflexivity).
  split; [ rewrite Hl; apply sort_Float64s_perm | ].
  split; [ rewrite Hl; apply sort_Float64s_sorted | ].
  split; [ intros Ht l Hperm Hs; rewrite Hl; apply sort_Float64s_unique; assumption | ].
  rewrite Hr. cbn [Errors StatusCodeDist SizeTotal Total output AvgTotal Average
                   RPS SuccessRPS set_extremes set_Lats].
  repeat (split; [ reflexivity | ]).
  intros Hcsv. apply print_shape in Hp as [(_ & Hr' & _) | (Hn & _)];
    [ | contradiction ].
  rewrite <- Hr, Hr'. split; reflexivity.
Qed.

Lemma X5_print_frame_witness :
  exists r' out,
    print key_order (set_Lats [0.3; 0; 0.1; -0; 0.2]%float (newReport 5 [] "quiet"))
    = Returns (r', out) /\
    Lats r' ≡ₚ [0.3; 0; 0.1; -0; 0.2]%float.
Proof.
  eexists _, _. split; [ vm_compute; reflexivity | ].
  refine (proj1 (X5_print_frame key_order
                   (set_Lats [0.3; 0; 0.1; -0; 0.2]%float (newReport 5 [] "quiet"))
                   _ _ _)).
  vm_compute. reflexivity.
Defined.

(** X6: in the [quiet] mode [print] returns on every report, whatever its
    latencies, and writes the error distribution when there is an error
    and nothing otherwise: no summary, no histogram, no percentiles.  It
    leaves the latencies in increasing order. *)
Theorem X6_quiet_mode (ord : map_order) (r : Report) :
  output r = "quiet" ->
  exists r', print ord r
             = Returns (r', if (0 <? size (Errors r))%nat
                            then printErrors ord r else []) /\
             Lats r' ≡ₚ Lats r /\ StronglySorted float64_le (Lats r').
Proof.
  intros Hq. unfold print. cbn [output set_Lats]. rewrite Hq.
  destruct (decide _) as [Hd|_]; [ discriminate Hd | ].
  assert (Hperm := sort_Float64s_perm (Lats r)).
  assert (Hsorted := sort_Float64s_sorted (Lats r)).
  destruct (sort_Float64s (Lats r)) as [|x l] eqn:Es.
  - unfold printDetails. cbn [Lats set_Lats head mbind outcome_bind bind Errors].
    eexists. split; [ destruct (0 <? size (Errors r))%nat; reflexivity | ].
    split; [ exact Hperm | exact Hsorted ].
  - destruct (printDetails_cons ord (set_Lats (x :: l) r) x l eq_refl)
      as (slowest & _ & ->).
    cbv zeta. cbn [output set_extremes set_Lats]. rewrite Hq.
    destruct (decide _) as [_|Hd]; [ | contradiction ].
    cbn [mbind outcome_bind bind Errors set_extremes set_Lats].
    eexists. split; [ destruct (0 <? size (Errors r))%nat; reflexivity | ].
    split; [ exact Hperm | exact Hsorted ].
Qed.

Lemma X6_quiet_mode_witness :
  (exists r', print key_order (set_Lats [nan; 0.1]%float (newReport 2 [] "quiet"))
              = Returns (r', [])) /\
  (exists r',
     print key_order
       (aggregate (newReport 3 [Result (Some "timeout") 0 0 0;
                                Result None 200 100000000 0;
                                Result (Some "timeout") 0 0 0] "quiet") Second)
     = Returns (r', [ Printf "\nError distribution:\n" [];
                      Printf "  [%d]\t%s\n" [VInt 2; VString "timeout"] ])).
Proof.
  split.
  - destruct (X6_quiet_mode key_order
                (set_Lats [nan; 0.1]%float (newReport 2 [] "quiet")))
      as (r' & Hp & _); [ reflexivity | ].
    exists r'. exact Hp.
  - destruct (X6_quiet_mode key_order
                (aggregate (newReport 3 [Result (Some "timeout") 0 0 0;
                                         Result None 200 100000000 0;
                                         Result (Some "timeout") 0 0 0] "quiet") Second))
      as (r' & Hp & _); [ reflexivity | ].
    exists r'. exact Hp.
Defined.

(** X7: with no latency and no error, [print] writes nothing, in every
    mode, and leaves the report as it is. *)
Theorem X7_nothing_to_report (ord : map_order) (r : Report) :
  Lats r = [] -> Errors r = ∅ -> print ord r = Returns (r, []).
Proof.
  intros Hl He. unfold print. rewrite Hl. cbn [sort_Float64s foldr].
  rewrite <- Hl, set_Lats_same.
  destruct (decide _).
  - unfold printCSV. rewrite Hl. reflexivity.
  - unfold printDetails. rewrite Hl. cbn [head mbind outcome_bind bind].
    rewrite He. reflexivity.
Qed.

Lemma X7_nothing_to_report_witness :
  report_of key_order [] "" 0 = Returns (aggregate (newReport 0 [] "") 0, []).
Proof.
  apply (X7_nothing_to_report key_order (aggregate (newReport 0 [] "") 0));
    reflexivity.
Defined.

(** The first sample of an increasing list of numbers is at most every
    sample. *)
Lemma sorted_head_le l fastest :
  numbers l -> StronglySorted (fun x y => (x <=? y)%float = true) l ->
  head l = Some fastest ->
  Forall (fun x => (fastest <=? x)%float = true) l.
Proof.
  intros Hn Hs Hh. destruct Hs as [|x l Hs Hx]; [ discriminate Hh | ].
  injection Hh as ->. apply Forall_cons in Hn as [Hnx _].
  constructor; [ apply leb_refl, Hnx | exact Hx ].
Qed.

(** In a mode other than [csv], with a latency, [print] returns a report
    that is [set_extremes] of the first and the last of the sorted
    latencies. *)
Lemma print_extremes ord r r' out :
  print ord r = Returns (r', out) -> output r <> "csv" -> Lats r <> [] ->
  exists x l slowest,
    sort_Float64s (Lats r) = x :: l /\ last (x :: l) = Some slowest /\
    r' = set_extremes x slowest (set_Lats (x :: l) r).
Proof.
  intros Hp Hcsv Hl.
  apply print_shape in Hp as [(Hc & _) | (_ & details & Hd & _)]; [ contradiction | ].
  apply printDetails_shape in Hd as [(He & _) | (x & l & s & He & Hlast & Hr & _)];
    cbn [Lats set_Lats] in *.
  - apply sort_Float64s_nil in He. contradiction.
  - exists x, l, s. rewrite He in Hlast, Hr. auto.
Qed.

(** X8: in a mode other than [csv], when the latencies are numbers and there
    is one at least, [print] leaves in [Fastest] and [Slowest] two of the
    samples, the first at most every sample and the second at least every
    sample. *)
Theorem X8_fastest_slowest (ord : map_order) (r r' : Report) (out : list printf) :
  print ord r = Returns (r', out) ->
  output r <> "csv" -> numbers (Lats r) -> Lats r <> [] ->
  Fastest r' ∈ Lats r /\ Slowest r' ∈ Lats r /\
  Forall (fun x => (Fastest r' <=? x)%float = true /\
                   (x <=? Slowest r')%float = true) (Lats r).
Proof.
  intros Hp Hcsv Hn Hl.
  destruct (print_extremes _ _ _ _ Hp Hcsv Hl) as (x & l & s & Es & Hlast & ->).
  cbn [Fastest Slowest set_extremes set_Lats].
  assert (Hperm := sort_Float64s_perm (Lats r)). rewrite Es in Hperm.
  assert (Hns : numbers (x :: l)) by (rewrite <- Es; apply sort_Float64s_numbers, Hn).
  assert (Hs : StronglySorted (fun a b => (a <=? b)%float = true) (x :: l)).
  { apply sorted_numbers_leb; [ exact Hns | ]. rewrite <- Es. apply sort_Float64s_sorted. }
  split; [ rewrite <- Hperm; left | split ].
  - rewrite <- Hperm. apply last_Some_elem_of, Hlast.
  - rewrite <- Hperm.
    assert (H1 := sorted_head_le (x :: l) x Hns Hs eq_refl).
    assert (H2 := sorted_le_last (x :: l) s Hns Hs Hlast).
    rewrite Forall_forall in H1, H2 |- *. auto.
Qed.

Lemma X8_fastest_slowest_witness :
  exists r' out,
    print key_order (set_Lats [0.3; 0.1; 0.2]%float (newReport 3 [] "quiet"))
    = Returns (r', out) /\
    Fastest r' ∈ [0.3; 0.1; 0.2]%float.
Proof.
  eexists _, _. split; [ vm_compute; reflexivity | ].
  refine (proj1 (X8_fastest_slowest key_order
                   (set_Lats [0.3; 0.1; 0.2]%float (newReport 3 [] "quiet")) _ _ _ _ _ _)).
  - vm_compute. reflexivity.
  - discriminate.
  - repeat constructor.
  - discriminate.
Defined.

(** Sorting a sorted list changes nothing. *)
Lemma sort_Float64s_sorted_id l :
  StronglySorted float64_le l -> sort_Float64s l = l.
Proof.
  induction 1 as [|x l Hs IH Hx]; [ reflexivity | ].
  cbn [sort_Float64s foldr]. fold (sort_Float64s l). rewrite IH.
  destruct l as [|y l']; [ reflexivity | ].
  apply Forall_cons in Hx as [Hxy _]. cbn [sort_insert].
  unfold float64_le in Hxy. rewrite Hxy. reflexivity.
Qed.

Lemma set_Lats_extremes r :
  set_extremes (Fastest r) (Slowest r) r = r.
Proof. destruct r. reflexivity. Qed.

(** ** The samples that the percentiles record *)

Lemma filter_lt_none (y : nat) (l : list nat) :
  Forall (fun x => (y <= x)%nat) l -> filter (fun x => (x < y)%nat) l = [].
Proof.
  induction 1 as [|x l Hx Hl IH]; [ reflexivity | ].
  rewrite filter_cons. destruct (decide _); [ lia | exact IH ].
Qed.

(** The first loop of [printLatencies] from the index [i] and the target
    [j] on: it writes into [data], from the place [j], samples of strictly
    increasing indices, each for the target of its place and of a rank that
    reaches this target; and it records the sample of an index exactly when
    the rank of the index reaches the target that is pending there, the one
    after those of the indices recorded before. *)
Lemma pctl_loop_recorded lats (i j : nat) data :
  (j <= length data)%nat -> length data = length pctls ->
  exists rec : list (nat * Z),
    rec.*2 `prefix_of` drop j pctls /\
    StronglySorted lt rec.*1 /\
    Forall (fun xp => (i <= xp.1 < length lats)%nat /\
                      xp.2 <= pctl_current (Z.of_nat (length lats)) (Z.of_nat xp.1)) rec /\
    (forall (y : nat) p,
       (i <= y < length lats)%nat ->
       pctls !! (j + length (filter (fun x => (x < y)%nat) rec.*1))%nat = Some p ->
       (y ∈ rec.*1 <-> p <= pctl_current (Z.of_nat (length lats)) (Z.of_nat y))) /\
    pctl_loop (Z.of_nat (length lats)) (drop i lats) (Z.of_nat i) j data
    = take j data ++ samples_at lats rec.*1 ++ drop (j + length rec) data.
Proof.
  remember (drop i lats) as rest eqn:Hrest.
  revert i j data Hrest. induction rest as [|x rest IH]; intros i j data Hrest Hj Hlen.
  - exists []. cbn [pctl_loop fmap list_fmap samples_at map length app].
    rewrite Nat.add_0_r, take_drop.
    split; [ apply prefix_nil | split; [ constructor | split; [ constructor | split; [ | reflexivity ] ] ] ].
    intros y p Hy. apply (f_equal length) in Hrest. rewrite length_drop in Hrest.
    cbn [length] in Hrest. lia.
  - assert (Hi : lats !! i = Some x).
    { rewrite <- (Nat.add_0_r i), <- lookup_drop, <- Hrest. reflexivity. }
    assert (Hrest' : rest = drop (S i) lats).
    { rewrite <- (Nat.add_1_r i), <- drop_drop, <- Hrest. reflexivity. }
    assert (Hlt := lookup_lt_Some _ _ _ Hi).
    cbn [pctl_loop].
    destruct (pctls !! j) as [p|] eqn:Hp.
    + assert (Hjlt := lookup_lt_Some _ _ _ Hp).
      replace (Z.of_nat i + 1) with (Z.of_nat (S i)) by lia.
      destruct (p <=? pctl_current (Z.of_nat (length lats)) (Z.of_nat i)) eqn:Hle.
      * apply Z.leb_le in Hle.
        destruct (IH (S i) (S j) (<[j := x]> data) Hrest')
          as (rec & Hpre & Hsort & Hall & Hfirst & ->);
          [ rewrite length_insert; lia | rewrite length_insert; exact Hlen | ].
        assert (Hge : Forall (fun x => (S i <= x)%nat) rec.*1).
        { apply Forall_fmap. eapply Forall_impl; [ exact Hall | ].
          intros [y q] [Hy _]. cbn in *. lia. }
        exists ((i, p) :: rec). cbn [fmap list_fmap fst snd length].
        split; [ | split; [ | split; [ | split ] ] ].
        -- rewrite (drop_S _ _ _ Hp). apply prefix_cons, Hpre.
        -- constructor; [ exact Hsort | ].
           eapply Forall_impl; [ exact Hge | ]. intros y Hy. cbn in *. lia.
        -- constructor; [ cbn; split; [ lia | exact Hle ] | ].
           eapply Forall_impl; [ exact Hall | ].
           intros [y q] [Hy Hq]. cbn in *. split; [ lia | exact Hq ].
        -- intros y q Hy. rewrite filter_cons. destruct (decide (i < y)%nat) as [Hiy|Hiy].
           ++ cbn [length]. replace (j + S _)%nat
                with (S j + length (filter (fun x => (x < y)%nat) rec.*1))%nat by lia.
              intros Hq. rewrite elem_of_cons, <- (Hfirst y q ltac:(lia) Hq).
              split; [ intros [?|?]; [ lia | assumption ] | auto ].
           ++ assert (y = i) as -> by lia.
              rewrite filter_lt_none
                by (eapply Forall_impl; [ exact Hge | ]; intros; cbn in *; lia).
              cbn [length]. rewrite Nat.add_0_r, Hp. intros [= <-].
              split; [ intros _; exact Hle | intros _; left ].
        -- unfold samples_at. cbn [map]. rewrite Hi. cbn [default from_option id].
           rewrite (take_S_r (<[j := x]> data) j x)
             by (apply list_lookup_insert_eq; lia).
           rewrite take_insert_ge by lia. rewrite drop_insert_lt by lia.
           rewrite <- app_assoc. cbn [app].
           replace (j + S (length rec))%nat with (S j + length rec)%nat by lia.
           reflexivity.
      * apply Z.leb_gt in Hle.
        destruct (IH (S i) j data Hrest' Hj Hlen)
          as (rec & Hpre & Hsort & Hall & Hfirst & ->).
        assert (Hge : Forall (fun x => (S i <= x)%nat) rec.*1).
        { apply Forall_fmap. eapply Forall_impl; [ exact Hall | ].
          intros [y q] [Hy _]. cbn in *. lia. }
        exists rec.
        split; [ exact Hpre | split; [ exact Hsort | split; [ | split; [ | reflexivity ] ] ] ].
        -- eapply Forall_impl; [ exact Hall | ].
           intros [y q] [Hy Hq]. cbn in *. split; [ lia | exact Hq ].
        -- intros y q Hy. destruct (decide (i < y)%nat) as [Hiy|Hiy];
             [ apply Hfirst; lia | ].
           assert (y = i) as -> by lia.
           rewrite filter_lt_none
             by (eapply Forall_impl; [ exact Hge | ]; intros; cbn in *; lia).
           cbn [length]. rewrite Nat.add_0_r, Hp. intros [= <-].
           split; [ | lia ]. intros Hin. rewrite Forall_forall in Hge.
           specialize (Hge i Hin). lia.
    + exists [].
      cbn [fmap list_fmap samples_at map length app filter list_filter].
      rewrite Nat.add_0_r, take_drop.
      split; [ apply prefix_nil | split; [ constructor | split; [ constructor | split; [ | reflexivity ] ] ] ].
      intros y q _. rewrite Hp. discriminate.
Qed.

(** The values that the first loop of [printLatencies] leaves in [data]. *)
Lemma pctl_data_recorded (lats : list float) :
  exists rec : list (nat * Z),
    rec.*2 `prefix_of` pctls /\
    StronglySorted lt rec.*1 /\
    Forall (fun xp => (xp.1 < length lats)%nat /\
                      xp.2 <= pctl_current (Z.of_nat (length lats)) (Z.of_nat xp.1)) rec /\
    (forall (y : nat) p,
       (y < length lats)%nat ->
       pctls !! length (filter (fun x => (x < y)%nat) rec.*1) = Some p ->
       (y ∈ rec.*1 <-> p <= pctl_current (Z.of_nat (length lats)) (Z.of_nat y))) /\
    pctl_data lats
    = samples_at lats rec.*1 ++ replicate (length pctls - length rec) 0%float.
Proof.
  destruct (pctl_loop_recorded lats 0 0 (replicate (length pctls) 0%float))
    as (rec & Hpre & Hsort & Hall & Hfirst & Hdata);
    [ lia | apply length_replicate | ].
  exists rec. split; [ exact Hpre | split; [ exact Hsort | split; [ | split ] ] ].
  - eapply Forall_impl; [ exact Hall | ]. intros xp [H1 H2]. split; [ lia | exact H2 ].
  - intros y p Hy Hp. apply Hfirst; [ lia | exact Hp ].
  - unfold pctl_data. rewrite drop_0 in Hdata. change (Z.of_nat 0) with 0 in Hdata.
    rewrite Hdata. cbn [take app]. rewrite drop_replicate. reflexivity.
Qed.

(** X10: the values that [printLatencies] records are samples of the
    latencies at strictly increasing indices, one for each target of a
    prefix of the list of the targets, each of a rank [current] that reaches
    its target; the sample of an index is recorded exactly when its rank
    reaches the target pending there (the first that no earlier index took),
    so that each target gets the first sample that reaches it after the one
    of the target before; the targets that are left keep the zero the array
    starts with. *)
Theorem X10_percentiles_recorded (lats : list float) :
  exists rec : list (nat * Z),
    rec.*2 `prefix_of` pctls /\
    StronglySorted lt rec.*1 /\
    Forall (fun xp => (xp.1 < length lats)%nat /\
                      xp.2 <= pctl_current (Z.of_nat (length lats)) (Z.of_nat xp.1)) rec /\
    (forall (y : nat) p,
       (y < length lats)%nat ->
       pctls !! length (filter (fun x => (x < y)%nat) rec.*1) = Some p ->
       (y ∈ rec.*1 <-> p <= pctl_current (Z.of_nat (length lats)) (Z.of_nat y))) /\
    pctl_data lats
    = samples_at lats rec.*1 ++ replicate (length pctls - length rec) 0%float.
Proof. exact (pctl_data_recorded lats). Qed.

(** In an increasing list the sample of a smaller index is not after the
    sample of a larger one. *)
Lemma StronglySorted_lookup_lt {A : Type} (R : A -> A -> Prop) l (i j : nat) a b :
  StronglySorted R l -> l !! i = Some a -> l !! j = Some b -> (i < j)%nat -> R a b.
Proof.
  intros Hs. revert i j. induction Hs as [|x l Hs IH Hx]; intros i j Hi Hj Hlt;
    [ discriminate Hi | ].
  destruct j as [|j]; [ lia | ]. destruct i as [|i].
  - injection Hi as <-. rewrite Forall_forall in Hx. apply Hx.
    eapply list_elem_of_lookup_2. exact Hj.
  - apply (IH i j); [ exact Hi | exact Hj | lia ].
Qed.

Lemma samples_at_sorted (R : float -> float -> Prop) lats idxs :
  StronglySorted R lats -> StronglySorted lt idxs ->
  Forall (fun x => (x < length lats)%nat) idxs ->
  StronglySorted R (samples_at lats idxs).
Proof.
  intros Hs Hi. induction Hi as [|x idxs Hi IH Hx]; intros Hall; [ constructor | ].
  apply Forall_cons in Hall as [Hxl Hall]. cbn [samples_at map].
  constructor; [ apply IH, Hall | ].
  apply Forall_map. rewrite Forall_forall in Hx, Hall |- *. intros y Hy.
  destruct (lookup_lt_is_Some_2 lats x Hxl) as [a Ha].
  destruct (lookup_lt_is_Some_2 lats y (Hall y Hy)) as [b Hb].
  rewrite Ha, Hb. cbn. eapply StronglySorted_lookup_lt; eauto.
Qed.

Lemma StronglySorted_filter {A : Type} (R : A -> A -> Prop) (P : A -> Prop)
    `{forall x, Decision (P x)} l :
  StronglySorted R l -> StronglySorted R (filter P l).
Proof.
  induction 1 as [|x l Hs IH Hx]; [ constructor | ].
  rewrite filter_cons. destruct (decide (P x)); [ | exact IH ].
  constructor; [ exact IH | ]. apply Forall_forall. intros y Hy.
  apply list_elem_of_filter in Hy as [_ Hy]. rewrite Forall_forall in Hx. auto.
Qed.

(** The values of the lines are the positive values of the array. *)
Lemma pctl_lines_values ps data :
  length ps = length data ->
  map line_value (pctl_lines ps data) = filter (fun d => (0 <? d)%float = true) data.
Proof.
  revert data. induction ps as [|p ps IH]; intros [|d data] Hlen;
    try discriminate Hlen; [ reflexivity | ].
  cbn [pctl_lines]. rewrite filter_cons.
  destruct (0 <? d)%float eqn:E; destruct (decide _) as [Hd|Hd]; try congruence.
  - cbn [map line_value args]. rewrite IH by (simpl in Hlen; lia). reflexivity.
  - apply IH. simpl in Hlen. lia.
Qed.

Lemma filter_positive_zeros n :
  filter (fun d => (0 <? d)%float = true) (replicate n 0%float) = [].
Proof.
  induction n as [|n IH]; [ reflexivity | ].
  cbn [replicate]. rewrite filter_cons. destruct (decide _) as [Hd|_]; [ discriminate Hd | exact IH ].
Qed.

(** X11: when the latencies are in increasing order, as [print] leaves
    them, the values on the lines of the latency distribution are in
    increasing order too, from one percentile to the next. *)
Theorem X11_percentiles_increase (r : Report) :
  StronglySorted float64_le (Lats r) ->
  StronglySorted float64_le (map line_value (tail (printLatencies r))).
Proof.
  intros Hs. unfold printLatencies. cbn [tail].
  destruct (pctl_data_recorded (Lats r)) as (rec & Hpre & Hsort & Hall & _ & Hdata).
  rewrite pctl_lines_values
    by (unfold pctl_data; rewrite pctl_loop_length, length_replicate; reflexivity).
  rewrite Hdata, filter_app, filter_positive_zeros, app_nil_r.
  apply StronglySorted_filter, samples_at_sorted; [ exact Hs | exact Hsort | ].
  apply Forall_fmap. eapply Forall_impl; [ exact Hall | ]. intros xp [H _]. exact H.
Qed.

Lemma X11_percentiles_increase_witness :
  StronglySorted float64_le
    (map line_value
       (tail (printLatencies (set_Lats scenario_lats (newReport 5 [] ""))))).
Proof.
  apply (X11_percentiles_increase (set_Lats scenario_lats (newReport 5 [] ""))).
  repeat constructor.
Defined.

(** ** The bars of the histogram *)

(** An iteration of the loop keeps [max] the largest of the counts. *)
Lemma hist_step_max lats buckets s s' :
  Z.of_nat (length lats) < 2 ^ 63 ->
  hist_inv lats buckets s -> hist_max_inv s ->
  hist_step lats buckets s = HNext s' -> hist_max_inv s'.
Proof.
  intros Hlen (Hi & Hbi & Hc & Hall & Hsum) [Hin Hle]. unfold hist_step.
  destruct (lats !! h_i s) as [x|] eqn:Hx; [ | discriminate ].
  assert (Hlt := lookup_lt_Some _ _ _ Hx).
  destruct (buckets !! h_bi s) as [b|]; [ | discriminate ].
  destruct (h_counts s !! h_bi s) as [c|] eqn:Hcb; [ | discriminate ].
  destruct (sumZ_lookup_le _ _ _ Hall Hcb) as [Hc0 Hcs].
  assert (Hbl := lookup_lt_Some _ _ _ Hcb).
  destruct (x <=? b)%float.
  - intros [= <-]. unfold hist_max_inv. cbn [h_counts h_max].
    rewrite wrap64_small by lia.
    destruct (h_max s <? c + 1) eqn:E.
    + apply Z.ltb_lt in E. split.
      * apply (list_elem_of_lookup_2 _ (h_bi s)).
        apply list_lookup_insert_eq. exact Hbl.
      * apply Forall_insert; [ | lia ].
        eapply Forall_impl; [ exact Hle | ]. intros; cbn in *; lia.
    + apply Z.ltb_ge in E. split.
      * apply list_elem_of_lookup_1 in Hin as [k Hk].
        assert (k <> h_bi s) by (intros ->; rewrite Hcb in Hk; injection Hk; lia).
        apply (list_elem_of_lookup_2 _ k).
        rewrite list_lookup_insert_ne by auto. exact Hk.
      * apply Forall_insert; [ exact Hle | lia ].
  - destruct (h_bi s <? length buckets - 1)%nat; [ | discriminate ].
    intros [= <-]. split; assumption.
Qed.

Lemma hist_loop_max fuel lats buckets s s' :
  Z.of_nat (length lats) < 2 ^ 63 ->
  hist_inv lats buckets s -> hist_max_inv s ->
  hist_loop fuel lats buckets s = Returns s' -> hist_max_inv s'.
Proof.
  intros Hlen. revert s. induction fuel as [|fuel IH]; intros s Hinv Hmax;
    [ discriminate | ].
  cbn [hist_loop]. destruct (hist_step lats buckets s) as [|s1| |] eqn:Hs;
    try discriminate.
  - intros [= <-]. exact Hmax.
  - apply IH.
    + apply (hist_step_next _ _ _ _ Hlen Hinv Hs).
    + apply (hist_step_max _ _ _ _ Hlen Hinv Hmax Hs).
Qed.

Lemma hist_init_max : hist_max_inv hist_init.
Proof.
  split; cbn [h_max h_counts hist_init].
  - apply list_elem_of_here.
  - apply Forall_replicate. lia.
Qed.

(** The lines of the buckets: the bar of a count [c] has [c*40/max]
    glyphs. *)
Lemma hist_lines_bars max buckets counts lines :
  0 < max ->
  Forall (fun c => 0 <= c /\ c * 40 < 2 ^ 63) counts ->
  hist_lines max buckets counts = Returns lines ->
  Forall (fun p => exists b c n, p = hist_bar b c n /\ c ∈ counts /\
                                 Z.of_nat n = c * 40 / max) lines.
Proof.
  intros Hmax. revert counts lines.
  induction buckets as [|b buckets IH]; intros counts lines Hall.
  - cbn [hist_lines]. intros [= <-]. constructor.
  - destruct counts as [|c counts]; [ discriminate | ].
    apply Forall_cons in Hall as [[Hc0 Hc40] Hall].
    cbn [hist_lines]. unfold hist_line, strings_Repeat.
    assert (E : (0 <? max) = true) by (apply Z.ltb_lt; exact Hmax). rewrite E.
    rewrite wrap64_small by lia.
    assert (Hq : 0 <= Z.quot (c * 40) max) by (apply Z.quot_pos; lia).
    destruct (Z.quot (c * 40) max <? 0) eqn:En; [ apply Z.ltb_lt in En; lia | ].
    cbn [mbind outcome_bind bind].
    destruct (hist_lines max buckets counts) as [rest| |] eqn:Er;
      cbn [mbind outcome_bind bind]; try discriminate.
    intros [= <-]. constructor.
    + exists b, c, (Z.to_nat (Z.quot (c * 40) max)).
      split; [ reflexivity | split; [ left | ] ].
      rewrite Z2Nat.id by exact Hq. apply Z.quot_div_nonneg; lia.
    + eapply Forall_impl; [ apply (IH counts rest Hall Er) | ].
      intros p (b' & c' & n & Hp & Hin & Hn). exists b', c', n.
      split; [ exact Hp | split; [ right; exact Hin | exact Hn ] ].
Qed.

Lemma sumZ_nonpos l : Forall (fun c => c <= 0) l -> sumZ l <= 0.
Proof. induction 1; [ simpl | rewrite sumZ_cons ]; lia. Qed.

(** X12: on a report that is ready, every bar of the histogram has at most
    40 glyphs, and the bar of a bucket that holds the largest count has
    exactly 40: the bars are scaled by the largest count, which is not zero
    when there is a latency. *)
Theorem X12_histogram_bars (r : Report) :
  ready r -> 40 * Z.of_nat (length (Lats r)) < 2 ^ 63 ->
  exists lines,
    printHistogram r = Returns (Printf "\nResponse time histogram:\n" [] :: lines) /\
    Forall (fun p => exists b c n, p = hist_bar b c n /\ (n <= 40)%nat) lines /\
    Exists (fun p => exists b c, p = hist_bar b c 40 /\ 0 < c) lines.
Proof.
  intros Hr Hlen.
  destruct (hist_loop_ready r Hr ltac:(lia)) as (s & Hs & Hinv & Hi).
  assert (Hlen' : Z.of_nat (length (Lats r)) < 2 ^ 63) by lia.
  assert (Hmax := hist_loop_max _ _ _ _ _ Hlen' (hist_init_inv (Lats r) r)
                    hist_init_max Hs).
  destruct Hinv as (_ & _ & Hc & Hall & Hsum). destruct Hmax as [Hin Hle].
  assert (Hpos : 0 < h_max s).
  { destruct (Z.lt_ge_cases 0 (h_max s)) as [H|H]; [ exact H | exfalso ].
    assert (Hz : sumZ (h_counts s) <= 0).
    { apply sumZ_nonpos. eapply Forall_impl; [ exact Hle | ]. intros; cbn in *; lia. }
    destruct Hr as (_ & _ & Hh & _). destruct (Lats r); [ discriminate Hh | ].
    cbn [length] in Hi. lia. }
  assert (Hb : Forall (fun c => 0 <= c /\ c * 40 < 2 ^ 63) (h_counts s)).
  { rewrite Forall_lookup. intros k c Hk.
    destruct (sumZ_lookup_le _ _ _ Hall Hk). lia. }
  destruct (hist_lines_returns (h_max s) (hist_buckets r) (h_counts s) Hc Hb)
    as (lines & Hl & Hm).
  assert (Hbars := hist_lines_bars _ _ _ _ Hpos Hb Hl).
  exists lines. split; [ | split ].
  - unfold printHistogram. cbv zeta. rewrite Hs. cbn [mbind outcome_bind bind].
    rewrite Hl. reflexivity.
  - eapply Forall_impl; [ exact Hbars | ].
    intros p (b & c & n & Hp & Hcin & Hn). exists b, c, n. split; [ exact Hp | ].
    rewrite Forall_forall in Hle. specialize (Hle c Hcin).
    assert (c * 40 / h_max s <= 40) by (apply Z.div_le_upper_bound; lia). lia.
  - rewrite <- Hm in Hin. apply list_elem_of_fmap in Hin as (p & Hpc & Hp).
    apply Exists_exists. exists p. split; [ exact Hp | ].
    rewrite Forall_forall in Hbars.
    destruct (Hbars p Hp) as (b & c & n & -> & _ & Hn).
    cbn in Hpc. subst c. exists b, (h_max s). split; [ | exact Hpos ].
    replace n with 40%nat; [ reflexivity | ].
    rewrite (Z.mul_comm (h_max s)), Z.div_mul in Hn by lia. lia.
Qed.

Lemma X12_histogram_bars_witness :
  exists lines,
    printHistogram (set_extremes 0.1 0.5 (set_Lats scenario_lats (newReport 5 [] "")))
    = Returns (Printf "\nResponse time histogram:\n" [] :: lines) /\
    Forall (fun p => exists b c n, p = hist_bar b c n /\ (n <= 40)%nat) lines.
Proof.
  destruct (X12_histogram_bars
              (set_extremes 0.1 0.5 (set_Lats scenario_lats (newReport 5 [] ""))))
    as (lines & Hp & Hall & _).
  - split; [ | split; [ | split ] ]; try reflexivity.
    + repeat constructor.
    + repeat constructor.
  - simpl. lia.
  - exists lines. split; [ exact Hp | exact Hall ].
Defined.

(** ** Latencies that are all the same *)

Lemma SFsub_same x :
  x <> S754_nan -> (forall s, x <> S754_infinity s) ->
  SFsub prec emax x x = S754_zero false.
Proof.
  intros Hn Hi. destruct x as [[]|s| |s m e]; try reflexivity.
  - exfalso. apply (Hi s). reflexivity.
  - congruence.
  - unfold SFsub. rewrite Z.sub_diag. reflexivity.
Qed.

Lemma is_infinity_false x :
  is_infinity x = false -> forall s, Prim2SF x <> S754_infinity s.
Proof.
  unfold is_infinity. rewrite FloatAxioms.eqb_spec, FloatAxioms.abs_spec.
  change (Prim2SF infinity) with (S754_infinity false).
  intros H s E. rewrite E in H. discriminate H.
Qed.

Lemma first_edge f :
  is_nan f = false -> is_infinity f = false ->
  (f <=? f + (f - f) / 10 * 0)%float = true.
Proof.
  intros Hn Hi.
  assert (Hn' : Prim2SF f <> S754_nan).
  { intros E. unfold is_nan in Hn. rewrite FloatAxioms.eqb_spec, E in Hn. discriminate Hn. }
  assert (Hi' := is_infinity_false f Hi).
  rewrite FloatAxioms.leb_spec, FloatAxioms.add_spec, FloatAxioms.mul_spec,
    FloatAxioms.div_spec, FloatAxioms.sub_spec.
  unfold SF64sub. rewrite (SFsub_same _ Hn' Hi').
  assert (H10 : exists m e, Prim2SF 10 = S754_finite false m e) by (vm_compute; eauto).
  destruct H10 as (m10 & e10 & ->).
  change (Prim2SF 0) with (S754_zero false).
  cbn [SF64div SFdiv SF64mul SFmul xorb].
  destruct (Prim2SF f) as [s|s| |s m e].
  - destruct s; reflexivity.
  - exfalso. apply (Hi' s). reflexivity.
  - congruence.
  - cbn [SF64add SFadd]. unfold SFleb. cbn [SFcompare].
    destruct s; rewrite Z.compare_refl, Pos.compare_cont_refl; reflexivity.
Qed.

(** What every iteration with an effect keeps holds when the loop returns. *)
Lemma hist_loop_invariant (P : hist_state -> Prop) fuel lats buckets s s' :
  (forall s1 s2, P s1 -> hist_step lats buckets s1 = HNext s2 -> P s2) ->
  P s -> hist_loop fuel lats buckets s = Returns s' -> P s'.
Proof.
  intros Hstep. revert s. induction fuel as [|fuel IH]; intros s Hs; [ discriminate | ].
  cbn [hist_loop]. destruct (hist_step lats buckets s) as [|s1| |] eqn:E;
    try discriminate.
  - intros [= <-]. exact Hs.
  - apply IH. eapply Hstep; eassumption.
Qed.

(** When no sample exceeds the first edge, the cursor stays on it. *)
Lemma hist_step_first lats buckets b s s' :
  buckets !! 0%nat = Some b ->
  Forall (fun x => (x <=? b)%float = true) lats ->
  h_bi s = 0%nat /\ drop 1 (h_counts s) = replicate 10 0 ->
  hist_step lats buckets s = HNext s' ->
  h_bi s' = 0%nat /\ drop 1 (h_counts s') = replicate 10 0.
Proof.
  intros Hb Hle [Hbi Hz]. unfold hist_step. rewrite Hbi, Hb.
  destruct (lats !! h_i s) as [x|] eqn:Hx; [ | discriminate ].
  destruct (h_counts s !! 0%nat) as [c|]; [ | discriminate ].
  rewrite Forall_lookup in Hle. rewrite (Hle _ _ Hx).
  intros [= <-]. cbn [h_bi h_counts]. split; [ reflexivity | ].
  rewrite drop_insert_lt by lia. exact Hz.
Qed.

(** X13: when all the latencies are the same finite number ([Fastest] and
    [Slowest] are equal), the first edge is not below it, and the loop of
    the histogram counts every sample in the first bucket and none in the
    ten others. *)
Theorem X13_identical_latencies (r : Report) :
  ready r -> Fastest r = Slowest r -> is_infinity (Fastest r) = false ->
  Z.of_nat (length (Lats r)) < 2 ^ 63 ->
  exists s,
    hist_loop (hist_fuel (Lats r) (hist_buckets r)) (Lats r) (hist_buckets r)
      hist_init = Returns s /\
    h_counts s = Z.of_nat (length (Lats r)) :: replicate 10 0 /\
    h_max s = Z.of_nat (length (Lats r)).
Proof.
  intros Hr Heq Hfin Hlen.
  destruct (hist_loop_ready r Hr Hlen) as (s & Hs & Hinv & Hi).
  assert (Hle := ready_le_slowest r Hr).
  assert (Hnum : is_nan (Slowest r) = false).
  { destruct Hr as (Hn & _ & _ & Hl). apply last_Some_elem_of in Hl.
    unfold numbers in Hn. rewrite Forall_forall in Hn. apply Hn, Hl. }
  assert (Hb : hist_buckets r !! 0%nat
               = Some (Fastest r + (Slowest r - Fastest r) / 10 * 0)%float)
    by reflexivity.
  rewrite Heq in Hb.
  assert (Hle0 : Forall (fun x => (x <=? Slowest r + (Slowest r - Slowest r) / 10 * 0)%float
                                  = true) (Lats r)).
  { eapply Forall_impl; [ exact Hle | ]. intros x Hx. cbn in Hx.
    eapply leb_trans; [ exact Hx | ]. apply first_edge; [ exact Hnum | ].
    rewrite <- Heq. exact Hfin. }
  assert (Hfirst : h_bi s = 0%nat /\ drop 1 (h_counts s) = replicate 10 0).
  { apply (hist_loop_invariant
             (fun s => h_bi s = 0%nat /\ drop 1 (h_counts s) = replicate 10 0)
             _ _ _ _ _ (fun s1 s2 => hist_step_first _ _ _ s1 s2 Hb Hle0)) in Hs.
    - exact Hs.
    - split; reflexivity. }
  assert (Hmax := hist_loop_max _ _ _ _ _ Hlen (hist_init_inv (Lats r) r)
                    hist_init_max Hs).
  destruct Hinv as (_ & _ & Hc & Hall & Hsum). destruct Hfirst as [_ Hz].
  rewrite hist_buckets_length in Hc.
  destruct (h_counts s) as [|c counts] eqn:Ec; [ discriminate Hc | ].
  change (counts = replicate 10 0) in Hz. subst counts.
  rewrite sumZ_cons, sumZ_replicate, Hi in Hsum.
  assert (c = Z.of_nat (length (Lats r))) as -> by lia.
  exists s. split; [ exact Hs | split; [ exact Ec | ] ].
  destruct Hmax as [Hin Hle']. rewrite Ec in Hin, Hle'.
  apply Forall_cons in Hle' as [Hge _].
  apply elem_of_cons in Hin as [Hin | Hin]; [ exact Hin | ].
  apply elem_of_replicate in Hin as [Hin _]. lia.
Qed.

Lemma X13_identical_latencies_witness :
  exists s,
    hist_loop 14 [0.2; 0.2; 0.2]%float
      (hist_buckets (set_extremes 0.2 0.2 (set_Lats [0.2; 0.2; 0.2]%float
                                             (newReport 3 [] ""))))
      hist_init = Returns s /\
    h_counts s = 3 :: replicate 10 0.
Proof.
  destruct (X13_identical_latencies
              (set_extremes 0.2 0.2 (set_Lats [0.2; 0.2; 0.2]%float (newReport 3 [] ""))))
    as (s & Hs & Hc & _).
  - split; [ | split; [ | split ] ]; try reflexivity.
    + repeat constructor.
    + repeat constructor.
  - reflexivity.
  - reflexivity.
  - simpl. lia.
  - exists s. split; [ exact Hs | exact Hc ].
Defined.

(** ** The lines of a run *)

Ltac in_formats :=
  repeat first [ apply list_elem_of_here | apply list_elem_of_further ].

Ltac not_in_formats H :=
  repeat (apply elem_of_cons in H as [H | H]; [ discriminate H | ]);
  apply elem_of_nil in H; contradiction.

Lemma printSummary_formats r :
  Forall (fun p => format p ∈ summary_formats) (printSummary r).
Proof.
  unfold printSummary. apply Forall_app. split.
  - repeat (constructor; [ cbn [format]; unfold summary_formats; in_formats | ]).
    constructor.
  - destruct (0 <? SizeTotal r); [ | constructor ].
    repeat (constructor; [ cbn [format]; unfold summary_formats; in_formats | ]).
    constructor.
Qed.

Lemma printStatusCodes_lines ord r :
  printStatusCodes ord r =
  Printf "\nStatus code distribution:\n" []
  :: map status_line (range_codes ord (StatusCodeDist r)).
Proof.
  unfold printStatusCodes. f_equal. apply map_ext. intros [code num]. reflexivity.
Qed.

Lemma printStatusCodes_formats ord r :
  Forall (fun p => format p ∈ status_formats) (printStatusCodes ord r).
Proof.
  rewrite printStatusCodes_lines. constructor.
  - cbn [format]. unfold status_formats. in_formats.
  - apply Forall_map, Forall_forall. intros entry _.
    cbn [format status_line]. unfold status_formats. in_formats.
Qed.

Lemma hist_lines_formats max buckets counts lines :
  hist_lines max buckets counts = Returns lines ->
  Forall (fun p => format p ∈ section_formats) lines.
Proof.
  revert counts lines. induction buckets as [|b buckets IH]; intros counts lines.
  - cbn [hist_lines]. intros [= <-]. constructor.
  - destruct counts as [|c counts]; [ discriminate | ].
    cbn [hist_lines]. unfold hist_line.
    destruct (strings_Repeat _ _) as [bar|]; cbn [mbind outcome_bind bind];
      [ | discriminate ].
    destruct (hist_lines max buckets counts) as [rest| |] eqn:Er;
      cbn [mbind outcome_bind bind]; try discriminate.
    intros [= <-]. constructor; [ | apply (IH counts rest Er) ].
    cbn [format]. unfold section_formats. in_formats.
Qed.

Lemma printHistogram_formats r hist :
  printHistogram r = Returns hist ->
  Forall (fun p => format p ∈ section_formats) hist.
Proof.
  unfold printHistogram. cbv zeta.
  destruct (hist_loop _ _ _ _) as [s| |]; cbn [mbind outcome_bind bind];
    try discriminate.
  destruct (hist_lines _ _ _) as [lines| |] eqn:El; cbn [mbind outcome_bind bind];
    try discriminate.
  intros [= <-]. constructor; [ | eapply hist_lines_formats, El ].
  cbn [format]. unfold section_formats. in_formats.
Qed.

Lemma printLatencies_formats r :
  Forall (fun p => format p ∈ section_formats) (printLatencies r).
Proof.
  unfold printLatencies. constructor.
  - cbn [format]. unfold section_formats. in_formats.
  - generalize (pctl_data (Lats r)). generalize pctls.
    induction l as [|p ps IH]; intros [|d data]; cbn [pctl_lines]; try constructor.
    destruct (0 <? d)%float; [ constructor | ]; try apply IH.
    cbn [format]. unfold section_formats. in_formats.
Qed.

Lemma printErrors_formats ord r :
  Forall (fun p => format p ∈ error_formats) (printErrors ord r).
Proof.
  rewrite printErrors_lines. constructor.
  - cbn [format]. unfold error_formats. in_formats.
  - apply Forall_map, Forall_forall. intros entry _.
    cbn [format error_line]. unfold error_formats. in_formats.
Qed.

(** What [print] writes in a mode other than [csv]: the summary, the
    status codes, the histogram and the percentiles, or nothing, then the
    errors, or nothing. *)
Lemma print_sections ord r r' out :
  print ord r = Returns (r', out) -> output r <> "csv" ->
  exists summary status sections errors,
    out = summary ++ status ++ sections ++ errors /\
    Forall (fun p => format p ∈ section_formats) sections /\
    (summary = printSummary r' /\ status = printStatusCodes ord r' /\
     output r <> "quiet" /\ Lats r <> []
     \/ summary = [] /\ status = [] /\ sections = [] /\
        (output r = "quiet" \/ Lats r = [])) /\
    (errors = printErrors ord r' /\ Errors r' <> ∅
     \/ errors = [] /\ Errors r' = ∅).
Proof.
  intros Hp Hcsv.
  apply print_shape in Hp as [(Hc & _) | (_ & details & Hd & ->)]; [ contradiction | ].
  assert (He : exists errors,
            (if (0 <? size (Errors r'))%nat then printErrors ord r' else []) = errors /\
            (errors = printErrors ord r' /\ Errors r' <> ∅
             \/ errors = [] /\ Errors r' = ∅)).
  { destruct (0 <? size (Errors r'))%nat eqn:Es; eexists; (split; [ reflexivity | ]).
    - left. split; [ reflexivity | ]. apply Nat.ltb_lt in Es.
      apply map_size_non_empty_iff. lia.
    - right. split; [ reflexivity | ]. apply Nat.ltb_ge in Es.
      apply map_size_empty_iff. lia. }
  destruct He as (errors & -> & He).
  apply printDetails_shape in Hd
    as [(Hl & _ & ->) | (x & l & s & Hl & _ & Hr & [[Hq ->] | (Hq & hist & Hh & ->)])];
    cbn [Lats output set_Lats] in *.
  - exists [], [], [], errors.
    split; [ reflexivity | split; [ constructor | split; [ | exact He ] ] ].
    right. repeat (split; [ reflexivity | ]). right.
    apply sort_Float64s_nil, Hl.
  - exists [], [], [], errors.
    split; [ reflexivity | split; [ constructor | split; [ | exact He ] ] ].
    right. auto.
  - exists (printSummary r'), (printStatusCodes ord r'), (hist ++ printLatencies r'), errors.
    split; [ rewrite <- !app_assoc; reflexivity | split; [ | split; [ | exact He ] ] ].
    + apply Forall_app.
      split; [ eapply printHistogram_formats, Hh | apply printLatencies_formats ].
    + left. split; [ reflexivity | split; [ reflexivity | split; [ exact Hq | ] ] ].
      intros E. rewrite E in Hl. discriminate Hl.
Qed.

Lemma not_elem_of_formats (fs : list string) (l : list printf) p :
  Forall (fun q => format q ∈ fs) l -> format p ∉ fs -> p ∉ l.
Proof.
  intros Hall Hp Hin. rewrite Forall_forall in Hall. apply Hp, Hall, Hin.
Qed.

(** What [aggregate] keeps of the drain. *)
Lemma aggregate_fields r total :
  Errors (aggregate r total) = Errors (drained r).1 /\
  StatusCodeDist (aggregate r total) = StatusCodeDist (drained r).1 /\
  SizeTotal (aggregate r total) = SizeTotal (drained r).1 /\
  output (aggregate r total) = output (drained r).1.
Proof. unfold aggregate, close. destruct (drained r). repeat split. Qed.

Lemma drain_output queue r c : output (drain queue (r, c)).1 = output r.
Proof.
  revert r c. induction queue as [|res queue IH]; intros r c; [ reflexivity | ].
  cbn [drain]. unfold collect. destruct (err res); rewrite IH; reflexivity.
Qed.

Lemma aggregate_new_length queue output total :
  length (Lats (aggregate (newReport (Z.of_nat (length queue)) queue output) total))
  = count no_error queue.
Proof.
  rewrite aggregate_Lats. unfold drained. cbn [results newReport].
  rewrite drain_Lats. cbn [Lats]. rewrite app_nil_l, length_map. reflexivity.
Qed.

(** The lines of the error distribution among what [print] writes. *)
Lemma print_error_line ord r r' out e n :
  fair_order ord -> print ord r = Returns (r', out) -> output r <> "csv" ->
  Printf "  [%d]\t%s\n" [VInt n; VString e] ∈ out <-> Errors r !! e = Some n.
Proof.
  intros [_ Hfair] Hp Hcsv.
  assert (HE : Errors r' = Errors r).
  { destruct (print_fields _ _ _ _ Hp) as (f & s & ->). reflexivity. }
  destruct (print_sections _ _ _ _ Hp Hcsv)
    as (summary & status & sections & errors & -> & Hsec & Hsum & Herr).
  assert (H1 : Printf "  [%d]\t%s\n" [VInt n; VString e] ∉ summary).
  { destruct Hsum as [(-> & _) | (-> & _)]; [ | apply not_elem_of_nil ].
    eapply not_elem_of_formats; [ apply printSummary_formats | ].
    cbn [format]. unfold summary_formats. intros H. not_in_formats H. }
  assert (H2 : Printf "  [%d]\t%s\n" [VInt n; VString e] ∉ status).
  { destruct Hsum as [(_ & -> & _) | (_ & -> & _)]; [ | apply not_elem_of_nil ].
    eapply not_elem_of_formats; [ apply printStatusCodes_formats | ].
    cbn [format]. unfold status_formats. intros H. not_in_formats H. }
  assert (H3 : Printf "  [%d]\t%s\n" [VInt n; VString e] ∉ sections).
  { eapply not_elem_of_formats; [ exact Hsec | ].
    cbn [format]. unfold section_formats. intros H. not_in_formats H. }
  rewrite !elem_of_app. rewrite <- HE.
  destruct Herr as [[-> Hne] | [-> He]].
  - rewrite printErrors_lines, elem_of_cons.
    change (Printf "  [%d]\t%s\n" [VInt n; VString e]) with (error_line (e, n)) in *.
    change (map error_line ?l) with (error_line <$> l).
    rewrite (list_elem_of_fmap_inj error_line (Inj0 := error_line_inj)).
    rewrite (Hfair (Errors r')), elem_of_map_to_list.
    split; [ intros [?|[?|[?|[Hd|?]]]]; try contradiction; [ discriminate Hd | assumption ]
           | intros ?; do 3 right; right; assumption ].
  - rewrite He, lookup_empty.
    split; [ intros [?|[?|[?|H]]]; try contradiction; apply elem_of_nil in H; contradiction
           | discriminate ].
Qed.

(** X14: in a run whose mode is not [csv], the error distribution shows the
    line [[n] e] exactly when [n] results, one at least, carry the error [e]:
    one line for each description, with the number of its results. *)
Theorem X14_error_lines (ord : map_order) (queue : list result) (output : string)
    (total : Z) (r : Report) (out : list printf) (e : string) (n : Z) :
  fair_order ord -> Z.of_nat (length queue) < 2 ^ 63 -> output <> "csv" ->
  report_of ord queue output total = Returns (r, out) ->
  Printf "  [%d]\t%s\n" [VInt n; VString e] ∈ out
  <-> n = Z.of_nat (count (with_error e) queue) /\ 0 < n.
Proof.
  intros Hfair Hlen Hcsv Hp. unfold report_of, finalize in Hp.
  destruct (aggregate_fields (newReport (Z.of_nat (length queue)) queue output) total)
    as (HE & _ & _ & Hout).
  rewrite (print_error_line ord _ r out e n Hfair Hp), HE.
  - apply drained_error_tally, Hlen.
  - rewrite Hout. unfold drained. rewrite drain_output. exact Hcsv.
Qed.

Lemma X14_error_lines_witness :
  exists r out,
    report_of key_order [Result (Some "timeout") 0 0 0; Result None 200 50000000 100;
                         Result (Some "timeout") 0 0 0] "" Second
    = Returns (r, out) /\
    Printf "  [%d]\t%s\n" [VInt 2; VString "timeout"] ∈ out.
Proof.
  eexists _, _. split; [ vm_compute; reflexivity | ].
  refine (proj2 (X14_error_lines key_order
                   [Result (Some "timeout") 0 0 0; Result None 200 50000000 100;
                    Result (Some "timeout") 0 0 0] "" Second _ _ "timeout" 2 _ _ _ _) _).
  - split; intros m; reflexivity.
  - vm_compute. reflexivity.
  - discriminate.
  - vm_compute. reflexivity.
  - split; [ reflexivity | lia ].
Defined.

Lemma status_line_inj : Inj (=) (=) status_line.
Proof. intros [c n] [c' n']. unfold status_line. simpl. congruence. Qed.

(** The lines of the status codes among what [print] writes. *)
Lemma print_status_line ord r r' out code n :
  fair_order ord -> print ord r = Returns (r', out) -> output r <> "csv" ->
  Printf "  [%d]\t%d responses\n" [VInt code; VInt n] ∈ out
  <-> output r <> "quiet" /\ Lats r <> [] /\ StatusCodeDist r !! code = Some n.
Proof.
  intros [Hfair _] Hp Hcsv.
  assert (HE : StatusCodeDist r' = StatusCodeDist r).
  { destruct (print_fields _ _ _ _ Hp) as (f & s & ->). reflexivity. }
  destruct (print_sections _ _ _ _ Hp Hcsv)
    as (summary & status & sections & errors & -> & Hsec & Hsum & Herr).
  assert (H1 : Printf "  [%d]\t%d responses\n" [VInt code; VInt n] ∉ summary).
  { destruct Hsum as [(-> & _) | (-> & _)]; [ | apply not_elem_of_nil ].
    eapply not_elem_of_formats; [ apply printSummary_formats | ].
    cbn [format]. unfold summary_formats. intros H. not_in_formats H. }
  assert (H3 : Printf "  [%d]\t%d responses\n" [VInt code; VInt n] ∉ sections).
  { eapply not_elem_of_formats; [ exact Hsec | ].
    cbn [format]. unfold section_formats. intros H. not_in_formats H. }
  assert (H4 : Printf "  [%d]\t%d responses\n" [VInt code; VInt n] ∉ errors).
  { destruct Herr as [[-> _] | [-> _]]; [ | apply not_elem_of_nil ].
    eapply not_elem_of_formats; [ apply printErrors_formats | ].
    cbn [format]. unfold error_formats. intros H. not_in_formats H. }
  rewrite !elem_of_app. rewrite <- HE.
  destruct Hsum as [(_ & -> & Hq & Hl) | (_ & -> & _ & Hno)].
  - rewrite printStatusCodes_lines, elem_of_cons.
    change (Printf "  [%d]\t%d responses\n" [VInt code; VInt n])
      with (status_line (code, n)) in *.
    change (map status_line ?l) with (status_line <$> l).
    rewrite (list_elem_of_fmap_inj status_line (Inj0 := status_line_inj)).
    rewrite (Hfair (StatusCodeDist r')), elem_of_map_to_list.
    split; [ intros [?|[[Hd|?]|[?|?]]]; try contradiction; [ discriminate Hd | auto ]
           | intros (_ & _ & ?); right; left; right; assumption ].
  - split; [ intros [?|[H|[?|?]]]; try contradiction; apply elem_of_nil in H; contradiction | ].
    intros (Hq & Hl & _). destruct Hno; contradiction.
Qed.

Lemma count_with_status_le code queue :
  (count (with_status code) queue <= count no_error queue)%nat.
Proof.
  induction queue as [|res queue IH]; [ reflexivity | ].
  rewrite !count_cons.
  destruct (with_status code res) eqn:E, (no_error res) eqn:E2; try lia.
  unfold with_status in E. rewrite E2 in E. discriminate E.
Qed.

(** X15: in a run whose mode is neither [csv] nor [quiet], the status code
    distribution shows the line of a code with the count [n] exactly when
    [n] results without an error, one at least, carry this code: one line
    for each code that was answered, with the number of its answers. *)
Theorem X15_status_lines (ord : map_order) (queue : list result) (output : string)
    (total : Z) (r : Report) (out : list printf) (code n : Z) :
  fair_order ord -> Z.of_nat (length queue) < 2 ^ 63 ->
  output <> "csv" -> output <> "quiet" ->
  report_of ord queue output total = Returns (r, out) ->
  Printf "  [%d]\t%d responses\n" [VInt code; VInt n] ∈ out
  <-> n = Z.of_nat (count (with_status code) queue) /\ 0 < n.
Proof.
  intros Hfair Hlen Hcsv Hquiet Hp. unfold report_of, finalize in Hp.
  destruct (aggregate_fields (newReport (Z.of_nat (length queue)) queue output) total)
    as (_ & HS & _ & Hout).
  rewrite (print_status_line ord _ r out code n Hfair Hp), HS, Hout.
  - unfold drained at 1. rewrite drain_output.
    rewrite (drained_status_tally queue output code n Hlen).
    split; [ intros (_ & _ & H); exact H | intros H; split; [ exact Hquiet | split; [ | exact H ] ] ].
    intros E. apply (f_equal length) in E. rewrite aggregate_new_length in E.
    assert (Hle := count_with_status_le code queue). cbn [length] in E. lia.
  - rewrite Hout. unfold drained. rewrite drain_output. exact Hcsv.
Qed.

Lemma X15_status_lines_witness :
  exists r out,
    report_of key_order [Result None 200 50000000 100; Result (Some "timeout") 200 0 0;
                         Result None 200 70000000 0] "" Second
    = Returns (r, out) /\
    Printf "  [%d]\t%d responses\n" [VInt 200; VInt 2] ∈ out.
Proof.
  eexists _, _. split; [ vm_compute; reflexivity | ].
  refine (proj2 (X15_status_lines key_order
                   [Result None 200 50000000 100; Result (Some "timeout") 200 0 0;
                    Result None 200 70000000 0] "" Second _ _ 200 2 _ _ _ _ _) _).
  - split; intros m; reflexivity.
  - vm_compute. reflexivity.
  - discriminate.
  - discriminate.
  - vm_compute. reflexivity.
  - split; [ reflexivity | lia ].
Defined.

(** The lines of the size of the responses in the summary. *)
Lemma printSummary_size r n :
  Printf "  Total Data Recieved:\t%d bytes.\n" [VInt n] ∈ printSummary r
  <-> n = SizeTotal r /\ 0 < n.
Proof.
  unfold printSummary. rewrite elem_of_app. split.
  - intros [H | H].
    + repeat (apply elem_of_cons in H as [H | H]; [ discriminate H | ]).
      apply elem_of_nil in H. contradiction.
    + destruct (0 <? SizeTotal r) eqn:E; [ | apply elem_of_nil in H; contradiction ].
      apply Z.ltb_lt in E.
      apply elem_of_cons in H as [H | H]; [ injection H as ->; auto | ].
      apply elem_of_cons in H as [H | H]; [ discriminate H | ].
      apply elem_of_nil in H. contradiction.
  - intros [-> Hpos]. right. apply Z.ltb_lt in Hpos. rewrite Hpos. left.
Qed.

Lemma received_no_result queue : count no_error queue = 0%nat -> received queue = 0.
Proof.
  induction queue as [|res queue IH]; [ reflexivity | ].
  rewrite count_cons, received_cons.
  destruct (no_error res); cbn [andb]; [ lia | ]. intros H. rewrite IH; lia.
Qed.

(** X16: in a run whose mode is neither [csv] nor [quiet], the summary shows
    the line of the data received, with [n] bytes, exactly when [n] is the
    sum of the positive content lengths of the results without an error and
    is not zero (the sum fits an [int64]): when no response has a positive
    length the line is left out. *)
Theorem X16_data_received_line (ord : map_order) (queue : list result)
    (output : string) (total : Z) (r : Report) (out : list printf) (n : Z) :
  received queue < 2 ^ 63 -> output <> "csv" -> output <> "quiet" ->
  report_of ord queue output total = Returns (r, out) ->
  Printf "  Total Data Recieved:\t%d bytes.\n" [VInt n] ∈ out
  <-> n = received queue /\ 0 < n.
Proof.
  intros Hrec Hcsv Hquiet Hp. unfold report_of, finalize in Hp.
  destruct (aggregate_fields (newReport (Z.of_nat (length queue)) queue output) total)
    as (_ & _ & HS & Hout).
  unfold drained in HS, Hout. cbn [results newReport] in HS, Hout.
  rewrite drain_output in Hout. simpl in Hout.
  rewrite (drain_SizeTotal queue _ 0) in HS by (cbn [SizeTotal newReport]; lia).
  cbn [SizeTotal newReport] in HS.
  assert (HS' : SizeTotal r = received queue).
  { destruct (print_fields _ _ _ _ Hp) as (f & s & ->).
    cbn [SizeTotal set_extremes set_Lats]. rewrite HS. lia. }
  destruct (print_sections _ _ _ _ Hp ltac:(rewrite Hout; exact Hcsv))
    as (summary & status & sections & errors & -> & Hsec & Hsum & Herr).
  assert (H2 : Printf "  Total Data Recieved:\t%d bytes.\n" [VInt n] ∉ status).
  { destruct Hsum as [(_ & -> & _) | (_ & -> & _)]; [ | apply not_elem_of_nil ].
    eapply not_elem_of_formats; [ apply printStatusCodes_formats | ].
    cbn [format]. unfold status_formats. intros H. not_in_formats H. }
  assert (H3 : Printf "  Total Data Recieved:\t%d bytes.\n" [VInt n] ∉ sections).
  { eapply not_elem_of_formats; [ exact Hsec | ].
    cbn [format]. unfold section_formats. intros H. not_in_formats H. }
  assert (H4 : Printf "  Total Data Recieved:\t%d bytes.\n" [VInt n] ∉ errors).
  { destruct Herr as [[-> _] | [-> _]]; [ | apply not_elem_of_nil ].
    eapply not_elem_of_formats; [ apply printErrors_formats | ].
    cbn [format]. unfold error_formats. intros H. not_in_formats H. }
  rewrite !elem_of_app.
  destruct Hsum as [(-> & _) | (-> & _ & _ & [Hq | Hl])].
  - rewrite printSummary_size, HS'.
    split; [ intros [?|[?|[?|?]]]; try contradiction; assumption | auto ].
  - rewrite Hout in Hq. contradiction.
  - apply (f_equal length) in Hl. rewrite aggregate_new_length in Hl. cbn [length] in Hl.
    rewrite (received_no_result queue Hl).
    split; [ intros [H|[?|[?|?]]]; try contradiction; apply elem_of_nil in H; contradiction
           | intros [-> H]; lia ].
Qed.

Lemma X16_data_received_line_witness :
  exists r out,
    report_of key_order [Result None 200 50000000 100; Result (Some "timeout") 0 0 700;
                         Result None 200 70000000 20] "" Second
    = Returns (r, out) /\
    Printf "  Total Data Recieved:\t%d bytes.\n" [VInt 120] ∈ out.
Proof.
  eexists _, _. split; [ vm_compute; reflexivity | ].
  refine (proj2 (X16_data_received_line key_order
                   [Result None 200 50000000 100; Result (Some "timeout") 0 0 700;
                    Result None 200 70000000 20] "" Second _ _ 120 _ _ _ _) _).
  - vm_compute. reflexivity.
  - discriminate.
  - discriminate.
  - vm_compute. reflexivity.
  - split; [ reflexivity | lia ].
Defined.

(** ** The whole run *)

(** X17: a run returns, in every mode and for every order of the maps: the
    loop of the histogram is left and nothing panics, as long as forty
    times the number of the results fits an [int]; the latencies of the
    report it returns are numbers, the durations in seconds of the results
    without an error, sorted. *)
Theorem X17_run_returns (ord : map_order) (queue : list result) (output : string)
    (total : Z) :
  40 * Z.of_nat (length queue) < 2 ^ 63 ->
  exists r out,
    report_of ord queue output total = Returns (r, out) /\
    numbers (Lats r) /\
    Lats r = sort_Float64s
               (map (fun res => Seconds (duration res))
                  (filter (fun res => no_error res = true) queue)).
Proof.
  intros Hlen. unfold report_of, finalize.
  assert (Hn : numbers (Lats (aggregate (newReport (Z.of_nat (length queue)) queue output) total)))
    by (apply aggregate_numbers; constructor).
  assert (Hl := aggregate_new_length queue output total).
  assert (Hc := length_filter (fun res => no_error res = true) queue).
  unfold count in Hl.
  destruct (print_returns ord _ Hn ltac:(lia)) as (r & out & Hp).
  exists r, out. split; [ exact Hp | ].
  apply print_Lats in Hp. rewrite Hp. split.
  - apply sort_Float64s_numbers, Hn.
  - rewrite aggregate_Lats. unfold drained. cbn [results newReport].
    rewrite drain_Lats. reflexivity.
Qed.

Lemma X17_run_returns_witness :
  exists r out,
    report_of key_order scenario_queue "" Second = Returns (r, out) /\
    numbers (Lats r).
Proof.
  destruct (X17_run_returns key_order scenario_queue "" Second) as (r & out & Hp & Hn & _).
  - vm_compute. reflexivity.
  - exists r, out. split; [ exact Hp | exact Hn ].
Defined.

(** The running total of the durations after the drain. *)
Lemma drain_AvgTotal queue r c :
  AvgTotal (drain queue (r, c)).1
  = foldl (fun a x => (a + x)%float) (AvgTotal r)
      (map (fun res => Seconds (duration res))
         (filter (fun res => no_error res = true) queue)).
Proof.
  revert r c. induction queue as [|res queue IH]; intros r c; [ reflexivity | ].
  cbn [drain]. rewrite filter_cons. destruct res as [[e|] sc d cl];
    destruct (decide _) as [Hd|Hd]; try discriminate Hd;
    try (exfalso; apply Hd; reflexivity);
    unfold collect; cbn [err]; rewrite IH; reflexivity.
Qed.

(** X18: [Average] after [finalize] is the sum of the latencies, added one
    by one in the order of arrival, divided by their number; when no result
    is without an error it is the not-a-number that 0/0 gives, with no
    latency in the report. *)
Theorem X18_average (queue : list result) (output : string) (total : Z) :
  let r := aggregate (newReport (Z.of_nat (length queue)) queue output) total in
  Average r
  = (foldl (fun a x => (a + x)%float) 0%float (Lats r)
     / float64_of_int (Z.of_nat (length (Lats r))))%float /\
  (count no_error queue = 0%nat -> Lats r = [] /\ Average r = nan).
Proof.
  intros r.
  assert (Hl : Lats r = map (fun res => Seconds (duration res))
                          (filter (fun res => no_error res = true) queue)).
  { subst r. rewrite aggregate_Lats. unfold drained. cbn [results newReport].
    rewrite drain_Lats. reflexivity. }
  assert (Ha : Average r
               = (foldl (fun a x => (a + x)%float) 0%float (Lats r)
                  / float64_of_int (Z.of_nat (length (Lats r))))%float).
  { rewrite Hl. subst r. unfold aggregate, close, drained. cbn [results newReport].
    assert (H1 := drain_AvgTotal queue (newReport (Z.of_nat (length queue)) queue output) 0).
    assert (H2 := drain_Lats queue (newReport (Z.of_nat (length queue)) queue output) 0).
    destruct (drain queue _) as [r1 c1]. cbn [fst] in H1, H2. cbn [Average].
    rewrite H1, H2. reflexivity. }
  split; [ exact Ha | ]. intros Hc.
  assert (Hnil : Lats r = []).
  { apply length_zero_iff_nil. subst r. rewrite aggregate_new_length. exact Hc. }
  split; [ exact Hnil | ]. rewrite Ha, Hnil. reflexivity.
Qed.

(** ** The bucket of each sample *)

Lemma bucket_of_Some buckets x (k : nat) :
  bucket_of buckets x = Some k <->
  exists b, buckets !! k = Some b /\ (x <=? b)%float = true /\
            forall (j : nat) y, buckets !! j = Some y -> (j < k)%nat ->
                                (x <=? y)%float <> true.
Proof.
  unfold bucket_of. split.
  - destruct (list_find _ buckets) as [[k' b]|] eqn:E; [ | discriminate ].
    intros [= <-]. apply list_find_Some in E. exists b. exact E.
  - intros (b & Hb & Hx & Hfirst).
    rewrite (proj2 (list_find_Some _ buckets k b)); [ reflexivity | ].
    auto.
Qed.

Lemma bucket_count_snoc buckets lats x k :
  bucket_count buckets (lats ++ [x]) k
  = bucket_count buckets lats k
    + (if decide (bucket_of buckets x = Some k) then 1 else 0).
Proof.
  unfold bucket_count. rewrite filter_app, length_app.
  rewrite filter_cons, filter_nil. destruct (decide _); cbn [length]; lia.
Qed.

(** An iteration of the loop keeps the counts those of the buckets of the
    samples before [i]. *)
Lemma hist_step_tally lats buckets s s' :
  Z.of_nat (length lats) < 2 ^ 63 ->
  StronglySorted (fun x y => (x <=? y)%float = true) lats ->
  hist_inv lats buckets s /\ hist_tally lats buckets s ->
  hist_step lats buckets s = HNext s' ->
  hist_inv lats buckets s' /\ hist_tally lats buckets s'.
Proof.
  intros Hlen Hsorted [Hinv [Hcount Hcursor]] Hstep.
  split; [ apply (hist_step_next _ _ _ _ Hlen Hinv Hstep) | ].
  destruct Hinv as (Hi & Hbi & Hc & Hall & Hsum). revert Hstep. unfold hist_step.
  destruct (lats !! h_i s) as [x|] eqn:Hx; [ | discriminate ].
  assert (Hlt := lookup_lt_Some _ _ _ Hx).
  destruct (buckets !! h_bi s) as [b|] eqn:Hb; [ | discriminate ].
  destruct (h_counts s !! h_bi s) as [c|] eqn:Hcb; [ | discriminate ].
  destruct (sumZ_lookup_le _ _ _ Hall Hcb) as [Hc0 Hcs].
  assert (Hbl := lookup_lt_Some _ _ _ Hcb).
  assert (Hxin : x ∈ drop (h_i s) lats).
  { apply (list_elem_of_lookup_2 _ 0%nat). rewrite lookup_drop, Nat.add_0_r. exact Hx. }
  destruct (x <=? b)%float eqn:Hxb.
  - intros [= <-]. unfold hist_tally. cbn [h_i h_bi h_counts].
    rewrite wrap64_small by lia.
    assert (Hbucket : bucket_of buckets x = Some (h_bi s)).
    { apply bucket_of_Some. exists b. split; [ exact Hb | split; [ exact Hxb | ] ].
      intros j y Hy Hj E. rewrite (Hcursor j y x Hj Hy Hxin) in E. discriminate E. }
    split.
    + intros k c' Hk. rewrite (take_S_r _ _ _ Hx), bucket_count_snoc, Hbucket.
      destruct (decide (h_bi s = k)) as [<-|Hne].
      * rewrite list_lookup_insert_eq in Hk by exact Hbl. injection Hk as <-.
        rewrite (Hcount _ _ Hcb). destruct (decide _); [ reflexivity | congruence ].
      * rewrite list_lookup_insert_ne in Hk by exact Hne.
        rewrite (Hcount _ _ Hk). destruct (decide _); [ congruence | lia ].
    + intros k b' x' Hk Hb' Hx'. apply (Hcursor k b' x' Hk Hb').
      apply list_elem_of_lookup_1 in Hx' as [j Hj]. rewrite lookup_drop in Hj.
      apply (list_elem_of_lookup_2 _ (S j)). rewrite lookup_drop.
      replace (h_i s + S j)%nat with (S (h_i s) + j)%nat by lia. exact Hj.
  - destruct (h_bi s <? length buckets - 1)%nat; [ | discriminate ].
    intros [= <-]. unfold hist_tally. cbn [h_i h_bi h_counts].
    split; [ exact Hcount | ].
    intros k b' x' Hk Hb' Hx'.
    destruct (decide (k = h_bi s)) as [->|Hne];
      [ | apply (Hcursor k b' x'); [ lia | exact Hb' | exact Hx' ] ].
    rewrite Hb in Hb'. injection Hb' as <-.
    apply list_elem_of_lookup_1 in Hx' as [j Hj]. rewrite lookup_drop in Hj.
    destruct j as [|j].
    + rewrite Nat.add_0_r, Hx in Hj. injection Hj as <-. exact Hxb.
    + assert (Hxx : (x <=? x')%float = true)
        by (apply (StronglySorted_lookup_lt
                     (fun x y => (x <=? y)%float = true) lats
                     (h_i s) (h_i s + S j) x x' Hsorted Hx Hj); lia).
      destruct (x' <=? b)%float eqn:E; [ | reflexivity ].
      rewrite (leb_trans _ _ _ Hxx E) in Hxb. discriminate Hxb.
Qed.

(** X19: on a report that is ready, the loop of the histogram returns, for
    each of the eleven buckets, the number of the latencies whose first edge
    not exceeded is the edge of this bucket: each sample is counted in the
    first bucket whose edge it does not exceed. *)
Theorem X19_histogram_buckets (r : Report) :
  ready r -> Z.of_nat (length (Lats r)) < 2 ^ 63 ->
  exists s,
    hist_loop (hist_fuel (Lats r) (hist_buckets r)) (Lats r) (hist_buckets r)
      hist_init = Returns s /\
    h_counts s
    = map (bucket_count (hist_buckets r) (Lats r)) (seq 0 11) /\
    Forall (fun x => exists k : nat, bucket_of (hist_buckets r) x = Some k /\ (k < 11)%nat)
      (Lats r).
Proof.
  intros Hr Hlen.
  destruct (hist_loop_ready r Hr Hlen) as (s & Hs & Hinv & Hi).
  assert (Hsorted : StronglySorted (fun x y => (x <=? y)%float = true) (Lats r)).
  { destruct Hr as (Hn & Hsort & _). apply sorted_numbers_leb; assumption. }
  assert (Ht : hist_inv (Lats r) (hist_buckets r) s /\ hist_tally (Lats r) (hist_buckets r) s).
  { apply (hist_loop_invariant
             (fun s => hist_inv (Lats r) (hist_buckets r) s
                       /\ hist_tally (Lats r) (hist_buckets r) s)
             _ _ _ _ _ (fun s1 s2 => hist_step_tally _ _ s1 s2 Hlen Hsorted)) in Hs.
    - exact Hs.
    - split; [ apply hist_init_inv | ]. split.
      + intros k c Hk. cbn [h_i hist_init take]. unfold bucket_count.
        cbn [filter list_filter length]. cbn [h_counts hist_init] in Hk.
        apply lookup_replicate in Hk as [-> _]. reflexivity.
      + intros k b x Hk. cbn [h_bi hist_init] in Hk. lia. }
  destruct Ht as [_ [Hcount _]]. destruct Hinv as (_ & _ & Hc & _ & _).
  rewrite hist_buckets_length in Hc. rewrite Hi, firstn_all in Hcount.
  exists s. split; [ exact Hs | split ].
  - apply list_eq. intros k.
    destruct (h_counts s !! k) as [c|] eqn:Hk.
    + assert (Hlt := lookup_lt_Some _ _ _ Hk). rewrite Hc in Hlt.
      rewrite (Hcount k c Hk).
      change (map ?f ?l) with (f <$> l). rewrite list_lookup_fmap.
      rewrite lookup_seq_lt by exact Hlt. reflexivity.
    + apply lookup_ge_None in Hk. rewrite Hc in Hk. symmetry.
      apply lookup_ge_None. rewrite length_map, length_seq. exact Hk.
  - assert (Hle := ready_le_slowest r Hr). eapply Forall_impl; [ exact Hle | ].
    intros x Hx. cbn in Hx.
    destruct (list_find (fun b => (x <=? b)%float = true) (hist_buckets r))
      as [[k b]|] eqn:E.
    + exists k. unfold bucket_of. rewrite E. split; [ reflexivity | ].
      apply list_find_Some in E as (Hb & _). apply lookup_lt_Some in Hb.
      rewrite hist_buckets_length in Hb. exact Hb.
    + exfalso. apply list_find_None in E. rewrite Forall_forall in E.
      apply (E (Slowest r)); [ | exact Hx ].
      eapply list_elem_of_lookup_2. apply hist_buckets_last.
Qed.

Lemma X19_histogram_buckets_witness :
  let r := set_extremes 0.1 0.5 (set_Lats scenario_lats (newReport 5 [] "")) in
  exists s,
    hist_loop (hist_fuel (Lats r) (hist_buckets r)) (Lats r) (hist_buckets r)
      hist_init = Returns s /\
    h_counts s = [1; 0; 0; 1; 0; 1; 0; 0; 1; 0; 1].
Proof.
  destruct (X19_histogram_buckets
              (set_extremes 0.1 0.5 (set_Lats scenario_lats (newReport 5 [] ""))))
    as (s & Hs & Hc & _).
  - split; [ | split; [ | split ] ]; try reflexivity.
    + repeat constructor.
    + repeat constructor.
  - simpl. lia.
  - exists s. split; [ exact Hs | ]. rewrite Hc. vm_compute. reflexivity.
Defined.

(** ** The layout of the report *)

Lemma headings_app out1 out2 : headings (out1 ++ out2) = headings out1 ++ headings out2.
Proof. unfold headings. rewrite filter_app, map_app. reflexivity. Qed.

Lemma headings_none out :
  Forall (fun p => is_heading p = false) out -> headings out = [].
Proof.
  unfold headings. induction 1 as [|p out Hp Hall IH]; [ reflexivity | ].
  rewrite filter_cons. destruct (decide _); [ congruence | exact IH ].
Qed.

Lemma headings_cons_heading p out :
  is_heading p = true -> headings (p :: out) = format p :: headings out.
Proof.
  intros Hp. unfold headings. rewrite filter_cons.
  destruct (decide _); [ reflexivity | contradiction ].
Qed.

Lemma headings_printSummary r : headings (printSummary r) = ["\nSummary:\n"].
Proof.
  unfold printSummary. rewrite headings_app.
  rewrite (headings_none (if 0 <? SizeTotal r then _ else _))
    by (destruct (0 <? SizeTotal r); repeat constructor).
  reflexivity.
Qed.

Lemma headings_printStatusCodes ord r :
  headings (printStatusCodes ord r) = ["\nStatus code distribution:\n"].
Proof.
  rewrite printStatusCodes_lines, headings_cons_heading by reflexivity.
  rewrite headings_none; [ reflexivity | ].
  apply Forall_map, Forall_forall. intros entry _. reflexivity.
Qed.

Lemma headings_printErrors ord r :
  headings (printErrors ord r) = ["\nError distribution:\n"].
Proof.
  rewrite printErrors_lines, headings_cons_heading by reflexivity.
  rewrite headings_none; [ reflexivity | ].
  apply Forall_map, Forall_forall. intros entry _. reflexivity.
Qed.

Lemma headings_printLatencies r :
  headings (printLatencies r) = ["\nLatency distribution:\n"].
Proof.
  unfold printLatencies. rewrite headings_cons_heading by reflexivity.
  rewrite headings_none; [ reflexivity | ].
  generalize (pctl_data (Lats r)). generalize pctls.
  induction l as [|p ps IH]; intros [|d data]; cbn [pctl_lines]; try constructor.
  destruct (0 <? d)%float; [ constructor; [ reflexivity | ] | ]; apply IH.
Qed.

Lemma hist_lines_no_heading max buckets counts lines :
  hist_lines max buckets counts = Returns lines ->
  Forall (fun p => is_heading p = false) lines.
Proof.
  revert counts lines. induction buckets as [|b buckets IH]; intros counts lines.
  - cbn [hist_lines]. intros [= <-]. constructor.
  - destruct counts as [|c counts]; [ discriminate | ].
    cbn [hist_lines]. unfold hist_line.
    destruct (strings_Repeat _ _) as [bar|]; cbn [mbind outcome_bind bind];
      [ | discriminate ].
    destruct (hist_lines max buckets counts) as [rest| |] eqn:Er;
      cbn [mbind outcome_bind bind]; try discriminate.
    intros [= <-]. constructor; [ reflexivity | apply (IH counts rest Er) ].
Qed.

Lemma headings_printHistogram r hist :
  printHistogram r = Returns hist -> headings hist = ["\nResponse time histogram:\n"].
Proof.
  unfold printHistogram. cbv zeta.
  destruct (hist_loop _ _ _ _) as [s| |]; cbn [mbind outcome_bind bind];
    try discriminate.
  destruct (hist_lines _ _ _) as [lines| |] eqn:El; cbn [mbind outcome_bind bind];
    try discriminate.
  intros [= <-]. rewrite headings_cons_heading by reflexivity.
  rewrite headings_none; [ reflexivity | eapply hist_lines_no_heading, El ].
Qed.

(** X20: the headings that [print] writes, in their order.  In the [csv]
    mode there is none.  Otherwise the summary, the status codes, the
    histogram and the percentiles come in this order, when there is a
    latency and the mode is not [quiet]; the error distribution comes last,
    when there is an error. *)
Theorem X20_layout (ord : map_order) (r r' : Report) (out : list printf) :
  print ord r = Returns (r', out) ->
  headings out
  = (if decide (output r = "csv") then []
     else
       (if decide (output r = "quiet") then []
        else match Lats r with
             | [] => []
             | _ :: _ => [ "\nSummary:\n"; "\nStatus code distribution:\n";
                           "\nResponse time histogram:\n";
                           "\nLatency distribution:\n" ]
             end)
       ++ (if decide (Errors r = ∅) then [] else [ "\nError distribution:\n" ])).
Proof.
  intros Hp.
  assert (HE : Errors r' = Errors r).
  { destruct (print_fields _ _ _ _ Hp) as (f & s & ->). reflexivity. }
  assert (Hshape := print_shape _ _ _ _ Hp).
  destruct (decide (output r = "csv")) as [Hcsv|Hcsv].
  - destruct Hshape as [(_ & Hr & ->) | (Hn & _)]; [ | contradiction ].
    rewrite printCSV_imap. apply headings_none.
    apply Forall_forall. intros p Hin. apply list_elem_of_lookup_1 in Hin as [i Hi].
    rewrite list_lookup_imap in Hi. destruct (Lats r' !! i); [ | discriminate Hi ].
    injection Hi as <-. reflexivity.
  - destruct Hshape as [(Hc & _) | (_ & details & Hd & ->)]; [ contradiction | ].
    rewrite headings_app. f_equal.
    + apply printDetails_shape in Hd
        as [(Hl & _ & ->) | (x & l & s & Hl & _ & Hr & [[Hq ->] | (Hq & hist & Hh & ->)])];
        cbn [Lats output set_Lats] in *.
      * apply sort_Float64s_nil in Hl. rewrite Hl.
        destruct (decide _); reflexivity.
      * destruct (decide _); [ reflexivity | contradiction ].
      * destruct (decide _) as [|_]; [ contradiction | ].
        destruct (Lats r) as [|y l'] eqn:El; [ discriminate Hl | ].
        rewrite !headings_app, headings_printSummary, headings_printStatusCodes,
          (headings_printHistogram _ _ Hh), headings_printLatencies. reflexivity.
    + rewrite HE. destruct (decide (Errors r = ∅)) as [He|He].
      * rewrite He. reflexivity.
      * apply map_size_non_empty_iff in He.
        destruct (0 <? size (Errors r))%nat eqn:Es; [ | apply Nat.ltb_ge in Es; lia ].
        apply headings_printErrors.
Qed.

Lemma X20_layout_witness :
  exists r out,
    report_of key_order [Result None 200 50000000 100; Result (Some "timeout") 0 0 0]
      "" Second = Returns (r, out) /\
    headings out = [ "\nSummary:\n"; "\nStatus code distribution:\n";
                     "\nResponse time histogram:\n"; "\nLatency distribution:\n";
                     "\nError distribution:\n" ].
Proof.
  eexists _, _. split; [ vm_compute; reflexivity | ].
  etransitivity;
    [ eapply (X20_layout key_order
                (aggregate (newReport 2 [Result None 200 50000000 100;
                                         Result (Some "timeout") 0 0 0] "") Second));
      vm_compute; reflexivity
    | vm_compute; reflexivity ].
Defined.

(** X21: the two rates of [finalize].  [RPS] divides the number of the
    results without an error, whatever their status, by the seconds of the
    total duration; [SuccessRPS] divides the number of those whose status is
    in [200,300), which is at most the former. *)
Theorem X21_rates (queue : list result) (output : string) (total : Z) :
  Z.of_nat (length queue) < 2 ^ 63 ->
  let r := aggregate (newReport (Z.of_nat (length queue)) queue output) total in
  RPS r = (float64_of_int (Z.of_nat (count no_error queue)) / Seconds total)%float /\
  SuccessRPS r
  = (float64_of_int (Z.of_nat (count is_success queue)) / Seconds total)%float /\
  (count is_success queue <= count no_error queue)%nat.
Proof.
  intros Hlen r.
  destruct (aggregate_rates (newReport (Z.of_nat (length queue)) queue output) total)
    as [H1 H2]. fold r in H1, H2.
  split; [ | split ].
  - rewrite H1. subst r. rewrite aggregate_new_length. reflexivity.
  - rewrite H2. unfold drained. cbn [results newReport].
    destruct (newReport_counters (Z.of_nat (length queue)) queue output) as [Hall Hsum].
    destruct (drain_counts queue _ 0 Hall ltac:(rewrite Hsum; lia) ltac:(lia) ltac:(lia))
      as (_ & _ & H3).
    rewrite H3, Z.add_0_l. reflexivity.
  - rewrite count_no_error. lia.
Qed.

Lemma X21_rates_witness :
  let r := aggregate (newReport 3 [Result None 200 50000000 100; Result None 404 0 0;
                                   Result (Some "timeout") 0 0 0] "") Second in
  RPS r = 2%float /\ SuccessRPS r = 1%float.
Proof.
  destruct (X21_rates [Result None 200 50000000 100; Result None 404 0 0;
                       Result (Some "timeout") 0 0 0] "" Second) as (H1 & H2 & _).
  - vm_compute. reflexivity.
  - split; [ etransitivity; [ exact H1 | ] | etransitivity; [ exact H2 | ] ];
      vm_compute; reflexivity.
Defined.

(** ** Printing twice *)

Ltac no_entry H :=
  repeat (apply elem_of_cons in H as [H | H];
          [ unfold is_entry; rewrite H; reflexivity | ]);
  apply elem_of_nil in H; contradiction.

Lemma printSummary_no_entry r :
  Forall (fun p => is_entry p = false) (printSummary r).
Proof.
  eapply Forall_impl; [ apply printSummary_formats | ].
  intros p H. cbn beta in H. unfold summary_formats in H. no_entry H.
Qed.

Lemma sections_no_entry l :
  Forall (fun p => format p ∈ section_formats) l ->
  Forall (fun p => is_entry p = false) l.
Proof.
  intros Hall. eapply Forall_impl; [ exact Hall | ].
  intros p H. cbn beta in H. unfold section_formats in H. no_entry H.
Qed.

Lemma printCSV_from_no_entry k lats :
  Forall (fun p => is_entry p = false) (printCSV_from k lats).
Proof.
  revert k. induction lats as [|x lats IH]; intros k; cbn [printCSV_from];
    constructor; [ reflexivity | apply IH ].
Qed.

Lemma filter_no_entry_entries (l : list printf) :
  Forall (fun p => is_entry p = true) l ->
  filter (fun p => is_entry p = false) l = [].
Proof.
  induction 1 as [|p l Hp Hall IH]; [ reflexivity | ].
  rewrite filter_cons. destruct (decide _); [ congruence | exact IH ].
Qed.

Lemma status_lines_entries (l : list (Z * Z)) :
  Forall (fun p => is_entry p = true) (map status_line l).
Proof. apply Forall_map, Forall_forall. intros entry _. reflexivity. Qed.

Lemma error_lines_entries (l : list (string * Z)) :
  Forall (fun p => is_entry p = true) (map error_line l).
Proof. apply Forall_map, Forall_forall. intros entry _. reflexivity. Qed.

(** The block under [if len(r.Lats) > 0] a second time, on the report that
    the first time has left and with another order of the status codes. *)
Lemma printDetails_again ord1 ord2 r r' details :
  printDetails ord1 r = Returns (r', details) ->
  exists (pre mid : list printf) (codes : bool),
    Forall (fun p => is_entry p = false) pre /\
    Forall (fun p => is_entry p = false) mid /\
    details = pre ++ (if codes
                      then map status_line (range_codes ord1 (StatusCodeDist r'))
                      else []) ++ mid /\
    printDetails ord2 r'
    = Returns (r', pre ++ (if codes
                           then map status_line (range_codes ord2 (StatusCodeDist r'))
                           else []) ++ mid).
Proof.
  intros Hd.
  apply printDetails_shape in Hd
    as [(He & Hr & Hdet) | (x & l & s & He & Hlast & Hr & Hcase)].
  - subst r' details. exists [], [], false.
    split; [ constructor | split; [ constructor | split; [ reflexivity | ] ] ].
    unfold printDetails. rewrite He. reflexivity.
  - assert (El : Lats r' = x :: l) by (rewrite Hr; exact He).
    assert (Ex : set_extremes x s r' = r') by (rewrite Hr; reflexivity).
    assert (Hout : output r' = output r) by (rewrite Hr; reflexivity).
    destruct (printDetails_cons ord2 r' x l El) as (s' & Hlast' & Hd2).
    assert (s' = s) as ->.
    { rewrite Hr in Hlast'. cbn [Lats set_extremes] in Hlast'. congruence. }
    cbv zeta in Hd2. rewrite Ex, Hout in Hd2.
    destruct Hcase as [[Hq ->] | (Hq & hist & Hh & ->)].
    + exists [], [], false.
      split; [ constructor | split; [ constructor | split; [ reflexivity | ] ] ].
      rewrite Hd2. destruct (decide _); [ reflexivity | contradiction ].
    + exists (printSummary r' ++ [Printf "\nStatus code distribution:\n" []]),
             (hist ++ printLatencies r'), true.
      split; [ | split; [ | split ] ].
      * apply Forall_app. split; [ apply printSummary_no_entry | ].
        constructor; [ reflexivity | constructor ].
      * apply sections_no_entry, Forall_app.
        split; [ eapply printHistogram_formats, Hh | apply printLatencies_formats ].
      * rewrite printStatusCodes_lines, <- !app_assoc. reflexivity.
      * rewrite Hd2. destruct (decide _); [ contradiction | ].
        rewrite Hh. cbn [mbind outcome_bind bind].
        rewrite printStatusCodes_lines, <- !app_assoc. reflexivity.
Qed.

(** [print] a second time, on the report that the first time has left and
    with other orders of the two maps. *)
Lemma print_again ord1 ord2 r r' out1 :
  print ord1 r = Returns (r', out1) ->
  exists (pre mid : list printf) (codes errors : bool),
    Forall (fun p => is_entry p = false) pre /\
    Forall (fun p => is_entry p = false) mid /\
    out1 = pre ++ (if codes
                   then map status_line (range_codes ord1 (StatusCodeDist r'))
                   else [])
           ++ mid ++ (if errors
                      then map error_line (range_errors ord1 (Errors r'))
                      else []) /\
    print ord2 r'
    = Returns (r', pre ++ (if codes
                           then map status_line (range_codes ord2 (StatusCodeDist r'))
                           else [])
                   ++ mid ++ (if errors
                              then map error_line (range_errors ord2 (Errors r'))
                              else [])).
Proof.
  intros Hp.
  assert (Hsorted : sort_Float64s (Lats r') = Lats r').
  { destruct (print_fields _ _ _ _ Hp) as (f & s & ->). cbn [Lats set_extremes set_Lats].
    apply sort_Float64s_sorted_id, sort_Float64s_sorted. }
  assert (Hout : output r' = output r).
  { destruct (print_fields _ _ _ _ Hp) as (f & s & ->). reflexivity. }
  assert (H2 : print ord2 r'
               = if decide (output r = "csv") then Returns (r', printCSV r')
                 else '(r1, out) ← printDetails ord2 r';
                      if (0 <? size (Errors r1))%nat
                      then Returns (r1, out ++ printErrors ord2 r1)
                      else Returns (r1, out)).
  { unfold print. rewrite Hsorted, set_Lats_same, Hout. reflexivity. }
  apply print_shape in Hp as [(Hc & Hr & Ho) | (Hc & details & Hd & Ho)].
  - exists out1, [], false, false.
    split; [ rewrite Ho; apply printCSV_from_no_entry | ].
    split; [ constructor | ].
    split; [ rewrite !app_nil_r; reflexivity | ].
    rewrite H2. destruct (decide _); [ | contradiction ].
    rewrite !app_nil_r, Ho. reflexivity.
  - destruct (printDetails_again ord1 ord2 _ _ _ Hd)
      as (pre & mid & codes & Hpre & Hmid & -> & Hd2).
    rewrite H2, Hd2. destruct (decide _); [ contradiction | ].
    cbn [mbind outcome_bind bind]. subst out1.
    destruct (0 <? size (Errors r'))%nat.
    + exists pre, (mid ++ [Printf "\nError distribution:\n" []]), codes, true.
      split; [ exact Hpre | ].
      split; [ apply Forall_app; split;
               [ exact Hmid | constructor; [ reflexivity | constructor ] ] | ].
      rewrite !printErrors_lines, <- !app_assoc. split; reflexivity.
    + exists pre, mid, codes, false.
      split; [ exact Hpre | split; [ exact Hmid | ] ].
      rewrite !app_nil_r. split; reflexivity.
Qed.

Lemma fair_key_order : fair_order key_order.
Proof. split; intros m; reflexivity. Qed.

Lemma fair_backward_order : fair_order backward_order.
Proof. split; intros m; apply reverse_Permutation. Qed.

(** X9: [print] on the report that [print] returned, when no two different
    latencies are in neither order of the sort (as in every run,
    [aggregate_tie_free]), returns the same report and
    writes the same lines again: the second sort and the second setting of
    [Fastest] and [Slowest] change nothing.  The two [range] statements
    choose their orders anew, so the entries of the status codes and of the
    errors may come in another order; every other line is where it was, and
    the output is the same when the two ranges visit the entries as
    before. *)
Theorem X9_print_twice (ord1 ord2 : map_order) (r r' : Report)
    (out1 : list printf) :
  fair_order ord1 -> fair_order ord2 -> tie_free (Lats r) ->
  print ord1 r = Returns (r', out1) ->
  exists out2,
    print ord2 r' = Returns (r', out2) /\
    out2 ≡ₚ out1 /\
    filter (fun p => is_entry p = false) out2
    = filter (fun p => is_entry p = false) out1 /\
    (range_codes ord2 (StatusCodeDist r') = range_codes ord1 (StatusCodeDist r') ->
     range_errors ord2 (Errors r') = range_errors ord1 (Errors r') ->
     out2 = out1).
Proof.
  intros [Hc1 He1] [Hc2 He2] _ Hp.
  destruct (print_again ord1 ord2 _ _ _ Hp)
    as (pre & mid & codes & errors & Hpre & Hmid & -> & Hp2).
  eexists. split; [ exact Hp2 | ]. split; [ | split ].
  - apply Permutation_app; [ reflexivity | ].
    apply Permutation_app;
      [ destruct codes; [ | reflexivity ];
        apply Permutation_map; rewrite Hc1, Hc2; reflexivity | ].
    apply Permutation_app; [ reflexivity | ].
    destruct errors; [ | reflexivity ].
    apply Permutation_map. rewrite He1, He2. reflexivity.
  - rewrite !filter_app. f_equal. f_equal; [ | f_equal ].
    + destruct codes; [ | reflexivity ].
      rewrite !filter_no_entry_entries by apply status_lines_entries. reflexivity.
    + destruct errors; [ | reflexivity ].
      rewrite !filter_no_entry_entries by apply error_lines_entries. reflexivity.
  - intros -> ->. reflexivity.
Qed.

Lemma X9_print_twice_witness :
  exists r' out1 out2,
    print key_order
      (aggregate (newReport 4 [Result None 200 100000000 10;
                               Result (Some "timeout") 0 0 0;
                               Result None 404 200000000 0;
                               Result (Some "refused") 0 0 0] "") Second)
    = Returns (r', out1) /\
    print backward_order r' = Returns (r', out2) /\
    out2 ≡ₚ out1.
Proof.
  assert (Hp : exists r' out1,
            print key_order
              (aggregate (newReport 4 [Result None 200 100000000 10;
                                       Result (Some "timeout") 0 0 0;
                                       Result None 404 200000000 0;
                                       Result (Some "refused") 0 0 0] "") Second)
            = Returns (r', out1)) by (eexists _, _; vm_compute; reflexivity).
  destruct Hp as (r' & out1 & Hp).
  assert (Ht : tie_free
                 (Lats (aggregate (newReport 4 [Result None 200 100000000 10;
                                                Result (Some "timeout") 0 0 0;
                                                Result None 404 200000000 0;
                                                Result (Some "refused") 0 0 0] "")
                          Second))).
  { repeat (constructor; cbn beta); intros H1 H2; vm_compute in H1, H2;
      first [ reflexivity | discriminate H1 | discriminate H2 ]. }
  destruct (X9_print_twice key_order backward_order _ r' out1
              fair_key_order fair_backward_order Ht Hp)
    as (out2 & H2 & Hperm & _).
  exists r', out1, out2. split; [ exact Hp | split; [ exact H2 | exact Hperm ] ].
Defined.

(** ** The latencies of a run have one sorted order *)

Lemma aggregate_no_neg_zero queue output total size :
  Forall (fun res => - 2 ^ 63 <= duration res < 2 ^ 63) queue ->
  Forall (fun x => Prim2SF x <> S754_zero true)
    (Lats (aggregate (newReport size queue output) total)).
Proof.
  intros Hq. rewrite aggregate_Lats. unfold drained. cbn [results newReport].
  rewrite drain_Lats. cbn [Lats]. rewrite app_nil_l.
  apply Forall_map, Forall_forall. intros res Hres.
  apply Seconds_not_neg_zero.
  apply list_elem_of_filter in Hres as [_ Hres].
  rewrite Forall_forall in Hq. apply Hq, Hres.
Qed.

Lemma aggregate_tie_free queue output total size :
  Forall (fun res => - 2 ^ 63 <= duration res < 2 ^ 63) queue ->
  tie_free (Lats (aggregate (newReport size queue output) total)).
Proof.
  intros Hq. apply numbers_tie_free.
  - apply aggregate_numbers. constructor.
  - apply aggregate_no_neg_zero, Hq.
Qed.

(** X22: in a run whose durations are integers of 64 bits, the latencies
    that [finalize] collects are numbers and none is the negative zero
    ([Duration.Seconds] gives neither), so no two different latencies are in
    neither order of the sort: the latencies have one sorted permutation
    only, and [print] leaves that one in the report, whatever the algorithm
    of [sort.Float64s] does with values that it cannot tell apart. *)
Theorem X22_run_latencies_order (queue : list result) (output : string)
    (total : Z) :
  Forall (fun res => - 2 ^ 63 <= duration res < 2 ^ 63) queue ->
  let r := aggregate (newReport (Z.of_nat (length queue)) queue output) total in
  numbers (Lats r) /\
  Forall (fun x => Prim2SF x <> S754_zero true) (Lats r) /\
  tie_free (Lats r) /\
  (forall l, l ≡ₚ Lats r -> StronglySorted float64_le l ->
             l = sort_Float64s (Lats r)) /\
  (forall ord r' out l,
     print ord r = Returns (r', out) ->
     l ≡ₚ Lats r -> StronglySorted float64_le l -> Lats r' = l).
Proof.
  intros Hq r.
  assert (Ht : tie_free (Lats r)) by (apply aggregate_tie_free, Hq).
  split; [ apply aggregate_numbers; constructor | ].
  split; [ apply aggregate_no_neg_zero, Hq | ].
  split; [ exact Ht | ].
  split.
  - intros l Hl Hs. apply sort_Float64s_unique; assumption.
  - intros ord r' out l Hp Hl Hs. apply print_Lats in Hp. rewrite Hp.
    symmetry. apply sort_Float64s_unique; assumption.
Qed.

Lemma X22_run_latencies_order_witness :
  let queue := [Result None 200 300000000 10; Result (Some "timeout") 0 0 0;
                Result None 404 0 0; Result None 200 (- 100000000) 0] in
  tie_free (Lats (aggregate (newReport 4 queue "") Second)).
Proof.
  refine (proj1 (proj2 (proj2
            (X22_run_latencies_order
               [Result None 200 300000000 10; Result (Some "timeout") 0 0 0;
                Result None 404 0 0; Result None 200 (- 100000000) 0]
               "" Second _)))).
  repeat constructor; cbn [duration]; lia.
Defined.
